(** * riser: the multi-length training and validation loop

    A shallow embedding of [riser/train.py]: the helpers that count the
    batches and samples of a combined loader, one training epoch
    ([train]), one validation epoch ([validate]) and the epoch driver
    ([main]) with its resume check and its checkpoint selection.  Beside
    it: [test] of [evaluate.py], and the constructors of the networks of
    [riser/nets/resnet.py] and [riser/nets/tcn_bot.py] that the driver
    calls.

    The tensor engine, the optimiser, the data files, the random generator
    and the wall clock are collaborators of the program.  They appear here
    as the operations of two interfaces ([Scalar], [Framework]) and as
    read-only streams of the [World]; the program's own control flow is
    written out in an error-and-state monad over that world. *)

From stdpp Require Import base option list strings gmap pretty.
From Stdlib Require Import Ascii QArith.

Local Open Scope Z_scope.
Local Open Scope nat_scope.
Local Open Scope list_scope.

(** ** Python floats

    The losses and accuracies are Python floats.  The program only adds,
    subtracts, multiplies, divides and compares them, so the embedding is
    generic in the type that carries them and in these five operations.
    [of_Z] is the conversion Python applies to an [int] operand of a mixed
    operation; [0.0] is [of_Z 0]. *)

Class Scalar := {
  F : Type;
  of_Z : Z → F;
  fadd : F → F → F;
  fsub : F → F → F;
  fmul : F → F → F;
  fdiv : F → F → F;
  fgt : F → F → bool;
}.

(** ** The tensor framework

    [Sample] is a row of an input tensor [X], [Scores] a row of the score
    tensor a model returns; labels are class indices.  A [Net] is an
    [nn.Module] object (parameters, buffers, gradients, mode flag), an
    [Optimizer] the state of [torch.optim.Adam]. *)

Class Framework `{Scalar} := {
  Sample : Type;
  Scores : Type;
  Net : Type;
  Optimizer : Type;
  Snapshot : Type;
  (** [pred.argmax(1)], row by row *)
  argmax : Scores → nat;
  (** [model.train()] is [set_training true], [model.eval()] is
      [set_training false] *)
  set_training : bool → Net → Net;
  (** [model(X)] under the given gradient mode: the scores and the module
      after the call *)
  forward : bool → Net → list Sample → list Scores * Net;
  (** [optimizer.zero_grad()] *)
  zero_grad : Net → Net;
  (** [loss.backward()] for the loss of [pred] against [y] on input [X] *)
  backward : Net → list Sample → list Scores → list nat → Net;
  (** [optimizer.step()] *)
  opt_step : Optimizer → Net → Optimizer * Net;
  (** [model.state_dict()] and [model.load_state_dict(sd)] *)
  state_dict : Net → Snapshot;
  load_state_dict : Snapshot → Net → Net;
  (** [nn.CrossEntropyLoss()], as the value [loss_fn(pred, y).item()] *)
  cross_entropy_loss : list Scores → list nat → F;
  (** [torch.optim.Adam(model.parameters(), lr)] *)
  new_adam : Net → F → Optimizer;
}.

(** ** Exceptions and results *)

Inductive exn :=
| KeyError (key : string)
| ZeroDivisionError
| AssertionError
| UnboundLocalError (name : string)
| FileNotFoundError (path : string).

Inductive result (A : Type) :=
| Ok (a : A)
| Raise (e : exn).
Arguments Ok {A} a.
Arguments Raise {A} e.

Section Embedding.
Context `{Fw : Framework}.

(** A [(X, y)] pair as a loader yields it. *)
Definition Batch : Type := list Sample * list nat.

(** [loss_fn(pred, y).item()] *)
Definition LossFn : Type := list Scores → list nat → F.

(** A [DataLoader] during one pass: the batches it yields, and the size of
    its dataset.  [len(loader)] is the number of batches of a pass. *)
Record Loader := mkLoader {
  batches : list Batch;
  dataset_len : nat;
}.

Definition loader_len (l : Loader) : nat := length (batches l).

(** ** What the program does to the outside

    Every call into a collaborator is recorded, in order. *)

Inductive Event :=
| EForward (grad : bool) (X : list Sample) (pred : list Scores)
| ELoss (pred : list Scores) (y : list nat) (v : F)
| EZeroGrad
| EBackward
| EStep
| EProgress (avg_loss : F) (sample n_samples : nat)
| EAddScalar (tag : string) (v : F) (step : Z)
| ESummary
| ESave (path : string) (sd : Snapshot)
| ENote (text : string).

Record World := mkWorld {
  net : Net;
  optimizer : Optimizer;
  grad_enabled : bool;
  (** Python's global random generator: the raw draws it will deliver and
      how many have been taken *)
  entropy : nat → nat;
  rng_pos : nat;
  (** [time.time()]: the readings it will deliver and how many were taken *)
  clock : nat → F;
  ticks : nat;
  (** the checkpoint files *)
  files : gmap string Snapshot;
  events : list Event;
}.

Definition set_net (m : Net) (w : World) : World :=
  mkWorld m (optimizer w) (grad_enabled w) (entropy w) (rng_pos w)
          (clock w) (ticks w) (files w) (events w).
Definition set_optimizer (o : Optimizer) (w : World) : World :=
  mkWorld (net w) o (grad_enabled w) (entropy w) (rng_pos w)
          (clock w) (ticks w) (files w) (events w).
Definition set_grad_enabled (g : bool) (w : World) : World :=
  mkWorld (net w) (optimizer w) g (entropy w) (rng_pos w)
          (clock w) (ticks w) (files w) (events w).
Definition set_rng_pos (p : nat) (w : World) : World :=
  mkWorld (net w) (optimizer w) (grad_enabled w) (entropy w) p
          (clock w) (ticks w) (files w) (events w).
Definition set_ticks (t : nat) (w : World) : World :=
  mkWorld (net w) (optimizer w) (grad_enabled w) (entropy w) (rng_pos w)
          (clock w) t (files w) (events w).
Definition set_files (fs : gmap string Snapshot) (w : World) : World :=
  mkWorld (net w) (optimizer w) (grad_enabled w) (entropy w) (rng_pos w)
          (clock w) (ticks w) fs (events w).
Definition emit (e : Event) (w : World) : World :=
  mkWorld (net w) (optimizer w) (grad_enabled w) (entropy w) (rng_pos w)
          (clock w) (ticks w) (files w) (events w ++ [e]).

(** ** The monad: a computation runs in a world, returns or raises, and
    leaves the world as it was when it stopped. *)

Definition M (A : Type) : Type := World → result A * World.

Definition ret {A} (a : A) : M A := λ w, (Ok a, w).
Definition raise {A} (e : exn) : M A := λ w, (Raise e, w).
Definition bind {A B} (m : M A) (k : A → M B) : M B :=
  λ w, match m w with
       | (Ok a, w') => k a w'
       | (Raise e, w') => (Raise e, w')
       end.
Definition act (f : World → World) : M unit := λ w, (Ok tt, f w).
Definition ask {A} (f : World → A) : M A := λ w, (Ok (f w), w).

#[local] Notation "x <- m ;; k" := (bind m (λ x, k))
  (at level 100, m at next level, right associativity).
#[local] Notation "'let*' p := m 'in' k" := (bind m (λ p, k))
  (at level 10, p pattern, m at level 200, k at level 200).
#[local] Notation "m ;;; k" := (bind m (λ _, k))
  (at level 100, right associativity).

(** [for x in xs: s = body(x, s)] *)
Fixpoint for_each {A S} (xs : list A) (body : A → S → M S) (s : S) : M S :=
  match xs with
  | [] => ret s
  | x :: xs' => s' <- body x s ;; for_each xs' body s'
  end.

(** [x / n] with a float [x] and an int [n] *)
Definition pydiv (x : F) (n : nat) : M F :=
  if n is O then raise ZeroDivisionError
  else ret (fdiv x (of_Z (Z.of_nat n))).

(** [a % b == 0] on ints *)
Definition divides (b : Z) (a : nat) : M bool :=
  if decide (b = 0%Z) then raise ZeroDivisionError
  else ret (bool_decide ((Z.of_nat a `mod` b)%Z = 0%Z)).

(** [d[k]] on a dict *)
Definition getitem {V} (d : gmap string V) (k : string) : M V :=
  match d !! k with
  | Some v => ret v
  | None => raise (KeyError k)
  end.

(** ** The combined loader

    [CombinedLoader(loaders, mode="max_size")] over a dict of loaders.  A
    pass has as many steps as its longest loader has batches; step [i]
    delivers, under every key, the [i]-th batch of that loader, or [None]
    once the loader is exhausted. *)

Definition flattened (cl : gmap string Loader) : list Loader :=
  (map_to_list cl).*2.

Definition n_steps (cl : gmap string Loader) : nat :=
  max_list (loader_len <$> flattened cl).

Definition combined_batches_at (cl : gmap string Loader) (i : nat)
  : gmap string (option Batch) :=
  (λ l, batches l !! i) <$> cl.

Definition steps (cl : gmap string Loader) : list (gmap string (option Batch)) :=
  combined_batches_at cl <$> seq 0 (n_steps cl).

(** ** [count_batches_in_combined_loader], [count_samples_in_combined_loader] *)

Definition count_batches_in_combined_loader (cl : gmap string Loader) : nat :=
  foldl (λ n_batches loader, n_batches + loader_len loader) 0 (flattened cl).

Definition count_samples_in_combined_loader (cl : gmap string Loader) : nat :=
  foldl (λ n_samples loader, n_samples + dataset_len loader) 0 (flattened cl).

(** ** [random.shuffle]

    [randbelow n] takes the next raw draw.  [random_shuffle] is the loop of
    the standard library: for [i] from [len(x) - 1] down to [1], draw
    [j] below [i + 1] and exchange [x[i]] and [x[j]]. *)

Definition randbelow (n : nat) : M nat :=
  λ w, (Ok (entropy w (rng_pos w) `mod` n), set_rng_pos (S (rng_pos w)) w).

Definition swap {A} (x : list A) (i j : nat) : list A :=
  match x !! i, x !! j with
  | Some xi, Some xj => <[j := xi]> (<[i := xj]> x)
  | _, _ => x
  end.

Definition random_shuffle {A} (x : list A) : M (list A) :=
  for_each (rev (seq 1 (length x - 1)))
           (λ i x, j <- randbelow (i + 1) ;; ret (swap x i j)) x.

(** The same exchanges for a given list of draws, first draw first. *)
Fixpoint shuffle_with {A} (i : nat) (draws : list nat) (x : list A) : list A :=
  match i, draws with
  | S i', j :: draws' => shuffle_with i' draws' (swap x i j)
  | _, _ => x
  end.

(** ** Calls into the framework *)

Definition call_model (X : list Sample) : M (list Scores) :=
  λ w, let '(pred, m) := forward (grad_enabled w) (net w) X in
       (Ok pred, emit (EForward (grad_enabled w) X pred) (set_net m w)).

Definition call_loss (loss_fn : LossFn) (pred : list Scores) (y : list nat) : M F :=
  λ w, (Ok (loss_fn pred y), emit (ELoss pred y (loss_fn pred y)) w).

Definition optimizer_zero_grad : M unit :=
  act (λ w, emit EZeroGrad (set_net (zero_grad (net w)) w)).

Definition loss_backward (X : list Sample) (pred : list Scores) (y : list nat) : M unit :=
  act (λ w, emit EBackward (set_net (backward (net w) X pred y) w)).

Definition optimizer_step : M unit :=
  act (λ w, let '(o, m) := opt_step (optimizer w) (net w) in
            emit EStep (set_optimizer o (set_net m w))).

Definition model_train : M unit := act (λ w, set_net (set_training true (net w)) w).
Definition model_eval : M unit := act (λ w, set_net (set_training false (net w)) w).

(** [with torch.no_grad(): body] *)
Definition no_grad {A} (body : M A) : M A :=
  λ w, let '(r, w') := body (set_grad_enabled false w) in
       (r, set_grad_enabled (grad_enabled w) w').

Definition add_scalar (tag : string) (v : F) (step : Z) : M unit :=
  act (emit (EAddScalar tag v step)).

Definition note (text : string) : M unit := act (emit (ENote text)).

Definition time_time : M F :=
  λ w, (Ok (clock w (ticks w)), set_ticks (S (ticks w)) w).

(** [(pred.argmax(1) == y).type(torch.float).sum().item()]: the number of
    rows whose best class is the label *)
Definition n_match (pred : list Scores) (y : list nat) : nat :=
  length (filter (λ sy, argmax sy.1 = sy.2) (zip pred y)).

(** ** [train] *)

(** The body of [for length in input_lengths], lines 47 to 77; the state is
    [(total_loss, batch_n)]. *)
Definition train_bucket (combined_batches : gmap string (option Batch))
    (loss_fn : LossFn) (n_samples : nat) (epoch : Z) (log_freq : Z)
    (length : string) (st : F * nat) : M (F * nat) :=
  let '(total_loss, batch_n) := st in
  entry <- getitem combined_batches length ;;
  match entry with
  | None => ret (total_loss, batch_n)
  | Some (X, y) =>
      pred <- call_model X ;;
      loss <- call_loss loss_fn pred y ;;
      let total_loss := fadd total_loss loss in
      optimizer_zero_grad ;;;
      loss_backward X pred y ;;;
      optimizer_step ;;;
      log <- (if decide (batch_n ≠ 0) then divides log_freq batch_n
              else ret false) ;;
      (if log : bool then
         let sample := batch_n * List.length X in
         let global_step := (epoch * Z.of_nat n_samples + Z.of_nat sample)%Z in
         avg_loss <- pydiv total_loss batch_n ;;
         act (emit (EProgress avg_loss sample n_samples)) ;;;
         add_scalar "training loss" avg_loss global_step
       else ret tt) ;;;
      ret (total_loss, batch_n + 1)
  end.

(** The body of [for combined_batches in dataloader], lines 44 to 77; the
    state is [(total_loss, input_lengths, batch_n)]. *)
Definition train_step (loss_fn : LossFn) (n_samples : nat) (epoch : Z) (log_freq : Z)
    (combined_batches : gmap string (option Batch))
    (st : F * list string * nat) : M (F * list string * nat) :=
  let '(total_loss, input_lengths, batch_n) := st in
  input_lengths <- random_shuffle input_lengths ;;
  let* (total_loss, batch_n) :=
    for_each input_lengths
      (train_bucket combined_batches loss_fn n_samples epoch log_freq)
      (total_loss, batch_n) in
  ret (total_loss, input_lengths, batch_n).

Definition train (dataloader : gmap string Loader) (loss_fn : LossFn)
    (epoch : Z) (log_freq : Z) : M F :=
  model_train ;;;
  let n_samples := count_samples_in_combined_loader dataloader in
  let n_batches := count_batches_in_combined_loader dataloader in
  let* (total_loss, _, _) :=
    for_each (steps dataloader)
      (train_step loss_fn n_samples epoch log_freq)
      (of_Z 0, ["2s"; "3s"; "4s"], 0) in
  pydiv total_loss n_batches.

(** ** [validate] *)

(** The body of [for length in input_lengths], lines 91 to 105; the state is
    [(total_loss, n_correct)]. *)
Definition validate_bucket (combined_batches : gmap string (option Batch))
    (loss_fn : LossFn) (length : string) (st : F * F) : M (F * F) :=
  let '(total_loss, n_correct) := st in
  entry <- getitem combined_batches length ;;
  match entry with
  | None => ret (total_loss, n_correct)
  | Some (X, y) =>
      pred <- call_model X ;;
      loss <- call_loss loss_fn pred y ;;
      ret (fadd total_loss loss,
           fadd n_correct (of_Z (Z.of_nat (n_match pred y))))
  end.

Definition validate_step (loss_fn : LossFn)
    (combined_batches : gmap string (option Batch)) (st : F * F) : M (F * F) :=
  for_each ["2s"; "3s"; "4s"] (validate_bucket combined_batches loss_fn) st.

Definition validate (dataloader : gmap string Loader) (loss_fn : LossFn) : M (F * F) :=
  let n_samples := count_samples_in_combined_loader dataloader in
  let n_batches := count_batches_in_combined_loader dataloader in
  model_eval ;;;
  let* (total_loss, n_correct) :=
    no_grad (for_each (steps dataloader) (validate_step loss_fn) (of_Z 0, of_Z 0)) in
  avg_loss <- pydiv total_loss n_batches ;;
  ratio <- pydiv n_correct n_samples ;;
  let acc := fmul ratio (of_Z 100) in
  ret (avg_loss, acc).

(** ** The epoch driver, [main] *)

(** The fields of the configuration that [main] reads. *)
Record Config := mkConfig {
  batch_size : nat;
  model_kind : string;
  learning_rate : F;
  n_epochs : Z;
}.

(** What [main] finds on the machine it runs on: the configuration file,
    the datasets and the network constructors of [nets]. *)
Record Site := mkSite {
  Dataset : Type;
  get_config : string → Config;
  SignalDataset : string → string → Dataset;
  DataLoader : Dataset → nat → bool → Loader;
  TCN : Config → Net;
  ResNet : Config → Net;
  ConvNet : Config → Net;
  TCNBot : Config → Net;
}.

Definition build_loader (site : Site) (data_dir : string) (batch_size : nat)
    (shuffle : bool) : Loader :=
  let dataset := SignalDataset site (data_dir +:+ "/positive.pt")
                                    (data_dir +:+ "/negative.pt") in
  DataLoader site dataset batch_size shuffle.

Definition write_scalars (metrics : list (string * F)) (epoch : Z) : M unit :=
  for_each metrics (λ mv _, add_scalar mv.1 mv.2 epoch) tt.

(** [s.split('/')[-1]]: what follows the last ['/'] of [s] *)
Fixpoint last_segment_from (acc s : string) : string :=
  match s with
  | EmptyString => acc
  | String c s' =>
      if decide (c = "/"%char) then last_segment_from "" s'
      else last_segment_from (acc +:+ String c "") s'
  end.
Definition last_segment (s : string) : string := last_segment_from "" s.

(** Whether the character [c] occurs in [s]. *)
Fixpoint contains (c : ascii) (s : string) : bool :=
  match s with
  | EmptyString => false
  | String c' s' => bool_decide (c' = c) || contains c s'
  end.

(** [range(a, b)] *)
Definition py_range (a b : Z) : list Z :=
  (λ i, (a + Z.of_nat i)%Z) <$> seq 0 (Z.to_nat (b - a)).

Definition torch_load (path : string) : M Snapshot :=
  fs <- ask files ;;
  match fs !! path with
  | Some sd => ret sd
  | None => raise (FileNotFoundError path)
  end.

Definition torch_save (sd : Snapshot) (path : string) : M unit :=
  act (λ w, emit (ESave path sd) (set_files (<[path := sd]> (files w)) w)).

Definition py_assert (b : bool) : M unit :=
  if b then ret tt else raise AssertionError.

(** Reading the local variable [model], which only the supported model
    kinds bind. *)
Definition the_model (bound : bool) : M unit :=
  if bound then ret tt else raise (UnboundLocalError "model").

(** Lines 175 to 184. *)
Definition define_model (site : Site) (config : Config) : M bool :=
  if decide (model_kind config = "tcn") then
    act (set_net (TCN site config)) ;;; ret true
  else if decide (model_kind config = "resnet") then
    act (set_net (ResNet site config)) ;;; ret true
  else if decide (model_kind config = "cnn") then
    act (set_net (ConvNet site config)) ;;; ret true
  else if decide (model_kind config = "tcn-bot") then
    act (set_net (TCNBot site config)) ;;; ret true
  else
    note (model_kind config +:+ " model is not supported - typo in config?") ;;;
    ret false.

(** Lines 186 to 192. *)
Definition restore_checkpoint (bound : bool) (exp_dir : string)
    (checkpt : option string) (start_epoch : Z) : M unit :=
  match checkpt with
  | Some name =>
      the_model bound ;;;
      sd <- torch_load (exp_dir +:+ "/" +:+ name) ;;
      act (λ w, set_net (load_state_dict sd (net w)) w) ;;;
      py_assert (bool_decide (start_epoch > 0)%Z)
  | None =>
      py_assert (bool_decide (start_epoch = 0%Z))
  end.

(** Lines 234 to 243; the state is [(best_acc, best_epoch)]. *)
Definition save_checkpoints (exp_dir exp_id : string) (start_epoch t : Z)
    (val_acc : F) (st : F * Z) : M (F * Z) :=
  let '(best_acc, best_epoch) := st in
  let* (best_acc, best_epoch) :=
    (if fgt val_acc best_acc then
       sd <- ask (λ w, state_dict (net w)) ;;
       torch_save sd (exp_dir +:+ "/" +:+ exp_id +:+ "_" +:+ pretty start_epoch
                      +:+ "_best_model.pth") ;;;
       ret (val_acc, t)
     else ret (best_acc, best_epoch)) in
  sd <- ask (λ w, state_dict (net w)) ;;
  torch_save sd (exp_dir +:+ "/" +:+ exp_id +:+ "_latest_model.pth") ;;;
  ret (best_acc, best_epoch).

(** The body of [for t in range(start_epoch, config.n_epochs)], lines 208 to
    243. *)
Definition epoch (train_loader val_loader : gmap string Loader)
    (loss_fn : LossFn) (exp_dir exp_id : string) (start_epoch : Z)
    (t : Z) (st : F * Z) : M (F * Z) :=
  start_train_t <- time_time ;;
  train_loss <- train train_loader loss_fn t 100 ;;
  end_train_t <- time_time ;;
  let start_val_t := end_train_t in
  let* (val_loss, val_acc) := validate val_loader loss_fn in
  end_val_t <- time_time ;;
  let train_t := fsub end_train_t start_train_t in
  let val_t := fsub end_val_t start_val_t in
  let metrics := [("train_loss", train_loss);
                  ("val_loss", val_loss);
                  ("val_acc", val_acc);
                  ("train_t", train_t);
                  ("val_t", val_t);
                  ("train - val loss", fsub train_loss val_loss)] in
  write_scalars metrics t ;;;
  save_checkpoints exp_dir exp_id start_epoch t val_acc st.

(** [main], with [sys.argv[1]] to [sys.argv[4]] and [int(sys.argv[5])] as
    its arguments. *)
Definition main (site : Site) (exp_dir data_dir argv3 config_file : string)
    (start_epoch : Z) : M unit :=
  let checkpt := if decide (argv3 ≠ "None") then Some argv3 else None in
  let config := get_config site config_file in
  let exp_id := last_segment exp_dir in
  let train_2s_loader := build_loader site (data_dir +:+ "/2s/train") (batch_size config) true in
  let train_3s_loader := build_loader site (data_dir +:+ "/3s/train") (batch_size config) true in
  let train_4s_loader := build_loader site (data_dir +:+ "/4s/train") (batch_size config) true in
  let train_loader : gmap string Loader :=
    <["2s" := train_2s_loader]> (<["3s" := train_3s_loader]> {["4s" := train_4s_loader]}) in
  let val_2s_loader := build_loader site (data_dir +:+ "/2s/val") (batch_size config) false in
  let val_3s_loader := build_loader site (data_dir +:+ "/3s/val") (batch_size config) false in
  let val_4s_loader := build_loader site (data_dir +:+ "/4s/val") (batch_size config) false in
  let val_loader : gmap string Loader :=
    <["2s" := val_2s_loader]> (<["3s" := val_3s_loader]> {["4s" := val_4s_loader]}) in
  bound <- define_model site config ;;
  restore_checkpoint bound exp_dir checkpt start_epoch ;;;
  the_model bound ;;;
  act (emit ESummary) ;;;
  let loss_fn := cross_entropy_loss in
  the_model bound ;;;
  act (λ w, set_optimizer (new_adam (net w) (learning_rate config)) w) ;;;
  let* (best_acc, best_epoch) :=
    for_each (py_range start_epoch (n_epochs config))
      (epoch train_loader val_loader loss_fn exp_dir exp_id start_epoch)
      (of_Z 0, 0%Z) in
  ret tt.

(** Two worlds that differ at most in the network, the optimiser and the
    trace. *)
Definition framed (w w' : World) : Prop :=
  entropy w' = entropy w ∧ rng_pos w' = rng_pos w ∧
  grad_enabled w' = grad_enabled w ∧
  clock w' = clock w ∧ ticks w' = ticks w ∧ files w' = files w.

(** ** Reading a trace *)

(** The inputs of the forward passes, in order. *)
Definition fwd_inputs (evs : list Event) : list (list Sample) :=
  omap (λ e, if e is EForward _ X _ then Some X else None) evs.

(** The gradient mode of every forward pass. *)
Definition fwd_modes (evs : list Event) : list bool :=
  omap (λ e, if e is EForward g _ _ then Some g else None) evs.

(** The evaluations of the loss function: scores, labels, value. *)
Definition loss_calls (evs : list Event) : list (list Scores * list nat * F) :=
  omap (λ e, if e is ELoss pred y v then Some (pred, y, v) else None) evs.

Definition loss_values (evs : list Event) : list F := (loss_calls evs).*2.


Definition progress_losses (evs : list Event) : list F :=
  omap (λ e, if e is EProgress avg _ _ then Some avg else None) evs.

(** The scalars written under a tag: value and step. *)
Definition scalars (tag : string) (evs : list Event) : list (F * Z) :=
  omap (λ e, if e is EAddScalar tag' v step
             then (if decide (tag' = tag) then Some (v, step) else None)
             else None) evs.

(** The paths written by [torch.save], in order. *)
Definition saved_paths (evs : list Event) : list string :=
  omap (λ e, if e is ESave path _ then Some path else None) evs.

Definition optimizer_steps (evs : list Event) : nat :=
  length (omap (λ e, if e is EStep then Some tt else None) evs).

(** [x_1 + ... + x_k], added in this order to [x0] *)
Definition fsum (x0 : F) (xs : list F) : F := foldl fadd x0 xs.

(** ** The course of an epoch, as lists

    A processed batch together with the scores and the loss it received. *)
Definition Processed : Type := Batch * list Scores * F.

Definition batch_of (r : Processed) : Batch := r.1.1.

(** Whether the progress record is written at counter value [batch_n]. *)
Definition logs_at (log_freq : Z) (batch_n : nat) : bool :=
  bool_decide (batch_n ≠ 0 ∧ (Z.of_nat batch_n `mod` log_freq)%Z = 0%Z).

(** The events of one pass through lines 53 to 77. *)
Definition train_batch_events (g : bool) (n_samples : nat) (epoch log_freq : Z)
    (total_loss : F) (batch_n : nat) (r : Processed) : list Event :=
  let '((X, y), pred, v) := r in
  [EForward g X pred; ELoss pred y v; EZeroGrad; EBackward; EStep] ++
  (if logs_at log_freq batch_n then
     let avg_loss := fdiv (fadd total_loss v) (of_Z (Z.of_nat batch_n)) in
     let sample := batch_n * List.length X in
     [EProgress avg_loss sample n_samples;
      EAddScalar "training loss" avg_loss
                 (epoch * Z.of_nat n_samples + Z.of_nat sample)%Z]
   else []).

Fixpoint train_trace (g : bool) (n_samples : nat) (epoch log_freq : Z)
    (total_loss : F) (batch_n : nat) (rs : list Processed) : list Event :=
  match rs with
  | [] => []
  | r :: rs' =>
      train_batch_events g n_samples epoch log_freq total_loss batch_n r ++
      train_trace g n_samples epoch log_freq (fadd total_loss r.2) (batch_n + 1) rs'
  end.

Definition validate_trace (rs : list Processed) : list Event :=
  rs ≫= λ r, [EForward false (batch_of r).1 r.1.2; ELoss r.1.2 (batch_of r).2 r.2].

(** The bucket identifiers written into [train] and [validate]. *)
Definition hardcoded : list string := ["2s"; "3s"; "4s"].

(** What the loss function returned is what was added up. *)
Definition loss_of (loss_fn : LossFn) (r : Processed) : Prop :=
  r.2 = loss_fn r.1.2 (batch_of r).2.

(** The number of correct rows of a processed batch, as [validate] adds it
    to [n_correct]. *)
Definition correct_of (r : Processed) : F :=
  of_Z (Z.of_nat (n_match r.1.2 (batch_of r).2)).

(** The result of [validate] from the processed batches: lines 108 to 112. *)
Definition validate_result (cl : gmap string Loader) (rs : list Processed)
  : M (F * F) :=
  bind (pydiv (fsum (of_Z 0) rs.*2) (count_batches_in_combined_loader cl))
    (λ avg_loss,
       bind (pydiv (fsum (of_Z 0) (correct_of <$> rs))
                   (count_samples_in_combined_loader cl))
         (λ ratio, ret (avg_loss, fmul ratio (of_Z 100)))).

(** The combined loader as [main] builds it. *)
Definition three (l2 l3 l4 : Loader) : gmap string Loader :=
  <["2s" := l2]> (<["3s" := l3]> {["4s" := l4]}).

(** What a run added to the trace. *)
Definition new_events (w w' : World) : list Event :=
  drop (length (events w)) (events w').

(** The batches given to the model and to the loss function: the input of
    each forward pass with the labels of the loss evaluation that follows. *)
Definition consumed (evs : list Event) : list Batch :=
  zip (fwd_inputs evs) ((λ c, c.1.2) <$> loss_calls evs).



(** A computation that only adds to the trace and never fails an
    assertion. *)
Definition steady {A} (m : M A) : Prop :=
  ∀ w, events w `prefix_of` events (m w).2 ∧ (m w).1 ≠ Raise AssertionError.

(** A computation that keeps a property of the world, however it ends. *)
Definition keeps {A} (I : World → Prop) (m : M A) : Prop :=
  ∀ w, I w → I (m w).2.

(** The events of a pass without training: forward passes with gradients
    disabled and evaluations of the loss. *)
Definition inference_event (e : Event) : Prop :=
  match e with
  | EForward false _ _ | ELoss _ _ _ => True
  | _ => False
  end.

(** The resume rule in the words of the specification: with a snapshot the
    starting epoch is strictly positive, without one it is zero.  The
    command line gives the snapshot as a file name, or [None]. *)
Definition consistent (argv3 : string) (start_epoch : Z) : Prop :=
  if decide (argv3 ≠ "None") then (start_epoch > 0)%Z else start_epoch = 0%Z.

(** The model kinds that [main] knows. *)
Definition supported : list string := ["tcn"; "resnet"; "cnn"; "tcn-bot"].

(** For the validation accuracies of successive epochs and the best value
    recorded before them: whether each epoch improves on the record. *)
Fixpoint improvements (best_acc : F) (accs : list F) : list bool :=
  match accs with
  | [] => []
  | acc :: accs' =>
      fgt acc best_acc ::
      improvements (if fgt acc best_acc then acc else best_acc) accs'
  end.

(** The value of [best_acc] after each epoch of a run that starts from
    [best_acc] and whose epochs have the validation accuracies [accs]
    (lines 233 to 235). *)
Fixpoint best_records (best_acc : F) (accs : list F) : list F :=
  match accs with
  | [] => []
  | acc :: accs' =>
      let best_acc' := if fgt acc best_acc then acc else best_acc in
      best_acc' :: best_records best_acc' accs'
  end.

Definition best_path (exp_dir exp_id : string) (start_epoch : Z) : string :=
  exp_dir +:+ "/" +:+ exp_id +:+ "_" +:+ pretty start_epoch +:+ "_best_model.pth".

Definition latest_path (exp_dir exp_id : string) : string :=
  exp_dir +:+ "/" +:+ exp_id +:+ "_latest_model.pth".

(** The network is the one [model.eval()] left, the optimiser is untouched,
    gradients are disabled, and the trace has grown by inference events
    only. *)
Definition frozen (w0 w : World) : Prop :=
  net w = set_training false (net w0) ∧
  optimizer w = optimizer w0 ∧
  grad_enabled w = false ∧
  ∃ evs, events w = events w0 ++ evs ∧ Forall inference_event evs.


(** What the combined loader delivers under key [k] at step [i]. *)
Definition delivered (cl : gmap string Loader) (i : nat) (k : string) : option Batch :=
  cl !! k ≫= λ l, batches l !! i.

(** The batches met when step [a], [a+1], ... are walked in the given
    orders, skipping what is absent. *)
Fixpoint visited (cl : gmap string Loader) (a : nat) (orders : list (list string))
  : list Batch :=
  match orders with
  | [] => []
  | order :: orders' => omap (delivered cl a) order ++ visited cl (S a) orders'
  end.

(** The [n] draws that a shuffle of [n + 1] items takes from position [p]:
    the draw for index [i] is reduced below [i + 1]. *)
Fixpoint draws (e : nat → nat) (p n : nat) : list nat :=
  match n with
  | O => []
  | S n' => e p `mod` (n + 1) :: draws e (S p) n'
  end.

Definition shuffled {A} (e : nat → nat) (p : nat) (x : list A) : list A :=
  shuffle_with (length x - 1) (draws e p (length x - 1)) x.

(** The bucket orders of [n] successive steps of [train]. *)
Fixpoint train_orders (e : nat → nat) (p : nat) (order : list string) (n : nat)
  : list (list string) :=
  match n with
  | O => []
  | S n' =>
      let order' := shuffled e p order in
      order' :: train_orders e (p + (length order - 1)) order' n'
  end.

(** The pairs of draws of one shuffle of three items: the first is below
    three, the second below two. *)
Definition all_draws : list (list nat) :=
  j2 ← seq 0 3; j1 ← seq 0 2; [[j2; j1]].

(** ** [test] of [evaluate.py]

    The accuracy of a model over one plain loader. *)

(** The body of [for X, y in dataloader], lines 16 to 23; the state is
    [n_correct]. *)
Definition test_batch (b : Batch) (n_correct : F) : M F :=
  let '(X, y) := b in
  pred <- call_model X ;;
  ret (fadd n_correct (of_Z (Z.of_nat (n_match pred y)))).

Definition test (dataloader : Loader) : M F :=
  let n_samples := dataset_len dataloader in
  model_eval ;;;
  n_correct <- no_grad (for_each (batches dataloader) test_batch (of_Z 0)) ;;
  ratio <- pydiv n_correct n_samples ;;
  let acc := fmul ratio (of_Z 100) in
  ret acc.

(** ** More ways to read a run *)

(** Two worlds that agree on everything but the trace. *)
Definition same_state (w1 w2 : World) : Prop :=
  net w1 = net w2 ∧ optimizer w1 = optimizer w2 ∧
  grad_enabled w1 = grad_enabled w2 ∧
  entropy w1 = entropy w2 ∧ rng_pos w1 = rng_pos w2 ∧
  clock w1 = clock w2 ∧ ticks w1 = ticks w2 ∧ files w1 = files w2.

(** The trace without the progress records and the scalars. *)
Definition framework_calls (evs : list Event) : list Event :=
  omap (λ e, match e with
             | EProgress _ _ _ | EAddScalar _ _ _ => None
             | _ => Some e
             end) evs.

(** The calls that [train] makes for one batch, lines 59 to 66, for the
    input of the forward pass and the arguments and value of the loss. *)
Definition training_calls (g : bool) (X : list Sample)
    (c : list Scores * list nat * F) : list Event :=
  [EForward g X c.1.1; ELoss c.1.1 c.1.2 c.2; EZeroGrad; EBackward; EStep].

(** The bucket identifiers that a combined loader lacks. *)
Definition missing (cl : gmap string Loader) (order : list string) : list string :=
  filter (λ k, cl !! k = None) order.

(** The combined loader that [main] builds of a split of the data, lines
    151 to 165. *)
Definition combined_loader (site : Site) (data_dir split : string)
    (config : Config) (shuffle : bool) : gmap string Loader :=
  three (build_loader site (data_dir +:+ "/2s/" +:+ split) (batch_size config) shuffle)
        (build_loader site (data_dir +:+ "/3s/" +:+ split) (batch_size config) shuffle)
        (build_loader site (data_dir +:+ "/4s/" +:+ split) (batch_size config) shuffle).

(** The scores that the forward passes returned, in order. *)
Definition fwd_preds (evs : list Event) : list (list Scores) :=
  omap (λ e, if e is EForward _ _ pred then Some pred else None) evs.

(** Two worlds in the same state whose traces hold the same calls. *)
Definition same_run (w1 w2 : World) : Prop :=
  same_state w1 w2 ∧ framework_calls (events w1) = framework_calls (events w2).

(** Two computations that, started in two such worlds, end alike and in two
    such worlds again. *)
Definition alike {A} (m1 m2 : M A) : Prop :=
  ∀ w1 w2, same_run w1 w2 → (m1 w1).1 = (m2 w2).1 ∧ same_run (m1 w1).2 (m2 w2).2.

End Embedding.

(** ** A small concrete framework

    Rational scalars, and a one-parameter network over natural-number
    samples: it scores a sample by the parity of sample plus parameter, it
    counts the batches it has seen while in training mode (a running
    statistic), and its optimiser adds the gradient to the parameter. *)

Module Toy.

Definition scalar : Scalar := {|
  F := Q;
  of_Z := inject_Z;
  fadd x y := Qred (x + y);
  fsub x y := Qred (x - y);
  fmul x y := Qred (x * y);
  fdiv x y := Qred (x / y);
  fgt x y := negb (Qle_bool x y);
|}.

Record toy_net := mkNet {
  theta : nat;
  seen : nat;
  grad : nat;
  training : bool;
}.

Definition misses (pred y : list nat) : nat :=
  length (filter (λ py, py.1 ≠ py.2) (zip pred y)).

Definition framework : @Framework scalar := {|
  Sample := nat;
  Scores := nat;
  Net := toy_net;
  Optimizer := nat;
  Snapshot := nat * nat;
  argmax s := s;
  set_training b m := mkNet (theta m) (seen m) (grad m) b;
  forward g m X :=
    ((λ x, (x + theta m) `mod` 2) <$> X,
     if training m then mkNet (theta m) (S (seen m)) (grad m) true else m);
  zero_grad m := mkNet (theta m) (seen m) 0 (training m);
  backward m X pred y := mkNet (theta m) (seen m) (grad m + misses pred y) (training m);
  opt_step o m := (S o, mkNet (theta m + grad m) (seen m) (grad m) (training m));
  state_dict m := (theta m, seen m);
  load_state_dict sd m := mkNet sd.1 sd.2 (grad m) (training m);
  cross_entropy_loss pred y := (inject_Z (Z.of_nat (misses pred y)) : @F scalar);
  new_adam m lr := 0;
|}.

Definition loader (bs : list (list nat * list nat)) : @Loader scalar framework :=
  @mkLoader scalar framework bs (sum_list ((λ b, length b.1) <$> bs)).

Definition world : @World scalar framework :=
  @mkWorld scalar framework
    (mkNet 0 0 0 false) 0 true (λ i, 7 * i + 3) 0
    (λ i, inject_Z (Z.of_nat i)) 0 ∅ [].

(** Three buckets of two, one and three batches, and a fourth one. *)
Definition l2 : @Loader scalar framework := loader [([1; 2], [0; 0]); ([3], [1])].
Definition l3 : @Loader scalar framework := loader [([4; 5], [0; 1])].
Definition l4 : @Loader scalar framework :=
  loader [([6; 7], [0; 1]); ([8; 9], [1; 1]); ([10], [0])].
Definition l5 : @Loader scalar framework := loader [([11], [1]); ([12], [0])].

Definition cl : gmap string (@Loader scalar framework) := three l2 l3 l4.
Definition cl_extra : gmap string (@Loader scalar framework) := <["5s" := l5]> cl.

(** One bucket with batches of three, three and one samples. *)
Definition uneven : gmap string (@Loader scalar framework) :=
  three (loader [([1; 2; 3], [1; 0; 1]); ([4; 5; 6], [0; 0; 0]); ([7], [1])])
        (loader []) (loader []).

(** A world in which the snapshot file [exp/run1/saved.pth] exists. *)
Definition world_with_file : @World scalar framework :=
  @mkWorld scalar framework
    (mkNet 0 0 0 false) 0 true (λ i, 7 * i + 3) 0
    (λ i, inject_Z (Z.of_nat i)) 0 {["exp/run1/saved.pth" := (5, 0)]} [].

(** Three buckets without a batch, and a combined loader without the
    bucket [3s]. *)
Definition empty : gmap string (@Loader scalar framework) :=
  three (loader []) (loader []) (loader []).
Definition lacking : gmap string (@Loader scalar framework) :=
  <["2s" := l2]> {["4s" := l4]}.

Definition site : @Site scalar framework :=
  @mkSite scalar framework string
    (λ _, @mkConfig scalar 2 "resnet" (1 # 1000)%Q 2)
    (λ pos neg, pos)
    (λ d bs shuffle, loader [([1; 2], [1; 0]); ([3], [1])])
    (λ _, mkNet 1 0 0 true)
    (λ _, mkNet 2 0 0 true)
    (λ _, mkNet 3 0 0 true)
    (λ _, mkNet 4 0 0 true).

(** A site whose configuration asks for a model kind that [main] does not
    know. *)
Definition other_site : @Site scalar framework :=
  @mkSite scalar framework string
    (λ _, @mkConfig scalar 2 "lstm" (1 # 1000)%Q 2)
    (λ pos neg, pos)
    (λ d bs shuffle, loader [([1; 2], [1; 0]); ([3], [1])])
    (λ _, mkNet 1 0 0 true)
    (λ _, mkNet 2 0 0 true)
    (λ _, mkNet 3 0 0 true)
    (λ _, mkNet 4 0 0 true).

End Toy.

(** * The networks of [nets]: [resnet.py] and [tcn_bot.py]

    The constructors of the networks build a tree of torch modules.  The
    tree is data here: every torch layer is kept with the arguments that
    the constructor gives it, the defaults of torch written out where the
    source leaves them ([stride=1], [padding=0], [dilation=1]).  The
    fields of a configuration [c] carry the prefix [c_].  An index outside
    a list of the configuration, an [IndexError], is [None]. *)

Module resnet.

Inductive Layer :=
| Conv1d (in_channels out_channels kernel_size stride padding : Z) (bias : bool)
| BatchNorm1d (num_features : Z)
| ReLU
| MaxPool1d (kernel_size stride padding : Z)
| AdaptiveAvgPool1d (output_size : Z)
| Flatten (start_dim : Z)
| Linear (in_features out_features : Z).

(** A [ResidualBlock] as the constructor of its subclass leaves it;
    [blocks] and [shortcut] are the layers of the two [nn.Sequential]. *)
Record ResidualBlock := mkResidualBlock {
  in_channels : Z;
  out_channels : Z;
  stride : Z;
  blocks : list (list Layer);
  shortcut : list Layer;
}.

(** [ResidualBlock.conv_block], lines 26 to 37 *)
Definition conv_block (in_channels out_channels kernel_size : Z) (last : bool)
    (stride padding : Z) (bias : bool) : list Layer :=
  let layers := [Conv1d in_channels out_channels kernel_size stride padding bias;
                 BatchNorm1d out_channels] in
  if bool_decide (last = false) then layers ++ [ReLU] else layers.

(** The shortcut of [ResidualBlock.__init__], lines 21 to 24 *)
Definition make_shortcut (in_channels out_channels stride : Z) : list Layer :=
  [Conv1d in_channels out_channels 1 stride 0 false; BatchNorm1d out_channels].

(** [BasicBlock(in_channels, out_channels, stride)], lines 50 to 57 *)
Definition BasicBlock (in_channels out_channels stride : Z) : ResidualBlock :=
  mkResidualBlock in_channels out_channels stride
    [conv_block in_channels out_channels 3 false stride 1 false;
     conv_block out_channels out_channels 3 true 1 1 false]
    (make_shortcut in_channels out_channels stride).

(** [BottleneckBlock(in_channels, out_channels, stride=stride)], lines 60
    to 70, with [reduction=4] *)
Definition BottleneckBlock (in_channels out_channels stride : Z) : ResidualBlock :=
  let reduction := 4%Z in
  let channels := (out_channels / reduction)%Z in
  mkResidualBlock in_channels out_channels stride
    [conv_block in_channels channels 1 false 1 0 false;
     conv_block channels channels 3 false stride 1 false;
     conv_block channels out_channels 1 true 1 0 false]
    (make_shortcut in_channels out_channels stride).

(** Lines 45 to 47 *)
Definition should_apply_shortcut (b : ResidualBlock) : bool :=
  bool_decide (in_channels b ≠ out_channels b) || bool_decide (stride b ≠ 1%Z).

(** The fields of the configuration that [ResNet] reads. *)
Record Config := mkConfig {
  c_channels : list Z;
  c_kernel : Z;
  c_padding : Z;
  c_stride : Z;
  c_block : string;
  c_n_layers : Z;
  c_blocks : list Z;
  c_n_classes : Z;
}.

(** [ResNet._make_layer], lines 112 to 123: the blocks of the layer, and
    [self.in_channels] after the call *)
Definition _make_layer (block : Z → Z → Z → ResidualBlock)
    (out_channels n_blocks stride : Z) (self_in_channels : Z)
  : list ResidualBlock * Z :=
  let blocks := [block self_in_channels out_channels stride] in
  let self_in_channels := out_channels in
  let blocks :=
    foldl (λ blocks _, blocks ++ [block self_in_channels out_channels 1%Z])
          blocks (py_range 1 n_blocks) in
  (blocks, self_in_channels).

(** A [ResNet] after its constructor: [stem] is [self.conv_block]. *)
Record ResNet := mkResNet {
  stem : list Layer;
  layers : list (list ResidualBlock);
  decoder : list Layer;
}.

(** The body of [for i in range(c.n_layers)], lines 89 to 91; the state is
    [(layers, self.in_channels)]. *)
Definition add_layer (c : Config) (block : Z → Z → Z → ResidualBlock)
    (st : list (list ResidualBlock) * Z) (i : nat)
  : option (list (list ResidualBlock) * Z) :=
  let '(layers, self_in_channels) := st in
  let stride := if decide (i = 0) then 1%Z else 2%Z in
  out_channels ← c_channels c !! i;
  n_blocks ← c_blocks c !! i;
  let '(layer, self_in_channels) :=
    _make_layer block out_channels n_blocks stride self_in_channels in
  Some (layers ++ [layer], self_in_channels).

(** [ResNet.__init__], lines 74 to 99, without the initial values of the
    weights *)
Definition ResNet_init (c : Config) : option ResNet :=
  self_in_channels ← c_channels c !! 0;
  let conv_block :=
    [Conv1d 1 self_in_channels (c_kernel c) (c_stride c) (c_padding c) true;
     BatchNorm1d self_in_channels; ReLU; MaxPool1d 2 2 1] in
  let block := if decide (c_block c = "bottleneck") then BottleneckBlock
               else BasicBlock in
  st ← foldl (λ st i, st ≫= λ st, add_layer c block st i)
             (Some ([], self_in_channels)) (seq 0 (Z.to_nat (c_n_layers c)));
  last_channels ← last (c_channels c);
  Some (mkResNet conv_block st.1
          [AdaptiveAvgPool1d 1; Flatten 1; Linear last_channels (c_n_classes c)]).

(** The layer that the constructor is to build at index [i]: its first
    block takes the channels of the layer before it. *)
Definition layer_at (c : Config) (block : Z → Z → Z → ResidualBlock) (i : nat)
  : option (list ResidualBlock) :=
  out_channels ← c_channels c !! i;
  n_blocks ← c_blocks c !! i;
  before ← c_channels c !! (i - 1);
  Some (_make_layer block out_channels n_blocks
          (if decide (i = 0) then 1%Z else 2%Z) before).1.

End resnet.

Module tcn_bot.
Section tcn_bot.
Context `{Scalar}.

Inductive Layer :=
| Conv1d (in_channels out_channels kernel_size stride padding dilation : Z)
| weight_norm (conv : Layer)
| Chomp1d (chomp_size : Z)
| ReLU
| Dropout (p : F)
| Linear (in_features out_features : Z).

(** [Chomp1d.forward], line 15: [x[:, :, :-self.chomp_size]] on a tensor of
    three axes; [slice_to l stop] is [l[:stop]]. *)
Definition slice_to {A} (l : list A) (stop : Z) : list A :=
  take (Z.to_nat (if decide (stop < 0)%Z then (Z.of_nat (length l) + stop)%Z else stop)) l.

Definition Chomp1d_forward {A} (chomp_size : Z) (x : list (list (list A)))
  : list (list (list A)) :=
  (λ sample : list (list A),
     (λ channel : list A, slice_to channel (- chomp_size)%Z) <$> sample) <$> x.

Record TemporalBlock := mkTemporalBlock {
  in_channels : Z;
  out_channels : Z;
  channels : Z;
  blocks : list (list Layer);
  shortcut : Layer;
}.

(** [TemporalBlock.conv_block], lines 41 to 48 *)
Definition conv_block (in_channels out_channels kernel dilation padding : Z)
    (dropout : F) (chomp : bool) : list Layer :=
  let layers :=
    [weight_norm (Conv1d in_channels out_channels kernel 1 padding dilation)] in
  let layers := if chomp then layers ++ [Chomp1d padding] else layers in
  let layers := layers ++ [ReLU] in
  layers ++ [Dropout dropout].

(** [TemporalBlock.__init__], lines 18 to 36, with [reduction=4] *)
Definition TemporalBlock_init (in_channels out_channels kernel dilation padding : Z)
    (dropout : F) : TemporalBlock :=
  let reduction := 4%Z in
  let channels := (out_channels / reduction)%Z in
  mkTemporalBlock in_channels out_channels channels
    [conv_block in_channels channels 1 1 0 (of_Z 0) false;
     conv_block channels channels kernel dilation padding dropout true;
     conv_block channels channels kernel dilation padding dropout true;
     conv_block channels out_channels 1 1 0 (of_Z 0) false]
    (Conv1d in_channels out_channels 1 1 0 1).

(** Lines 61 to 63 *)
Definition should_apply_shortcut (b : TemporalBlock) : bool :=
  bool_decide (in_channels b ≠ out_channels b).

(** The fields of the configuration that [TCNBot] reads. *)
Record Config := mkConfig {
  c_n_layers : Z;
  c_in_channels : Z;
  c_n_filters : Z;
  c_kernel : Z;
  c_dropout : F;
  c_n_classes : Z;
}.

(** [TCNBot.get_receptive_field], lines 95 to 96; [sum] adds from the left
    to [0]. *)
Definition get_receptive_field (kernel n_layers : Z) : Z :=
  (1 + 2 * foldl Z.add 0 ((λ i, 2 ^ i * (kernel - 1)) <$> py_range 0 n_layers))%Z.

Record TCNBot := mkTCNBot {
  layers : list TemporalBlock;
  linear : Layer;
}.

(** The body of [for i in range(c.n_layers)], lines 73 to 81 *)
Definition add_layer (c : Config) (layers : list TemporalBlock) (i : Z)
  : list TemporalBlock :=
  let dilation := (2 ^ i)%Z in
  let in_channels := if decide (i = 0%Z) then c_in_channels c else c_n_filters c in
  let out_channels := c_n_filters c in
  layers ++ [TemporalBlock_init in_channels out_channels (c_kernel c) dilation
               ((c_kernel c - 1) * dilation)%Z (c_dropout c)].

(** [TCNBot.__init__], lines 67 to 87 *)
Definition TCNBot_init (c : Config) : TCNBot :=
  let layers := foldl (add_layer c) [] (py_range 0 (c_n_layers c)) in
  mkTCNBot layers (Linear (c_n_filters c) (c_n_classes c)).

(** The chomp sizes of the layers of a block, of a network. *)
Definition chomps (ls : list Layer) : list Z :=
  omap (λ l, if l is Chomp1d chomp_size then Some chomp_size else None) ls.

Definition block_chomps (b : TemporalBlock) : list Z := chomps (concat (blocks b)).

Definition all_chomps (net : TCNBot) : list Z := layers net ≫= block_chomps.

End tcn_bot.
End tcn_bot.

(** * Properties

    ** The loops, step by step *)

Section Loop.
Context `{Fw : Framework}.
Implicit Types (w : World) (cl : gmap string Loader) (rs : list Processed).
Implicit Types (b : Batch) (loss_fn : LossFn) (order : list string).

Lemma set_rng_pos_id w : set_rng_pos (rng_pos w) w = w.
Proof. by destruct w. Qed.

Lemma random_shuffle_loop {A} (n : nat) (x : list A) w :
  for_each (rev (seq 1 n))
           (λ i x, bind (randbelow (i + 1)) (λ j, ret (swap x i j))) x w
  = (Ok (shuffle_with n (draws (entropy w) (rng_pos w) n) x),
     set_rng_pos (rng_pos w + n) w).
Proof.
  revert x w. induction n as [|n IH]; intros x w.
  - simpl. unfold ret. by rewrite Nat.add_0_r, set_rng_pos_id.
  - rewrite seq_S, rev_app_distr. simpl.
    unfold bind at 1. unfold bind at 1. unfold randbelow at 1. unfold ret at 1.
    rewrite IH. destruct w; unfold set_rng_pos; simpl.
    replace (n + 1 + 1) with (S (n + 1)) by lia.
    replace (n + 1) with (S n) by lia.
    f_equal. f_equal. lia.
Qed.

Lemma random_shuffle_spec {A} (x : list A) w :
  random_shuffle x w
  = (Ok (shuffled (entropy w) (rng_pos w) x),
     set_rng_pos (rng_pos w + (length x - 1)) w).
Proof. apply random_shuffle_loop. Qed.

Lemma swap_Permutation {A} (x : list A) i j : swap x i j ≡ₚ x.
Proof.
  unfold swap. destruct (x !! i) as [xi|] eqn:Hi; [|done].
  destruct (x !! j) as [xj|] eqn:Hj; [|done].
  by apply Permutation_insert_swap.
Qed.

Lemma shuffle_with_Permutation {A} i js (x : list A) : shuffle_with i js x ≡ₚ x.
Proof.
  revert js x. induction i as [|i IH]; intros [|j js] x; simpl; try done.
  by rewrite IH, swap_Permutation.
Qed.

Lemma shuffled_Permutation {A} e p (x : list A) : shuffled e p x ≡ₚ x.
Proof. apply shuffle_with_Permutation. Qed.


Lemma framed_refl w : framed w w.
Proof. by repeat split. Qed.

Lemma framed_trans w1 w2 w3 : framed w1 w2 → framed w2 w3 → framed w1 w3.
Proof. unfold framed. intros (?&?&?&?&?&?) (?&?&?&?&?&?). repeat split; congruence. Qed.

Lemma train_bucket_absent cb (loss_fn : LossFn) n_samples epoch log_freq k st w :
  cb !! k = Some None →
  train_bucket cb loss_fn n_samples epoch log_freq k st w = (Ok st, w).
Proof.
  intros Hk. destruct st as [tl bn]. unfold train_bucket, bind, getitem.
  by rewrite Hk.
Qed.

Lemma train_bucket_present cb (loss_fn : LossFn) n_samples epoch log_freq k (b : Batch) tl bn w :
  cb !! k = Some (Some b) →
  log_freq ≠ 0%Z →
  ∃ pred w',
    train_bucket cb loss_fn n_samples epoch log_freq k (tl, bn) w
    = (Ok (fadd tl (loss_fn pred b.2), bn + 1), w') ∧
    events w' = events w ++
      train_batch_events (grad_enabled w) n_samples epoch log_freq tl bn
                         (b, pred, loss_fn pred b.2) ∧
    framed w w'.
Proof.
  intros Hk Hlf. destruct b as [X y].
  unfold train_bucket. cbn beta iota. unfold bind, getitem. rewrite Hk. simpl.
  unfold call_model. destruct (forward (grad_enabled w) (net w) X) as [pred m] eqn:Hf.
  exists pred. unfold call_loss, optimizer_zero_grad, loss_backward, optimizer_step, act.
  simpl. destruct (opt_step _ _) as [o m'] eqn:Ho.
  unfold train_batch_events, logs_at.
  destruct (decide (bn ≠ 0)) as [Hbn|Hbn].
  - unfold divides. destruct (decide (log_freq = 0%Z)) as [|_]; [done|].
    unfold ret. case_bool_decide as Hmod.
    + rewrite bool_decide_eq_true_2 by done.
      unfold pydiv. destruct bn as [|bn']; [done|].
      unfold ret, add_scalar, act. eexists. split; [reflexivity|].
      split; [|by repeat split]. simpl. by rewrite <-!app_assoc.
    + rewrite bool_decide_eq_false_2 by tauto.
      eexists. split; [reflexivity|]. split; [|by repeat split].
      simpl. by rewrite <-!app_assoc.
  - rewrite bool_decide_eq_false_2 by tauto.
    unfold ret. eexists. split; [reflexivity|]. split; [|by repeat split].
    simpl. by rewrite <-!app_assoc.
Qed.


Lemma train_trace_app g n_samples epoch log_freq tl bn rs1 rs2 :
  train_trace g n_samples epoch log_freq tl bn (rs1 ++ rs2)
  = train_trace g n_samples epoch log_freq tl bn rs1 ++
    train_trace g n_samples epoch log_freq
                (fsum tl rs1.*2) (bn + length rs1) rs2.
Proof.
  revert tl bn. induction rs1 as [|r rs1 IH]; intros tl bn; simpl.
  - by rewrite Nat.add_0_r.
  - rewrite IH, <-app_assoc. do 3 f_equal. lia.
Qed.

Lemma train_buckets cl i loss_fn n_samples epoch log_freq order tl bn w :
  (∀ k, k ∈ order → is_Some (cl !! k)) →
  log_freq ≠ 0%Z →
  ∃ rs w',
    for_each order
      (train_bucket (combined_batches_at cl i) loss_fn n_samples epoch log_freq)
      (tl, bn) w
    = (Ok (fsum tl rs.*2, bn + length rs), w') ∧
    batch_of <$> rs = omap (delivered cl i) order ∧
    Forall (loss_of loss_fn) rs ∧
    events w' = events w ++
      train_trace (grad_enabled w) n_samples epoch log_freq tl bn rs ∧
    framed w w'.
Proof.
  intros Hkeys Hlf. revert tl bn w.
  induction order as [|k order IH]; intros tl bn w.
  - exists [], w. simpl. rewrite Nat.add_0_r, app_nil_r.
    by repeat split.
  - destruct (Hkeys k) as [l Hl]; [by left|].
    assert (Hcb : combined_batches_at cl i !! k = Some (batches l !! i)).
    { unfold combined_batches_at. by rewrite lookup_fmap, Hl. }
    assert (Hd : delivered cl i k = batches l !! i).
    { unfold delivered. by rewrite Hl. }
    assert (Hom : omap (delivered cl i) (k :: order)
                  = match delivered cl i k with
                    | Some b => b :: omap (delivered cl i) order
                    | None => omap (delivered cl i) order
                    end) by done.
    rewrite Hom, Hd. clear Hom. cbn [for_each]. unfold bind at 1.
    destruct (batches l !! i) as [b|] eqn:Hb.
    + destruct (train_bucket_present _ loss_fn n_samples epoch log_freq k b tl bn w
                  Hcb Hlf) as (pred & w1 & -> & Hev1 & Hfr1).
      destruct (IH (λ k' Hk', Hkeys k' (list_elem_of_further _ _ _ Hk'))
                  (fadd tl (loss_fn pred b.2)) (bn + 1) w1)
        as (rs & w' & -> & Hbs & Hloss & Hev & Hfr).
      exists ((b, pred, loss_fn pred b.2) :: rs), w'. simpl.
      split; [do 3 f_equal; lia|]. split; [by rewrite <-Hbs|].
      split; [by constructor|]. split; [|by eapply framed_trans].
      rewrite Hev, Hev1, <-app_assoc. do 2 f_equal.
      destruct Hfr1 as (_&_&->&_). done.
    + rewrite (train_bucket_absent _ _ _ _ _ _ _ _ Hcb).
      apply IH. intros k' Hk'. apply Hkeys. by right.
Qed.


Lemma fsum_app (x : F) (xs ys : list F) : fsum x (xs ++ ys) = fsum (fsum x xs) ys.
Proof. apply foldl_app. Qed.

Lemma train_steps cl loss_fn n_samples epoch log_freq n :
  log_freq ≠ 0%Z →
  ∀ a tl bn order w,
    (∀ k, k ∈ order → is_Some (cl !! k)) →
    ∃ rs w' order',
      for_each (combined_batches_at cl <$> seq a n)
        (train_step loss_fn n_samples epoch log_freq) (tl, order, bn) w
      = (Ok (fsum tl rs.*2, order', bn + length rs), w') ∧
      batch_of <$> rs
      = visited cl a (train_orders (entropy w) (rng_pos w) order n) ∧
      Forall (loss_of loss_fn) rs ∧
      events w' = events w ++
        train_trace (grad_enabled w) n_samples epoch log_freq tl bn rs ∧
      rng_pos w' = rng_pos w + n * (length order - 1) ∧
      entropy w' = entropy w ∧ grad_enabled w' = grad_enabled w ∧
      clock w' = clock w ∧ ticks w' = ticks w ∧ files w' = files w.
Proof.
  intros Hlf. induction n as [|n IH]; intros a tl bn order w Hkeys.
  - exists [], w, order. simpl. rewrite Nat.add_0_r, app_nil_r.
    by repeat split.
  - cbn [seq fmap list_fmap for_each train_orders visited].
    unfold train_step at 1. unfold bind at 1. unfold bind at 1.
    rewrite random_shuffle_spec.
    set (order1 := shuffled (entropy w) (rng_pos w) order).
    set (w1 := set_rng_pos (rng_pos w + (length order - 1)) w).
    assert (Hperm : order1 ≡ₚ order) by apply shuffled_Permutation.
    assert (Hkeys1 : ∀ k, k ∈ order1 → is_Some (cl !! k)).
    { intros k Hk. apply Hkeys. by rewrite <-Hperm. }
    destruct (train_buckets cl a loss_fn n_samples epoch log_freq order1 tl bn w1
                Hkeys1 Hlf) as (rs1 & w2 & Hrun1 & Hbs1 & Hloss1 & Hev1 & Hfr1).
    unfold bind at 1. rewrite Hrun1. unfold ret at 1.
    destruct (IH (S a) (fsum tl rs1.*2) (bn + length rs1) order1 w2 Hkeys1)
      as (rs2 & w' & order' & Hrun2 & Hbs2 & Hloss2 & Hev2 & Hrng & He & Hg & Hc & Ht & Hf).
    destruct Hfr1 as (He1 & Hr1 & Hg1 & Hc1 & Ht1 & Hf1).
    exists (rs1 ++ rs2), w', order'.
    change (list_fmap _ _ (combined_batches_at cl) (seq (S a) n))
      with (combined_batches_at cl <$> seq (S a) n).
    rewrite Hrun2. rewrite fmap_app, fsum_app, length_app, Nat.add_assoc.
    split; [done|]. rewrite fmap_app, Hbs1, Hbs2, He1, Hr1.
    split; [done|]. split; [by apply Forall_app|].
    rewrite Hev2, Hev1, train_trace_app, <-app_assoc, Hg1.
    split; [done|]. rewrite Hrng, He, Hg, Hc, Ht, Hf, Hr1, He1, Hg1, Hc1, Ht1, Hf1.
    rewrite (Permutation_length Hperm).
    repeat split; try done. simpl. lia.
Qed.


Lemma train_run cl loss_fn epoch log_freq w :
  log_freq ≠ 0%Z →
  (∀ k, k ∈ hardcoded → is_Some (cl !! k)) →
  ∃ rs w',
    train cl loss_fn epoch log_freq w
    = pydiv (fsum (of_Z 0) rs.*2) (count_batches_in_combined_loader cl) w' ∧
    batch_of <$> rs
    = visited cl 0 (train_orders (entropy w) (rng_pos w) hardcoded (n_steps cl)) ∧
    Forall (loss_of loss_fn) rs ∧
    events w' = events w ++
      train_trace (grad_enabled w) (count_samples_in_combined_loader cl)
                  epoch log_freq (of_Z 0) 0 rs ∧
    rng_pos w' = rng_pos w + 2 * n_steps cl.
Proof.
  intros Hlf Hkeys. unfold train, bind, model_train, act.
  destruct (train_steps cl loss_fn (count_samples_in_combined_loader cl) epoch
              log_freq (n_steps cl) Hlf 0 (of_Z 0) 0 hardcoded
              (set_net (set_training true (net w)) w) Hkeys)
    as (rs & w' & order' & Hrun & Hbs & Hloss & Hev & Hrng & _).
  unfold steps. unfold hardcoded in Hrun. rewrite Hrun.
  exists rs, w'. split; [done|]. split; [done|]. split; [done|].
  split; [done|]. rewrite Hrng. simpl. lia.
Qed.

Lemma validate_bucket_absent cb loss_fn k st w :
  cb !! k = Some None →
  validate_bucket cb loss_fn k st w = (Ok st, w).
Proof.
  intros Hk. destruct st as [tl nc]. unfold validate_bucket, bind, getitem.
  by rewrite Hk.
Qed.

Lemma validate_bucket_present cb loss_fn k (b : Batch) tl nc w :
  cb !! k = Some (Some b) →
  ∃ pred w',
    validate_bucket cb loss_fn k (tl, nc) w
    = (Ok (fadd tl (loss_fn pred b.2),
           fadd nc (correct_of (b, pred, loss_fn pred b.2))), w') ∧
    events w' = events w ++
      [EForward (grad_enabled w) b.1 pred; ELoss pred b.2 (loss_fn pred b.2)] ∧
    framed w w'.
Proof.
  intros Hk. destruct b as [X y].
  unfold validate_bucket. cbn beta iota. unfold bind, getitem. rewrite Hk. simpl.
  unfold call_model. destruct (forward (grad_enabled w) (net w) X) as [pred m] eqn:Hf.
  exists pred. unfold call_loss, ret. eexists. split; [reflexivity|].
  split; [|by repeat split]. simpl. by rewrite <-app_assoc.
Qed.

Lemma validate_buckets cl i loss_fn order tl nc w :
  (∀ k, k ∈ order → is_Some (cl !! k)) →
  grad_enabled w = false →
  ∃ rs w',
    for_each order (validate_bucket (combined_batches_at cl i) loss_fn) (tl, nc) w
    = (Ok (fsum tl rs.*2, fsum nc (correct_of <$> rs)), w') ∧
    batch_of <$> rs = omap (delivered cl i) order ∧
    Forall (loss_of loss_fn) rs ∧
    events w' = events w ++ validate_trace rs ∧
    framed w w'.
Proof.
  intros Hkeys. revert tl nc w.
  induction order as [|k order IH]; intros tl nc w Hg.
  - exists [], w. simpl. rewrite app_nil_r. by repeat split.
  - destruct (Hkeys k) as [l Hl]; [by left|].
    assert (Hcb : combined_batches_at cl i !! k = Some (batches l !! i)).
    { unfold combined_batches_at. by rewrite lookup_fmap, Hl. }
    assert (Hd : delivered cl i k = batches l !! i).
    { unfold delivered. by rewrite Hl. }
    assert (Hom : omap (delivered cl i) (k :: order)
                  = match delivered cl i k with
                    | Some b => b :: omap (delivered cl i) order
                    | None => omap (delivered cl i) order
                    end) by done.
    rewrite Hom, Hd. clear Hom. cbn [for_each]. unfold bind at 1.
    destruct (batches l !! i) as [b|] eqn:Hb.
    + destruct (validate_bucket_present _ loss_fn k b tl nc w Hcb)
        as (pred & w1 & -> & Hev1 & Hfr1).
      destruct (IH (λ k' Hk', Hkeys k' (list_elem_of_further _ _ _ Hk'))
                  (fadd tl (loss_fn pred b.2))
                  (fadd nc (correct_of (b, pred, loss_fn pred b.2))) w1)
        as (rs & w' & -> & Hbs & Hloss & Hev & Hfr).
      { destruct Hfr1 as (_&_&->&_). done. }
      exists ((b, pred, loss_fn pred b.2) :: rs), w'. simpl.
      split; [done|]. split; [by rewrite <-Hbs|].
      split; [by constructor|]. split; [|by eapply framed_trans].
      rewrite Hev, Hev1, <-app_assoc, Hg. done.
    + rewrite (validate_bucket_absent _ _ _ _ _ Hcb).
      apply IH; [|done]. intros k' Hk'. apply Hkeys. by right.
Qed.


Lemma validate_trace_app rs1 rs2 :
  validate_trace (rs1 ++ rs2) = validate_trace rs1 ++ validate_trace rs2.
Proof. unfold validate_trace. apply bind_app. Qed.

Lemma validate_steps cl loss_fn n :
  (∀ k, k ∈ hardcoded → is_Some (cl !! k)) →
  ∀ a tl nc w,
    grad_enabled w = false →
    ∃ rs w',
      for_each (combined_batches_at cl <$> seq a n) (validate_step loss_fn) (tl, nc) w
      = (Ok (fsum tl rs.*2, fsum nc (correct_of <$> rs)), w') ∧
      batch_of <$> rs = visited cl a (replicate n hardcoded) ∧
      Forall (loss_of loss_fn) rs ∧
      events w' = events w ++ validate_trace rs ∧
      framed w w'.
Proof.
  intros Hkeys. induction n as [|n IH]; intros a tl nc w Hg.
  - exists [], w. simpl. rewrite app_nil_r. split; [done|].
    repeat split; done.
  - cbn [seq fmap list_fmap for_each replicate visited].
    unfold bind at 1. unfold validate_step at 1.
    destruct (validate_buckets cl a loss_fn hardcoded tl nc w Hkeys Hg)
      as (rs1 & w1 & Hrun1 & Hbs1 & Hloss1 & Hev1 & Hfr1).
    unfold hardcoded in Hrun1. rewrite Hrun1.
    destruct (IH (S a) (fsum tl rs1.*2) (fsum nc (correct_of <$> rs1)) w1)
      as (rs2 & w' & Hrun2 & Hbs2 & Hloss2 & Hev2 & Hfr2).
    { destruct Hfr1 as (_&_&->&_). done. }
    change (list_fmap _ _ (combined_batches_at cl) (seq (S a) n))
      with (combined_batches_at cl <$> seq (S a) n).
    rewrite Hrun2. exists (rs1 ++ rs2), w'.
    rewrite !fmap_app, !fsum_app. split; [done|].
    rewrite Hbs1, Hbs2. split; [done|]. split; [by apply Forall_app|].
    split; [|by eapply framed_trans].
    by rewrite Hev2, Hev1, validate_trace_app, <-app_assoc.
Qed.

Lemma validate_run cl loss_fn w :
  (∀ k, k ∈ hardcoded → is_Some (cl !! k)) →
  ∃ rs w',
    validate cl loss_fn w = validate_result cl rs w' ∧
    batch_of <$> rs = visited cl 0 (replicate (n_steps cl) hardcoded) ∧
    Forall (loss_of loss_fn) rs ∧
    events w' = events w ++ validate_trace rs ∧
    framed w w'.
Proof.
  intros Hkeys. unfold validate, bind at 1, model_eval, act.
  unfold bind at 1. unfold no_grad.
  destruct (validate_steps cl loss_fn (n_steps cl) Hkeys 0 (of_Z 0) (of_Z 0)
              (set_grad_enabled false (set_net (set_training false (net w)) w)))
    as (rs & w' & Hrun & Hbs & Hloss & Hev & Hfr); [done|].
  unfold steps. rewrite Hrun. cbn [grad_enabled set_net].
  exists rs, (set_grad_enabled (grad_enabled w) w').
  split; [done|]. split; [done|]. split; [done|].
  destruct Hfr as (He & Hr & Hg & Hc & Ht & Hf). simpl in *.
  split; [done|]. by repeat split.
Qed.


(** ** Which batches are met *)

Lemma take_drop_step {A} (l : list A) a n :
  take (S n) (drop a l) = option_list (l !! a) ++ take n (drop (S a) l).
Proof.
  destruct (l !! a) as [x|] eqn:Hx.
  - rewrite (drop_S l x a Hx). reflexivity.
  - apply lookup_ge_None in Hx. rewrite !drop_ge by lia.
    by rewrite !take_nil.
Qed.

Lemma visited_Permutation cl (l2 l3 l4 : Loader) orders :
  cl !! "2s" = Some l2 → cl !! "3s" = Some l3 → cl !! "4s" = Some l4 →
  Forall (λ order, order ≡ₚ hardcoded) orders →
  ∀ a,
    visited cl a orders
    ≡ₚ take (length orders) (drop a (batches l2)) ++
       take (length orders) (drop a (batches l3)) ++
       take (length orders) (drop a (batches l4)).
Proof.
  intros H2 H3 H4. induction 1 as [|order orders Hord _ IH]; intros a.
  - done.
  - cbn [visited length]. rewrite IH, Hord, !take_drop_step.
    unfold hardcoded, delivered. cbn [omap list_omap]. rewrite H2, H3, H4. simpl.
    destruct (batches l2 !! a), (batches l3 !! a), (batches l4 !! a); simpl;
      solve_Permutation.
Qed.

Lemma train_orders_length e p order n : length (train_orders e p order n) = n.
Proof. revert p order. induction n as [|n IH]; intros p order; simpl; by rewrite ?IH. Qed.

Lemma train_orders_Permutation e p order n :
  Forall (λ order', order' ≡ₚ order) (train_orders e p order n).
Proof.
  revert p order. induction n as [|n IH]; intros p order; simpl; [done|].
  constructor; [apply shuffled_Permutation|].
  eapply Forall_impl; [apply IH|]. intros o Ho. simpl in Ho.
  by rewrite Ho, shuffled_Permutation.
Qed.

Lemma n_steps_ge cl k (l : Loader) : cl !! k = Some l → loader_len l ≤ n_steps cl.
Proof.
  intros Hk. unfold n_steps, flattened. apply max_list_elem_of_le.
  apply list_elem_of_fmap. exists l. split; [done|].
  apply list_elem_of_fmap. exists (k, l). split; [done|].
  by apply elem_of_map_to_list.
Qed.

(** Every batch of the three hardcoded buckets is met once, and nothing
    else is. *)
Lemma visited_all cl (l2 l3 l4 : Loader) orders :
  cl !! "2s" = Some l2 → cl !! "3s" = Some l3 → cl !! "4s" = Some l4 →
  Forall (λ order, order ≡ₚ hardcoded) orders →
  length orders = n_steps cl →
  visited cl 0 orders ≡ₚ batches l2 ++ batches l3 ++ batches l4.
Proof.
  intros H2 H3 H4 Hord Hlen.
  rewrite (visited_Permutation cl l2 l3 l4 orders H2 H3 H4 Hord 0).
  rewrite !drop_0, Hlen.
  rewrite !take_ge; [done|..]; by eapply n_steps_ge.
Qed.

(** ** The static totals *)

Lemma count_batches_sum cl :
  count_batches_in_combined_loader cl = sum_list_with loader_len (flattened cl).
Proof.
  unfold count_batches_in_combined_loader.
  generalize (flattened cl). intros ls.
  assert (∀ n, foldl (λ n_batches loader, n_batches + loader_len loader) n ls
               = n + sum_list_with loader_len ls) as ->; [|done].
  induction ls as [|l ls IH]; intros n; simpl; [lia|]. rewrite IH. lia.
Qed.

Lemma count_samples_sum cl :
  count_samples_in_combined_loader cl = sum_list_with dataset_len (flattened cl).
Proof.
  unfold count_samples_in_combined_loader.
  generalize (flattened cl). intros ls.
  assert (∀ n, foldl (λ n_samples loader, n_samples + dataset_len loader) n ls
               = n + sum_list_with dataset_len ls) as ->; [|done].
  induction ls as [|l ls IH]; intros n; simpl; [lia|]. rewrite IH. lia.
Qed.

Lemma flattened_delete cl k (l : Loader) :
  cl !! k = Some l → flattened cl ≡ₚ l :: flattened (delete k cl).
Proof.
  intros Hk. unfold flattened.
  by rewrite <-(map_to_list_delete cl k l Hk).
Qed.

Lemma count_batches_delete cl k (l : Loader) :
  cl !! k = Some l →
  count_batches_in_combined_loader cl
  = loader_len l + count_batches_in_combined_loader (delete k cl).
Proof.
  intros Hk. rewrite !count_batches_sum, (flattened_delete cl k l Hk). done.
Qed.

Lemma count_samples_delete cl k (l : Loader) :
  cl !! k = Some l →
  count_samples_in_combined_loader cl
  = dataset_len l + count_samples_in_combined_loader (delete k cl).
Proof.
  intros Hk. rewrite !count_samples_sum, (flattened_delete cl k l Hk). done.
Qed.

Lemma three_lookup (l2 l3 l4 : Loader) :
  three l2 l3 l4 !! "2s" = Some l2 ∧
  three l2 l3 l4 !! "3s" = Some l3 ∧
  three l2 l3 l4 !! "4s" = Some l4.
Proof. unfold three. repeat split; by simplify_map_eq. Qed.

Lemma three_keys (l2 l3 l4 : Loader) k :
  k ∈ hardcoded → is_Some (three l2 l3 l4 !! k).
Proof.
  destruct (three_lookup l2 l3 l4) as (H2 & H3 & H4).
  unfold hardcoded. rewrite !elem_of_cons, elem_of_nil.
  intros [->|[->|[->|[]]]]; eauto.
Qed.

Lemma three_flattened (l2 l3 l4 : Loader) :
  flattened (three l2 l3 l4) ≡ₚ [l2; l3; l4].
Proof.
  unfold flattened, three.
  rewrite map_to_list_insert by by simplify_map_eq.
  rewrite map_to_list_insert by by simplify_map_eq.
  by rewrite map_to_list_singleton.
Qed.

Lemma three_count_batches (l2 l3 l4 : Loader) :
  count_batches_in_combined_loader (three l2 l3 l4)
  = loader_len l2 + loader_len l3 + loader_len l4.
Proof. rewrite count_batches_sum, three_flattened. simpl. lia. Qed.

Lemma three_count_samples (l2 l3 l4 : Loader) :
  count_samples_in_combined_loader (three l2 l3 l4)
  = dataset_len l2 + dataset_len l3 + dataset_len l4.
Proof. rewrite count_samples_sum, three_flattened. simpl. lia. Qed.


(** ** Reading the trace of an epoch *)

Lemma new_events_app w w' evs : events w' = events w ++ evs → new_events w w' = evs.
Proof. intros Hev. unfold new_events. by rewrite Hev, drop_app_length. Qed.

Lemma fwd_inputs_train_trace g n_samples epoch log_freq tl bn rs :
  fwd_inputs (train_trace g n_samples epoch log_freq tl bn rs) = (batch_of <$> rs).*1.
Proof.
  revert tl bn. induction rs as [|[[[X y] pred] v] rs IH]; intros tl bn; [done|].
  cbn [train_trace train_batch_events]. unfold fwd_inputs in *.
  rewrite !omap_app, IH. by destruct (logs_at log_freq bn).
Qed.

Lemma loss_calls_train_trace g n_samples epoch log_freq tl bn rs :
  loss_calls (train_trace g n_samples epoch log_freq tl bn rs)
  = (λ r, (r.1.2, (batch_of r).2, r.2)) <$> rs.
Proof.
  revert tl bn. induction rs as [|[[[X y] pred] v] rs IH]; intros tl bn; [done|].
  cbn [train_trace train_batch_events]. unfold loss_calls in *.
  rewrite !omap_app, IH. by destruct (logs_at log_freq bn).
Qed.



Lemma fwd_modes_train_trace g n_samples epoch log_freq tl bn rs :
  fwd_modes (train_trace g n_samples epoch log_freq tl bn rs) = replicate (length rs) g.
Proof.
  revert tl bn. induction rs as [|[[[X y] pred] v] rs IH]; intros tl bn; [done|].
  cbn [train_trace train_batch_events]. unfold fwd_modes in *.
  rewrite !omap_app, IH. by destruct (logs_at log_freq bn).
Qed.

Lemma optimizer_steps_train_trace g n_samples epoch log_freq tl bn rs :
  optimizer_steps (train_trace g n_samples epoch log_freq tl bn rs) = length rs.
Proof.
  revert tl bn. induction rs as [|[[[X y] pred] v] rs IH]; intros tl bn; [done|].
  cbn [train_trace train_batch_events]. unfold optimizer_steps in *.
  rewrite !omap_app, !length_app, IH. by destruct (logs_at log_freq bn).
Qed.

Lemma zip_fst_snd_batches (bs : list Batch) : zip bs.*1 bs.*2 = bs.
Proof. induction bs as [|[X y] bs IH]; [done|]. simpl. f_equal. apply IH. Qed.

Lemma consumed_train_trace g n_samples epoch log_freq tl bn rs :
  consumed (train_trace g n_samples epoch log_freq tl bn rs) = batch_of <$> rs.
Proof.
  unfold consumed. rewrite fwd_inputs_train_trace, loss_calls_train_trace.
  rewrite <-list_fmap_compose.
  by rewrite <-(zip_fst_snd_batches (batch_of <$> rs)), <-!list_fmap_compose.
Qed.

Lemma loss_values_train_trace g n_samples epoch log_freq tl bn rs :
  loss_values (train_trace g n_samples epoch log_freq tl bn rs) = rs.*2.
Proof.
  unfold loss_values. rewrite loss_calls_train_trace.
  by rewrite <-list_fmap_compose.
Qed.

Lemma validate_trace_cons (r : Processed) rs :
  validate_trace (r :: rs)
  = [EForward false (batch_of r).1 r.1.2; ELoss r.1.2 (batch_of r).2 r.2] ++
    validate_trace rs.
Proof. done. Qed.

Lemma fwd_inputs_validate_trace rs : fwd_inputs (validate_trace rs) = (batch_of <$> rs).*1.
Proof.
  induction rs as [|r rs IH]; [done|]. rewrite validate_trace_cons.
  unfold fwd_inputs in *. rewrite omap_app, IH. by destruct r as [[[X y] pred] v].
Qed.

Lemma loss_calls_validate_trace rs :
  loss_calls (validate_trace rs) = (λ r, (r.1.2, (batch_of r).2, r.2)) <$> rs.
Proof.
  induction rs as [|r rs IH]; [done|]. rewrite validate_trace_cons.
  unfold loss_calls in *. rewrite omap_app, IH. by destruct r as [[[X y] pred] v].
Qed.

Lemma fwd_modes_validate_trace rs : fwd_modes (validate_trace rs) = replicate (length rs) false.
Proof.
  induction rs as [|r rs IH]; [done|]. rewrite validate_trace_cons.
  unfold fwd_modes in *. by rewrite omap_app, IH.
Qed.

Lemma optimizer_steps_validate_trace rs : optimizer_steps (validate_trace rs) = 0.
Proof.
  induction rs as [|r rs IH]; [done|]. rewrite validate_trace_cons.
  unfold optimizer_steps in *. by rewrite omap_app, length_app, IH.
Qed.

Lemma consumed_validate_trace rs : consumed (validate_trace rs) = batch_of <$> rs.
Proof.
  unfold consumed. rewrite fwd_inputs_validate_trace, loss_calls_validate_trace.
  rewrite <-list_fmap_compose.
  by rewrite <-(zip_fst_snd_batches (batch_of <$> rs)), <-!list_fmap_compose.
Qed.




(** * The claims about one epoch *)

(** C1.  For every combined loader built from three sources, under the
    keys [2s], [3s] and [4s] as [main] builds it, and for every state of
    the random generator, a training epoch and a validation epoch each
    give the model exactly the batches of the three sources, each batch
    once: the batches consumed are a rearrangement of the three sources'
    batches, so the number of forward passes is the sum of the three
    static batch counts, which is the total [train] and [validate]
    compute. *)
Theorem C1_each_batch_once (l2 l3 l4 : Loader) loss_fn epoch log_freq w :
  log_freq ≠ 0%Z →
  let cl := three l2 l3 l4 in
  let wt := (train cl loss_fn epoch log_freq w).2 in
  let wv := (validate cl loss_fn w).2 in
  consumed (new_events w wt) ≡ₚ batches l2 ++ batches l3 ++ batches l4 ∧
  length (fwd_inputs (new_events w wt))
  = loader_len l2 + loader_len l3 + loader_len l4 ∧
  consumed (new_events w wv) ≡ₚ batches l2 ++ batches l3 ++ batches l4 ∧
  length (fwd_inputs (new_events w wv))
  = loader_len l2 + loader_len l3 + loader_len l4 ∧
  count_batches_in_combined_loader cl
  = loader_len l2 + loader_len l3 + loader_len l4.
Proof.
  intros Hlf cl wt wv.
  destruct (three_lookup l2 l3 l4) as (H2 & H3 & H4).
  assert (Hall : ∀ rs orders,
            batch_of <$> rs = visited cl 0 orders →
            Forall (λ order, order ≡ₚ hardcoded) orders →
            length orders = n_steps cl →
            batch_of <$> rs ≡ₚ batches l2 ++ batches l3 ++ batches l4 ∧
            length (batch_of <$> rs).*1
            = loader_len l2 + loader_len l3 + loader_len l4).
  { intros rs orders Hbs Hord Hlen.
    assert (Hp := visited_all cl l2 l3 l4 orders H2 H3 H4 Hord Hlen).
    rewrite <-Hbs in Hp. split; [done|].
    rewrite length_fmap, Hp, !length_app. unfold loader_len. lia. }
  destruct (train_run cl loss_fn epoch log_freq w Hlf (three_keys l2 l3 l4))
    as (rs & w' & Hrun & Hbs & _ & Hev & _).
  assert (Hwt : new_events w wt
                = train_trace (grad_enabled w) (count_samples_in_combined_loader cl)
                              epoch log_freq (of_Z 0) 0 rs).
  { apply new_events_app. unfold wt. rewrite Hrun.
    unfold pydiv. by destruct (count_batches_in_combined_loader cl). }
  destruct (validate_run cl loss_fn w (three_keys l2 l3 l4))
    as (rs' & w'' & Hrun' & Hbs' & _ & Hev' & _).
  assert (Hwv : new_events w wv = validate_trace rs').
  { apply new_events_app. unfold wv. rewrite Hrun'.
    unfold validate_result, bind, pydiv.
    destruct (count_batches_in_combined_loader cl); [done|].
    by destruct (count_samples_in_combined_loader cl). }
  rewrite Hwt, Hwv, consumed_train_trace, consumed_validate_trace,
    fwd_inputs_train_trace, fwd_inputs_validate_trace.
  destruct (Hall rs _ Hbs) as [? ?].
  { apply train_orders_Permutation. }
  { apply train_orders_length. }
  destruct (Hall rs' _ Hbs') as [? ?].
  { by apply Forall_replicate. }
  { apply length_replicate. }
  split; [done|]. split; [done|]. split; [done|]. split; [done|].
  apply three_count_batches.
Qed.


Lemma pydiv_nonzero (x : F) n w :
  n ≠ 0 → pydiv x n w = (Ok (fdiv x (of_Z (Z.of_nat n))), w).
Proof. by destruct n. Qed.

Lemma loss_calls_faithful loss_fn rs :
  Forall (loss_of loss_fn) rs →
  Forall (λ c, c.2 = loss_fn c.1.1 c.1.2)
         ((λ r : Processed, (r.1.2, (batch_of r).2, r.2)) <$> rs).
Proof. intros Hrs. apply Forall_fmap. eapply Forall_impl; [done|]. by intros [[[X y] pred] v]. Qed.

(** C3.  For every combined loader that holds the three hardcoded buckets
    and has a batch at all, and every non-zero log interval, [train]
    returns the sum of the losses that the loss function returned during
    the epoch, added in the order of processing to [0.0], divided by the
    static batch total, which is the sum of [len(loader)] over all
    constituent loaders. *)
Theorem C3_train_returns_average cl loss_fn epoch log_freq w :
  (∀ k, k ∈ hardcoded → is_Some (cl !! k)) →
  log_freq ≠ 0%Z →
  count_batches_in_combined_loader cl ≠ 0 →
  ∃ w',
    train cl loss_fn epoch log_freq w
    = (Ok (fdiv (fsum (of_Z 0) (loss_values (new_events w w')))
                (of_Z (Z.of_nat (count_batches_in_combined_loader cl)))), w') ∧
    Forall (λ c, c.2 = loss_fn c.1.1 c.1.2) (loss_calls (new_events w w')) ∧
    count_batches_in_combined_loader cl
    = sum_list_with loader_len (flattened cl).
Proof.
  intros Hkeys Hlf Hn.
  destruct (train_run cl loss_fn epoch log_freq w Hlf Hkeys)
    as (rs & w' & Hrun & _ & Hloss & Hev & _).
  exists w'. rewrite (new_events_app _ _ _ Hev).
  rewrite loss_values_train_trace, loss_calls_train_trace, Hrun.
  split; [by apply pydiv_nonzero|]. split; [by apply loss_calls_faithful|].
  apply count_batches_sum.
Qed.


(** An exhausted loader is delivered as [None]. *)
Lemma exhausted_delivers_none cl k (l : Loader) i :
  cl !! k = Some l → loader_len l ≤ i →
  combined_batches_at cl i !! k = Some None.
Proof.
  intros Hk Hi. unfold combined_batches_at. rewrite lookup_fmap, Hk. simpl.
  f_equal. by apply lookup_ge_None.
Qed.

(** C7.  In a step whose combined batch holds [None] under a bucket, the
    pass of [train] and the pass of [validate] through that bucket return
    their state as it was, the batch counter, the running loss and the
    correct count, and leave the world, trace included, untouched. *)
Theorem C7_absent_bucket_is_skipped (cb : gmap string (option Batch))
    loss_fn n_samples epoch log_freq k (st : F * nat) (sv : F * F) w :
  cb !! k = Some None →
  train_bucket cb loss_fn n_samples epoch log_freq k st w = (Ok st, w) ∧
  validate_bucket cb loss_fn k sv w = (Ok sv, w).
Proof.
  intros Hk. split.
  - by apply train_bucket_absent.
  - by apply validate_bucket_absent.
Qed.


Lemma train_world cl loss_fn epoch log_freq w :
  log_freq ≠ 0%Z →
  (∀ k, k ∈ hardcoded → is_Some (cl !! k)) →
  ∃ rs,
    batch_of <$> rs
    = visited cl 0 (train_orders (entropy w) (rng_pos w) hardcoded (n_steps cl)) ∧
    new_events w (train cl loss_fn epoch log_freq w).2
    = train_trace (grad_enabled w) (count_samples_in_combined_loader cl)
                  epoch log_freq (of_Z 0) 0 rs ∧
    rng_pos (train cl loss_fn epoch log_freq w).2 = rng_pos w + 2 * n_steps cl.
Proof.
  intros Hlf Hkeys.
  destruct (train_run cl loss_fn epoch log_freq w Hlf Hkeys)
    as (rs & w' & Hrun & Hbs & _ & Hev & Hrng).
  exists rs. rewrite Hrun.
  assert ((pydiv (fsum (of_Z 0) rs.*2) (count_batches_in_combined_loader cl) w').2 = w')
    as ->.
  { unfold pydiv. by destruct (count_batches_in_combined_loader cl). }
  split; [done|]. split; [by apply new_events_app|done].
Qed.

Lemma validate_world cl loss_fn w :
  (∀ k, k ∈ hardcoded → is_Some (cl !! k)) →
  ∃ rs,
    batch_of <$> rs = visited cl 0 (replicate (n_steps cl) hardcoded) ∧
    new_events w (validate cl loss_fn w).2 = validate_trace rs ∧
    rng_pos (validate cl loss_fn w).2 = rng_pos w.
Proof.
  intros Hkeys.
  destruct (validate_run cl loss_fn w Hkeys)
    as (rs & w' & Hrun & Hbs & _ & Hev & Hfr).
  exists rs. rewrite Hrun.
  assert ((validate_result cl rs w').2 = w') as ->.
  { unfold validate_result, bind, pydiv.
    destruct (count_batches_in_combined_loader cl); [done|].
    by destruct (count_samples_in_combined_loader cl). }
  split; [done|]. split; [by apply new_events_app|].
  by destruct Hfr as (_ & -> & _).
Qed.



(** C9.  For every combined loader that holds the three hardcoded buckets,
    whatever else it holds, a training epoch and a validation epoch give
    the model the batches of these three buckets and no other batch, while
    the static batch and sample totals also count the loaders under every
    other identifier. *)
Theorem C9_only_hardcoded_buckets cl (l2 l3 l4 : Loader) loss_fn epoch log_freq w :
  cl !! "2s" = Some l2 → cl !! "3s" = Some l3 → cl !! "4s" = Some l4 →
  log_freq ≠ 0%Z →
  let others := delete "2s" (delete "3s" (delete "4s" cl)) in
  consumed (new_events w (train cl loss_fn epoch log_freq w).2)
  ≡ₚ batches l2 ++ batches l3 ++ batches l4 ∧
  consumed (new_events w (validate cl loss_fn w).2)
  ≡ₚ batches l2 ++ batches l3 ++ batches l4 ∧
  count_batches_in_combined_loader cl
  = loader_len l2 + loader_len l3 + loader_len l4 +
    count_batches_in_combined_loader others ∧
  count_samples_in_combined_loader cl
  = dataset_len l2 + dataset_len l3 + dataset_len l4 +
    count_samples_in_combined_loader others.
Proof.
  intros H2 H3 H4 Hlf others.
  assert (Hkeys : ∀ k, k ∈ hardcoded → is_Some (cl !! k)).
  { unfold hardcoded. intros k. rewrite !elem_of_cons, elem_of_nil.
    intros [->|[->|[->|[]]]]; eauto. }
  destruct (train_world cl loss_fn epoch log_freq w Hlf Hkeys) as (rs & Hbs & -> & _).
  destruct (validate_world cl loss_fn w Hkeys) as (rs' & Hbs' & -> & _).
  rewrite consumed_train_trace, consumed_validate_trace, Hbs, Hbs'.
  split.
  { apply visited_all; try done.
    - apply train_orders_Permutation.
    - apply train_orders_length. }
  split.
  { apply visited_all; try done.
    - by apply Forall_replicate.
    - apply length_replicate. }
  assert (H3' : delete "4s" cl !! "3s" = Some l3) by by simplify_map_eq.
  assert (H2' : delete "3s" (delete "4s" cl) !! "2s" = Some l2) by by simplify_map_eq.
  split.
  - rewrite (count_batches_delete cl "4s" l4 H4),
      (count_batches_delete _ "3s" l3 H3'), (count_batches_delete _ "2s" l2 H2').
    unfold others. lia.
  - rewrite (count_samples_delete cl "4s" l4 H4),
      (count_samples_delete _ "3s" l3 H3'), (count_samples_delete _ "2s" l2 H2').
    unfold others. lia.
Qed.


(** ** The shuffle *)

Lemma hardcoded_orders order :
  order ≡ₚ hardcoded →
  order ∈ [["2s"; "3s"; "4s"]; ["3s"; "2s"; "4s"]; ["3s"; "4s"; "2s"];
           ["2s"; "4s"; "3s"]; ["4s"; "2s"; "3s"]; ["4s"; "3s"; "2s"]].
Proof.
  intros Hp. symmetry in Hp. apply permutations_Permutation in Hp. exact Hp.
Qed.

Lemma draws_two e p : draws e p 2 ∈ all_draws.
Proof.
  cbn [draws]. change (2 + 1) with 3. change (1 + 1) with 2.
  assert (H3 := Nat.mod_upper_bound (e p) 3).
  assert (H2 := Nat.mod_upper_bound (e (S p)) 2).
  destruct (e p `mod` 3) as [|[|[|?]]]; [| | |lia];
    (destruct (e (S p) `mod` 2) as [|[|?]]; [| |lia]);
    vm_compute; set_solver.
Qed.

Lemma shuffled_three {A} e p (x : list A) :
  length x = 3 → shuffled e p x = shuffle_with 2 (draws e p 2) x.
Proof. intros Hx. unfold shuffled. by rewrite Hx. Qed.

Lemma shuffle_uniform order :
  order ≡ₚ hardcoded →
  (λ js, shuffle_with 2 js order) <$> all_draws ≡ₚ permutations order.
Proof.
  intros Hp%hardcoded_orders.
  repeat (apply elem_of_cons in Hp as [-> | Hp]); [..|by apply elem_of_nil in Hp];
    vm_compute; solve_Permutation.
Qed.

Lemma shuffle_positions order (k : string) pos :
  order ≡ₚ hardcoded → k ∈ hardcoded → pos < 3 →
  length (filter (λ js, shuffle_with 2 js order !! pos = Some k) all_draws) = 2.
Proof.
  intros Hp%hardcoded_orders Hb Hpos. unfold hardcoded in Hb.
  assert (pos = 0 ∨ pos = 1 ∨ pos = 2) as [-> | [-> | ->]] by lia;
    repeat (apply elem_of_cons in Hb as [-> | Hb]); try (by apply elem_of_nil in Hb);
    repeat (apply elem_of_cons in Hp as [-> | Hp]); try (by apply elem_of_nil in Hp);
    by vm_compute.
Qed.

(** C8.  For every combined loader that holds the three hardcoded buckets:
    a training epoch walks the buckets of step [i] in the [i]-th of the
    orders obtained by shuffling the list of identifiers again at every
    step, each shuffle taking two fresh draws from the generator; the six
    equally likely pairs of draws of one shuffle yield the six orders once
    each, so that every bucket stands at every position for two of the six;
    a validation epoch walks the buckets in the written order [2s], [3s],
    [4s] at every step and takes no draw. *)
Theorem C8_bucket_order cl loss_fn epoch log_freq w :
  (∀ k, k ∈ hardcoded → is_Some (cl !! k)) →
  log_freq ≠ 0%Z →
  let wt := (train cl loss_fn epoch log_freq w).2 in
  let wv := (validate cl loss_fn w).2 in
  consumed (new_events w wt)
  = visited cl 0 (train_orders (entropy w) (rng_pos w) hardcoded (n_steps cl)) ∧
  rng_pos wt = rng_pos w + 2 * n_steps cl ∧
  (∀ e p order,
     order ≡ₚ hardcoded →
     shuffled e p order = shuffle_with 2 (draws e p 2) order ∧
     draws e p 2 ∈ all_draws ∧
     (λ js, shuffle_with 2 js order) <$> all_draws ≡ₚ permutations order ∧
     ∀ (k : string) pos, k ∈ hardcoded → pos < 3 →
       length (filter (λ js, shuffle_with 2 js order !! pos = Some k) all_draws) = 2) ∧
  consumed (new_events w wv) = visited cl 0 (replicate (n_steps cl) hardcoded) ∧
  rng_pos wv = rng_pos w.
Proof.
  intros Hkeys Hlf wt wv.
  destruct (train_world cl loss_fn epoch log_freq w Hlf Hkeys) as (rs & Hbs & Hnew & Hrng).
  destruct (validate_world cl loss_fn w Hkeys) as (rs' & Hbs' & Hnew' & Hrng').
  unfold wt, wv. rewrite Hnew, Hnew', consumed_train_trace, consumed_validate_trace.
  split; [done|]. split; [done|]. split; [|done].
  intros e p order Hp. split.
  { apply shuffled_three. by rewrite (Permutation_length Hp). }
  split; [apply draws_two|]. split; [by apply shuffle_uniform|].
  intros k pos Hb Hpos. by apply shuffle_positions.
Qed.

End Loop.

(** * The epoch driver *)

Section Driver.
Context `{Fw : Framework}.
Implicit Types (w : World) (cl : gmap string Loader) (loss_fn : LossFn).

(** ** Computations that only add to the trace *)

Lemma steady_ret {A} (a : A) : steady (ret a).
Proof. by intros w. Qed.

Lemma steady_raise {A} e : e ≠ AssertionError → steady (@raise _ _ A e).
Proof. intros He w. split; [done|]. simpl. congruence. Qed.

Lemma steady_bind {A B} (m : M A) (k : A → M B) :
  steady m → (∀ a, steady (k a)) → steady (bind m k).
Proof.
  intros Hm Hk w. unfold bind. destruct (Hm w) as [Hpre Hne].
  destruct (m w) as [[a|e] w1]; simpl in *.
  - destruct (Hk a w1) as [Hpre' Hne']. split; [by etrans|done].
  - split; [done|]. intros [= ->]. by apply Hne.
Qed.

Lemma steady_for_each {A S} (xs : list A) (body : A → S → M S) s :
  (∀ x s, steady (body x s)) → steady (for_each xs body s).
Proof.
  intros Hbody. revert s. induction xs as [|x xs IH]; intros s; simpl.
  - apply steady_ret.
  - apply steady_bind; [apply Hbody|apply IH].
Qed.

Lemma steady_act (f : World → World) :
  (∀ w, events w `prefix_of` events (f w)) → steady (act f).
Proof. intros Hf w. by split; [apply Hf|]. Qed.

Lemma steady_ask {A} (f : World → A) : steady (ask f).
Proof. by intros w. Qed.

Lemma prefix_emit e w : events w `prefix_of` events (emit e w).
Proof. by apply prefix_app_r. Qed.

Lemma steady_pydiv (x : F) n : steady (pydiv x n).
Proof. destruct n; [by apply steady_raise|apply steady_ret]. Qed.

Lemma steady_divides b a : steady (divides b a).
Proof. unfold divides. case_decide; [by apply steady_raise|apply steady_ret]. Qed.

Lemma steady_getitem {V} (d : gmap string V) k : steady (getitem d k).
Proof. unfold getitem. destruct (d !! k); [apply steady_ret|by apply steady_raise]. Qed.

Lemma steady_randbelow n : steady (randbelow n).
Proof. by intros w. Qed.

Lemma steady_random_shuffle {A} (x : list A) : steady (random_shuffle x).
Proof.
  apply steady_for_each. intros i y.
  apply steady_bind; [apply steady_randbelow|intros j; apply steady_ret].
Qed.

Lemma steady_call_model X : steady (call_model X).
Proof.
  intros w. unfold call_model. destruct (forward _ _ _) as [pred m]. simpl.
  split; [|done]. by apply prefix_app_r.
Qed.

Lemma steady_call_loss loss_fn pred y : steady (call_loss loss_fn pred y).
Proof. intros w. split; [apply prefix_emit|done]. Qed.

Lemma steady_optimizer_step : steady optimizer_step.
Proof.
  intros w. unfold optimizer_step, act. destruct (opt_step _ _) as [o m].
  split; [|done]. by apply prefix_app_r.
Qed.

Lemma steady_time_time : steady time_time.
Proof. by intros w. Qed.

Lemma steady_add_scalar tag v step : steady (add_scalar tag v step).
Proof. apply steady_act, prefix_emit. Qed.

Lemma steady_no_grad {A} (body : M A) : steady body → steady (no_grad body).
Proof.
  intros Hb w. unfold no_grad.
  destruct (Hb (set_grad_enabled false w)) as [Hpre Hne].
  by destruct (body (set_grad_enabled false w)) as [r w1].
Qed.

Lemma steady_train_bucket cb loss_fn n_samples epoch log_freq k st :
  steady (train_bucket cb loss_fn n_samples epoch log_freq k st).
Proof.
  destruct st as [tl bn]. unfold train_bucket.
  apply steady_bind; [apply steady_getitem|]. intros [[X y]|]; [|apply steady_ret].
  apply steady_bind; [apply steady_call_model|]. intros pred.
  apply steady_bind; [apply steady_call_loss|]. intros loss.
  apply steady_bind; [apply steady_act; intros w; by apply prefix_app_r|]. intros _.
  apply steady_bind; [apply steady_act; intros w; by apply prefix_app_r|]. intros _.
  apply steady_bind; [apply steady_optimizer_step|]. intros _.
  apply steady_bind.
  { case_decide; [apply steady_divides|apply steady_ret]. }
  intros log. apply steady_bind; [|intros _; apply steady_ret].
  destruct log; [|apply steady_ret].
  apply steady_bind; [apply steady_pydiv|]. intros avg.
  apply steady_bind; [apply steady_act; intros w; apply prefix_emit|]. intros _.
  apply steady_add_scalar.
Qed.

Lemma steady_train cl loss_fn epoch log_freq : steady (train cl loss_fn epoch log_freq).
Proof.
  unfold train. apply steady_bind; [by apply steady_act|]. intros _.
  apply steady_bind; [|intros [[tl o] bn]; apply steady_pydiv].
  apply steady_for_each. intros cb [[tl o] bn]. unfold train_step.
  apply steady_bind; [apply steady_random_shuffle|]. intros o'.
  apply steady_bind; [|intros [tl' bn']; apply steady_ret].
  apply steady_for_each. intros k st. apply steady_train_bucket.
Qed.

Lemma steady_validate_bucket cb loss_fn k st : steady (validate_bucket cb loss_fn k st).
Proof.
  destruct st as [tl nc]. unfold validate_bucket.
  apply steady_bind; [apply steady_getitem|]. intros [[X y]|]; [|apply steady_ret].
  apply steady_bind; [apply steady_call_model|]. intros pred.
  apply steady_bind; [apply steady_call_loss|]. intros loss. apply steady_ret.
Qed.

Lemma steady_validate cl loss_fn : steady (validate cl loss_fn).
Proof.
  unfold validate. apply steady_bind; [by apply steady_act|]. intros _.
  apply steady_bind.
  { apply steady_no_grad, steady_for_each. intros cb st.
    apply steady_for_each. intros k st'. apply steady_validate_bucket. }
  intros [tl nc]. apply steady_bind; [apply steady_pydiv|]. intros avg.
  apply steady_bind; [apply steady_pydiv|]. intros ratio. apply steady_ret.
Qed.

Lemma steady_torch_save sd path : steady (torch_save sd path).
Proof. apply steady_act. intros w. by apply prefix_app_r. Qed.

Lemma steady_save_checkpoints exp_dir exp_id start_epoch t val_acc st :
  steady (save_checkpoints exp_dir exp_id start_epoch t val_acc st).
Proof.
  destruct st as [best_acc best_epoch]. unfold save_checkpoints.
  apply steady_bind.
  { destruct (fgt val_acc best_acc); [|apply steady_ret].
    apply steady_bind; [apply steady_ask|]. intros sd.
    apply steady_bind; [apply steady_torch_save|]. intros _. apply steady_ret. }
  intros [b e]. apply steady_bind; [apply steady_ask|]. intros sd.
  apply steady_bind; [apply steady_torch_save|]. intros _. apply steady_ret.
Qed.

Lemma steady_epoch train_loader val_loader loss_fn exp_dir exp_id start_epoch t st :
  steady (epoch train_loader val_loader loss_fn exp_dir exp_id start_epoch t st).
Proof.
  unfold epoch.
  apply steady_bind; [apply steady_time_time|]. intros t0.
  apply steady_bind; [apply steady_train|]. intros train_loss.
  apply steady_bind; [apply steady_time_time|]. intros t1.
  apply steady_bind; [apply steady_validate|]. intros [val_loss val_acc].
  apply steady_bind; [apply steady_time_time|]. intros t2.
  apply steady_bind; [|intros _; apply steady_save_checkpoints].
  apply steady_for_each. intros [tag v] _. apply steady_add_scalar.
Qed.


(** ** Checkpoint selection *)

Lemma save_checkpoints_run exp_dir exp_id start_epoch t val_acc best_acc best_epoch w :
  ∃ w',
    save_checkpoints exp_dir exp_id start_epoch t val_acc (best_acc, best_epoch) w
    = (Ok (if fgt val_acc best_acc then (val_acc, t) else (best_acc, best_epoch)), w') ∧
    events w' = events w ++
      (if fgt val_acc best_acc
       then [ESave (best_path exp_dir exp_id start_epoch) (state_dict (net w))]
       else []) ++
      [ESave (latest_path exp_dir exp_id) (state_dict (net w))] ∧
    net w' = net w.
Proof.
  unfold save_checkpoints, bind, ask, torch_save, act, ret, best_path, latest_path.
  destruct (fgt val_acc best_acc); simpl; eexists; (split; [reflexivity|]); simpl;
    by rewrite <-?app_assoc.
Qed.

(* The checkpointing step on its own: the best snapshot is written exactly
   when the accuracy it is given is greater than the best recorded so far,
   the latest snapshot in every case, after it; a list of such steps writes
   the best file at the improving ones and the latest file at each. *)
Lemma save_checkpoints_selection exp_dir exp_id start_epoch :
  (∀ t val_acc best_acc best_epoch w,
     ∃ w' best_acc' best_epoch',
       save_checkpoints exp_dir exp_id start_epoch t val_acc (best_acc, best_epoch) w
       = (Ok (best_acc', best_epoch'), w') ∧
       new_events w w'
       = (if fgt val_acc best_acc
          then [ESave (best_path exp_dir exp_id start_epoch) (state_dict (net w))]
          else []) ++
         [ESave (latest_path exp_dir exp_id) (state_dict (net w))] ∧
       (best_acc', best_epoch')
       = (if fgt val_acc best_acc then (val_acc, t) else (best_acc, best_epoch)) ∧
       (best_acc' = best_acc ∨ fgt best_acc' best_acc = true)) ∧
  (∀ (epochs : list (Z * F)) best_acc best_epoch w,
     ∃ w' st',
       for_each epochs
         (λ ta st, save_checkpoints exp_dir exp_id start_epoch ta.1 ta.2 st)
         (best_acc, best_epoch) w
       = (Ok st', w') ∧
       saved_paths (new_events w w')
       = improvements best_acc epochs.*2 ≫= λ improved : bool,
           (if improved then [best_path exp_dir exp_id start_epoch] else []) ++
           [latest_path exp_dir exp_id]).
Proof.
  split.
  - intros t val_acc best_acc best_epoch w.
    destruct (save_checkpoints_run exp_dir exp_id start_epoch t val_acc
                best_acc best_epoch w) as (w' & Hrun & Hev & _).
    exists w'. destruct (fgt val_acc best_acc) eqn:Hgt.
    + exists val_acc, t. rewrite (new_events_app _ _ _ Hev). by repeat split; auto.
    + exists best_acc, best_epoch. rewrite (new_events_app _ _ _ Hev).
      by repeat split; auto.
  - intros epochs.
    assert (Hgen : ∀ best_acc best_epoch w, ∃ w' st' evs,
      for_each epochs
         (λ ta st, save_checkpoints exp_dir exp_id start_epoch ta.1 ta.2 st)
         (best_acc, best_epoch) w = (Ok st', w') ∧
      events w' = events w ++ evs ∧
      saved_paths evs
       = improvements best_acc epochs.*2 ≫= λ improved : bool,
           (if improved then [best_path exp_dir exp_id start_epoch] else []) ++
           [latest_path exp_dir exp_id]).
    { induction epochs as [|[t acc] epochs IH]; intros best_acc best_epoch w.
      - exists w, (best_acc, best_epoch), []. by rewrite app_nil_r.
      - cbn [for_each]. unfold bind at 1.
        destruct (save_checkpoints_run exp_dir exp_id start_epoch t acc
                    best_acc best_epoch w) as (w1 & Hrun & Hev & _).
        cbn [fst snd]. rewrite Hrun.
        destruct (fgt acc best_acc) eqn:Hgt.
        + destruct (IH acc t w1) as (w' & st' & evs & -> & Hev' & Hsaved).
          exists w', st'. eexists. split; [done|].
          rewrite Hev', Hev, <-app_assoc. split; [done|].
          unfold saved_paths in *. rewrite omap_app, Hsaved.
          cbn [fmap list_fmap improvements snd]. by rewrite Hgt.
        + destruct (IH best_acc best_epoch w1) as (w' & st' & evs & -> & Hev' & Hsaved).
          exists w', st'. eexists. split; [done|].
          rewrite Hev', Hev, <-app_assoc. split; [done|].
          unfold saved_paths in *. rewrite omap_app, Hsaved.
          cbn [fmap list_fmap improvements snd]. by rewrite Hgt. }
    intros best_acc best_epoch w.
    destruct (Hgen best_acc best_epoch w) as (w' & st' & evs & Hrun & Hev & Hsaved).
    exists w', st'. by rewrite (new_events_app _ _ _ Hev).
Qed.


(** ** The resume check *)

Lemma define_model_supported site config w :
  model_kind config ∈ supported →
  ∃ m, define_model site config w = (Ok true, set_net m w).
Proof.
  intros Hk. unfold define_model, bind, act, ret.
  repeat case_decide; try by eexists.
  unfold supported in Hk. rewrite !elem_of_cons, elem_of_nil in Hk.
  by destruct Hk as [?|[?|[?|[?|[]]]]].
Qed.

Lemma consistent_dec argv3 start_epoch : Decision (consistent argv3 start_epoch).
Proof. unfold consistent. case_decide; apply _. Defined.

Lemma restore_checkpoint_run exp_dir argv3 start_epoch w :
  (argv3 ≠ "None" → is_Some (files w !! (exp_dir +:+ "/" +:+ argv3))) →
  ∃ w',
    events w' = events w ∧
    restore_checkpoint true exp_dir
      (if decide (argv3 ≠ "None") then Some argv3 else None) start_epoch w
    = (if consistent_dec argv3 start_epoch then Ok tt else Raise AssertionError, w').
Proof.
  intros Hfile. unfold restore_checkpoint.
  destruct (consistent_dec argv3 start_epoch) as [Hc|Hc];
    unfold consistent in Hc; destruct (decide (argv3 ≠ "None")) as [Hs|Hs].
  - destruct (Hfile Hs) as [sd Hsd].
    unfold the_model, torch_load, ask, act, py_assert.
    repeat (unfold bind, ret; cbn beta iota). rewrite Hsd.
    rewrite bool_decide_eq_true_2 by done. eexists; (split; [|reflexivity]); done.
  - unfold py_assert. rewrite bool_decide_eq_true_2 by done. eexists; (split; [|reflexivity]); done.
  - destruct (Hfile Hs) as [sd Hsd].
    unfold the_model, torch_load, ask, act, py_assert.
    repeat (unfold bind, ret; cbn beta iota). rewrite Hsd.
    rewrite bool_decide_eq_false_2 by done. eexists; (split; [|reflexivity]); done.
  - unfold py_assert. rewrite bool_decide_eq_false_2 by done. eexists; (split; [|reflexivity]); done.
Qed.

Lemma main_run site exp_dir data_dir argv3 config_file start_epoch w :
  model_kind (get_config site config_file) ∈ supported →
  (argv3 ≠ "None" → is_Some (files w !! (exp_dir +:+ "/" +:+ argv3))) →
  ∃ w1 (rest : M unit),
    events w1 = events w ∧ steady rest ∧
    main site exp_dir data_dir argv3 config_file start_epoch w
    = if consistent_dec argv3 start_epoch
      then rest (emit ESummary w1)
      else (Raise AssertionError, w1).
Proof.
  intros Hkind Hfile. unfold main.
  destruct (define_model_supported site (get_config site config_file) w Hkind)
    as [m Hdef].
  unfold bind at 1. rewrite Hdef.
  destruct (restore_checkpoint_run exp_dir argv3 start_epoch (set_net m w) Hfile)
    as (w1 & Hev1 & Hres).
  unfold bind at 1. rewrite Hres. exists w1.
  destruct (consistent_dec argv3 start_epoch) as [Hc|Hc].
  - unfold bind at 1. unfold the_model at 1. unfold ret at 1.
    unfold bind at 1. unfold act at 1.
    match goal with
    | |- context [bind ?m ?k (emit ESummary w1)] => exists (bind m k)
    end.
    split; [done|]. split; [|done].
    apply steady_bind; [apply steady_ret|]. intros _.
    apply steady_bind; [by apply steady_act|]. intros _.
    apply steady_bind; [|intros [b e]; apply steady_ret].
    apply steady_for_each. intros t st. apply steady_epoch.
  - exists (ret tt). split; [done|]. split; [apply steady_ret|done].
Qed.

(** C5.  Let the configured model kind be one that [main] knows and let
    the snapshot file, when one is named, exist.  Then [main] fails with an
    assertion error exactly when the starting epoch is inconsistent with
    the snapshot argument (a snapshot with a starting epoch that is not
    strictly positive, or no snapshot with a starting epoch other than
    zero), and it reaches the statement after the check exactly when they
    are consistent. *)
Theorem C5_resume_precondition site exp_dir data_dir argv3 config_file start_epoch w :
  model_kind (get_config site config_file) ∈ supported →
  (argv3 ≠ "None" → is_Some (files w !! (exp_dir +:+ "/" +:+ argv3))) →
  ESummary ∉ events w →
  let out := main site exp_dir data_dir argv3 config_file start_epoch w in
  (out.1 = Raise AssertionError ↔ ¬ consistent argv3 start_epoch) ∧
  (ESummary ∈ events out.2 ↔ consistent argv3 start_epoch).
Proof.
  intros Hkind Hfile Hfresh out.
  destruct (main_run site exp_dir data_dir argv3 config_file start_epoch w
              Hkind Hfile) as (w1 & rest & Hev1 & Hst & Hrun).
  unfold out. rewrite Hrun. clear out Hrun.
  destruct (consistent_dec argv3 start_epoch) as [Hc|Hc].
  - destruct (Hst (emit ESummary w1)) as [Hpre Hne].
    destruct (rest (emit ESummary w1)) as [r o]. simpl in *.
    split.
    + split; [intros Heq; by destruct Hne|done].
    + split; [done|]. intros _. destruct Hpre as [evs ->].
      rewrite !elem_of_app. left. right. by left.
  - simpl. split; [done|]. by rewrite Hev1.
Qed.


(** ** Validation leaves the model alone *)

Lemma keeps_ret {A} I (a : A) : keeps I (ret a).
Proof. by intros w. Qed.

Lemma keeps_raise {A} I e : keeps I (@raise _ _ A e).
Proof. by intros w. Qed.

Lemma keeps_bind {A B} I (m : M A) (k : A → M B) :
  keeps I m → (∀ a, keeps I (k a)) → keeps I (bind m k).
Proof.
  intros Hm Hk w Hw. unfold bind. specialize (Hm w Hw).
  destruct (m w) as [[a|e] w1]; simpl in *; [by apply Hk|done].
Qed.

Lemma keeps_for_each {A S} I (xs : list A) (body : A → S → M S) s :
  (∀ x s, keeps I (body x s)) → keeps I (for_each xs body s).
Proof.
  intros Hbody. revert s. induction xs as [|x xs IH]; intros s; simpl.
  - apply keeps_ret.
  - apply keeps_bind; [apply Hbody|apply IH].
Qed.

Lemma keeps_pydiv I (x : F) n : keeps I (pydiv x n).
Proof. destruct n; [apply keeps_raise|apply keeps_ret]. Qed.

Lemma keeps_getitem {V} I (d : gmap string V) k : keeps I (getitem d k).
Proof. unfold getitem. destruct (d !! k); [apply keeps_ret|apply keeps_raise]. Qed.

Lemma keeps_frozen_validate_bucket w0 cb loss_fn k st :
  (∀ m X, (forward false (set_training false m) X).2 = set_training false m) →
  keeps (frozen w0) (validate_bucket cb loss_fn k st).
Proof.
  intros Hpure. destruct st as [tl nc]. unfold validate_bucket.
  apply keeps_bind; [apply keeps_getitem|]. intros [[X y]|]; [|apply keeps_ret].
  apply keeps_bind.
  { intros w (Hnet & Hopt & Hg & evs & Hev & Hinf). unfold call_model.
    rewrite Hg, Hnet.
    specialize (Hpure (net w0) X).
    destruct (forward false (set_training false (net w0)) X) as [pred m].
    simpl in *. subst m. split; [done|]. split; [done|]. split; [done|].
    exists (evs ++ [EForward false X pred]). simpl.
    rewrite Hev, <-app_assoc. split; [done|].
    apply Forall_app. split; [done|]. by constructor. }
  intros pred. apply keeps_bind; [|intros loss; apply keeps_ret].
  intros w (Hnet & Hopt & Hg & evs & Hev & Hinf). unfold call_loss. simpl.
  split; [done|]. split; [done|]. split; [done|].
  exists (evs ++ [ELoss pred y (loss_fn pred y)]). simpl.
  rewrite Hev, <-app_assoc. split; [done|].
  apply Forall_app. split; [done|]. by constructor.
Qed.

(** C10.  Let the framework keep its word on evaluation mode: switching to
    it does not change the parameter snapshot, and a forward pass in it
    with gradients disabled leaves the module as it is.  Then for every
    model, combined loader and loss function, and however the call ends,
    the parameter snapshot after [validate] is the snapshot before it, the
    optimiser is untouched, and the call adds to the trace only forward
    passes with gradients disabled and evaluations of the loss: no
    backward pass and no optimiser step. *)
Theorem C10_validate_keeps_parameters cl loss_fn w :
  (∀ m, state_dict (set_training false m) = state_dict m) →
  (∀ m X, (forward false (set_training false m) X).2 = set_training false m) →
  let w' := (validate cl loss_fn w).2 in
  state_dict (net w') = state_dict (net w) ∧
  optimizer w' = optimizer w ∧
  grad_enabled w' = grad_enabled w ∧
  Forall inference_event (new_events w w') ∧
  optimizer_steps (new_events w w') = 0.
Proof.
  intros Hsd Hpure w'.
  assert (Hloop : keeps (frozen w)
            (for_each (steps cl) (validate_step loss_fn) (of_Z 0, of_Z 0))).
  { apply keeps_for_each. intros cb st. apply keeps_for_each. intros k st'.
    by apply keeps_frozen_validate_bucket. }
  set (w1 := set_grad_enabled false (set_net (set_training false (net w)) w)).
  assert (Hw1 : frozen w w1).
  { repeat split; try done. exists []. by rewrite app_nil_r. }
  specialize (Hloop w1 Hw1).
  assert (Hout : ∃ w2, frozen w w2 ∧ w' = set_grad_enabled (grad_enabled w) w2).
  { unfold w', validate, bind at 1, model_eval, act. unfold bind at 1. unfold no_grad.
    fold w1. destruct (for_each _ _ _ w1) as [[[tl nc]|e] w2]; simpl in *.
    - exists w2. split; [done|]. unfold bind, pydiv.
      destruct (count_batches_in_combined_loader cl); [done|].
      by destruct (count_samples_in_combined_loader cl).
    - by exists w2. }
  destruct Hout as (w2 & (Hnet & Hopt & Hg & evs & Hev & Hinf) & ->). simpl.
  rewrite Hnet, Hsd, Hopt.
  assert (Hnew : new_events w (set_grad_enabled (grad_enabled w) w2) = evs).
  { by apply new_events_app. }
  rewrite Hnew. repeat split; try done.
  clear -Hinf. unfold optimizer_steps.
  induction Hinf as [|e evs He _ IH]; [done|].
  destruct e as [[] | | | | | | | | |]; simpl in *; done.
Qed.

End Driver.


(** * Further properties of the loops

    ** How an epoch fails *)

Section Edges.
Context `{Fw : Framework}.
Implicit Types (w : World) (cl : gmap string Loader) (rs : list Processed).
Implicit Types (b : Batch) (loss_fn : LossFn) (order : list string).

Lemma for_each_app {A S} (xs ys : list A) (body : A → S → M S) (s : S) w :
  for_each (xs ++ ys) body s w
  = match for_each xs body s w with
    | (Ok s', w') => for_each ys body s' w'
    | (Raise e, w') => (Raise e, w')
    end.
Proof.
  revert s w. induction xs as [|x xs IH]; intros s w; simpl; [done|].
  unfold bind. destruct (body x s w) as [[s'|e] w']; [apply IH|done].
Qed.

Lemma bind_ok {A B} (m : M A) (k : A → M B) (a : A) w w' :
  m w = (Ok a, w') → bind m k w = k a w'.
Proof. intros Hm. unfold bind. by rewrite Hm. Qed.

Lemma for_each_cons {A S} (x : A) (xs : list A) (body : A → S → M S) (s : S) w :
  for_each (x :: xs) body s w
  = match body x s w with
    | (Ok s', w') => for_each xs body s' w'
    | (Raise e, w') => (Raise e, w')
    end.
Proof. reflexivity. Qed.

Lemma train_step_eq loss_fn n_samples epoch log_freq
    (cb : gmap string (option Batch)) tl order bn w :
  train_step loss_fn n_samples epoch log_freq cb (tl, order, bn) w
  = match for_each (shuffled (entropy w) (rng_pos w) order)
            (train_bucket cb loss_fn n_samples epoch log_freq) (tl, bn)
            (set_rng_pos (rng_pos w + (length order - 1)) w) with
    | (Ok (tl', bn'), w') => (Ok (tl', shuffled (entropy w) (rng_pos w) order, bn'), w')
    | (Raise e, w') => (Raise e, w')
    end.
Proof.
  unfold train_step, bind. rewrite random_shuffle_spec.
  by destruct (for_each _ _ _ _) as [[[tl' bn']|e] w'].
Qed.

Lemma max_list_sum_zero {A} (f : A → nat) (l : list A) :
  sum_list_with f l = 0 → max_list (f <$> l) = 0.
Proof.
  induction l as [|x l IH]; [done|]. intros Hs.
  change (f x + sum_list_with f l = 0) in Hs.
  change (f x `max` max_list (f <$> l) = 0). rewrite IH by lia. lia.
Qed.

Lemma n_steps_zero cl : count_batches_in_combined_loader cl = 0 → n_steps cl = 0.
Proof. rewrite count_batches_sum. apply max_list_sum_zero. Qed.

Lemma train_no_steps cl loss_fn epoch log_freq w :
  n_steps cl = 0 →
  train cl loss_fn epoch log_freq w
  = pydiv (of_Z 0) (count_batches_in_combined_loader cl)
          (set_net (set_training true (net w)) w).
Proof. intros Hn. unfold train, steps. rewrite Hn. reflexivity. Qed.

(** X1.  For every combined loader that holds the three hardcoded buckets
    and every non-zero log interval, [train] ends in a
    [ZeroDivisionError] exactly when the static batch total is zero; in
    that case it has called neither the model nor the loss nor the
    optimiser. *)
Theorem X1_train_fails_without_batches cl loss_fn epoch log_freq w :
  (∀ k, k ∈ hardcoded → is_Some (cl !! k)) →
  log_freq ≠ 0%Z →
  let out := train cl loss_fn epoch log_freq w in
  (out.1 = Raise ZeroDivisionError ↔ count_batches_in_combined_loader cl = 0) ∧
  (count_batches_in_combined_loader cl = 0 → events out.2 = events w).
Proof.
  intros Hkeys Hlf out. split; [split|].
  - intros Hr. destruct (decide (count_batches_in_combined_loader cl = 0)) as [|Hn]; [done|].
    destruct (train_run cl loss_fn epoch log_freq w Hlf Hkeys) as (rs & w' & Hrun & _).
    unfold out in Hr. rewrite Hrun, pydiv_nonzero in Hr by done. done.
  - intros Hn. unfold out. rewrite train_no_steps by by apply n_steps_zero.
    by rewrite Hn.
  - intros Hn. unfold out. rewrite train_no_steps by by apply n_steps_zero.
    by rewrite Hn.
Qed.

(** X2.  For every combined loader that holds the three hardcoded buckets,
    [validate] ends in a [ZeroDivisionError] exactly when the static batch
    total or the static sample total is zero. *)
Theorem X2_validate_fails_without_batches_or_samples cl loss_fn w :
  (∀ k, k ∈ hardcoded → is_Some (cl !! k)) →
  (validate cl loss_fn w).1 = Raise ZeroDivisionError
  ↔ count_batches_in_combined_loader cl = 0 ∨ count_samples_in_combined_loader cl = 0.
Proof.
  intros Hkeys.
  destruct (validate_run cl loss_fn w Hkeys) as (rs & w' & Hrun & _).
  rewrite Hrun. unfold validate_result, bind, pydiv, ret, raise.
  destruct (count_batches_in_combined_loader cl) as [|nb]; simpl.
  { split; [by left|done]. }
  destruct (count_samples_in_combined_loader cl) as [|ns]; simpl.
  - split; [by right|done].
  - split; [done|]. by intros [?|?].
Qed.

(** ** A bucket that the combined loader lacks *)

Lemma missing_cons_present cl k order (l : Loader) :
  cl !! k = Some l → missing cl (k :: order) = missing cl order.
Proof. intros Hk. unfold missing. rewrite filter_cons_False; [done|]. by rewrite Hk. Qed.

Lemma missing_cons_absent cl k order :
  cl !! k = None → missing cl (k :: order) = k :: missing cl order.
Proof. intros Hk. unfold missing. by rewrite filter_cons_True. Qed.

Lemma train_buckets_missing cl i loss_fn n_samples epoch log_freq order k tl bn w :
  log_freq ≠ 0%Z →
  head (missing cl order) = Some k →
  (for_each order
     (train_bucket (combined_batches_at cl i) loss_fn n_samples epoch log_freq)
     (tl, bn) w).1
  = Raise (KeyError k).
Proof.
  intros Hlf. revert tl bn w.
  induction order as [|k0 order IH]; intros tl bn w Hk; [done|].
  cbn [for_each]. unfold bind at 1.
  destruct (cl !! k0) as [l|] eqn:Hl.
  - rewrite (missing_cons_present _ _ _ _ Hl) in Hk.
    assert (Hcb : combined_batches_at cl i !! k0 = Some (batches l !! i)).
    { unfold combined_batches_at. by rewrite lookup_fmap, Hl. }
    destruct (batches l !! i) as [b|] eqn:Hb.
    + destruct (train_bucket_present _ loss_fn n_samples epoch log_freq k0 b tl bn w
                  Hcb Hlf) as (pred & w1 & -> & _). by apply IH.
    + rewrite (train_bucket_absent _ _ _ _ _ _ _ _ Hcb). by apply IH.
  - rewrite (missing_cons_absent _ _ _ Hl) in Hk. simplify_eq/=.
    unfold train_bucket, bind, getitem, combined_batches_at.
    by rewrite lookup_fmap, Hl.
Qed.

Lemma validate_buckets_missing cl i loss_fn order k tl nc w :
  head (missing cl order) = Some k →
  (for_each order (validate_bucket (combined_batches_at cl i) loss_fn) (tl, nc) w).1
  = Raise (KeyError k).
Proof.
  revert tl nc w.
  induction order as [|k0 order IH]; intros tl nc w Hk; [done|].
  cbn [for_each]. unfold bind at 1.
  destruct (cl !! k0) as [l|] eqn:Hl.
  - rewrite (missing_cons_present _ _ _ _ Hl) in Hk.
    assert (Hcb : combined_batches_at cl i !! k0 = Some (batches l !! i)).
    { unfold combined_batches_at. by rewrite lookup_fmap, Hl. }
    destruct (batches l !! i) as [b|] eqn:Hb.
    + destruct (validate_bucket_present _ loss_fn k0 b tl nc w Hcb)
        as (pred & w1 & -> & _). by apply IH.
    + rewrite (validate_bucket_absent _ _ _ _ _ Hcb). by apply IH.
  - rewrite (missing_cons_absent _ _ _ Hl) in Hk. simplify_eq/=.
    unfold validate_bucket, bind, getitem, combined_batches_at.
    by rewrite lookup_fmap, Hl.
Qed.

Lemma bind_raise {A B} (m : M A) (k : A → M B) e w :
  (m w).1 = Raise e → (bind m k w).1 = Raise e.
Proof. unfold bind. destruct (m w) as [[a|e'] w']; simpl; [done|]. by intros [= ->]. Qed.

Lemma steps_cons cl :
  0 < n_steps cl →
  steps cl = combined_batches_at cl 0 :: (combined_batches_at cl <$> seq 1 (n_steps cl - 1)).
Proof.
  intros Hn. unfold steps. destruct (n_steps cl) as [|n]; [lia|].
  simpl. by rewrite Nat.sub_0_r.
Qed.

(** X3.  Let the combined loader have a step at all and lack one of the
    hardcoded buckets.  Then [validate] ends in a [KeyError] for the first
    of ['2s'], ['3s'], ['4s'] that it lacks, and [train], for a non-zero
    log interval, in a [KeyError] for the first one that it lacks in the
    order of its first shuffle. *)
Theorem X3_missing_bucket_is_a_key_error cl loss_fn epoch log_freq w :
  0 < n_steps cl →
  missing cl hardcoded ≠ [] →
  (∃ k, head (missing cl hardcoded) = Some k ∧
        (validate cl loss_fn w).1 = Raise (KeyError k)) ∧
  (log_freq ≠ 0%Z →
   ∃ k, head (missing cl (shuffled (entropy w) (rng_pos w) hardcoded)) = Some k ∧
        (train cl loss_fn epoch log_freq w).1 = Raise (KeyError k)).
Proof.
  intros Hn Hm. split.
  - destruct (missing cl hardcoded) as [|k ks] eqn:Hmk; [done|]. exists k.
    split; [done|]. unfold validate.
    unfold bind at 1. unfold model_eval, act. cbn beta iota.
    apply bind_raise. unfold no_grad.
    rewrite (steps_cons cl Hn). cbn [for_each].
    match goal with
    | |- (let '(r, w') := ?m in _).1 = _ =>
        assert (Hr : (m).1 = Raise (KeyError k)); [|by destruct m]
    end.
    unfold bind at 1, ret.
    apply bind_raise. unfold validate_step.
    apply validate_buckets_missing. fold hardcoded. by rewrite Hmk.
  - intros Hlf.
    set (order1 := shuffled (entropy w) (rng_pos w) hardcoded).
    assert (Hperm : order1 ≡ₚ hardcoded) by apply shuffled_Permutation.
    destruct (missing cl order1) as [|k ks] eqn:Hmk.
    { exfalso. destruct (missing cl hardcoded) as [|k ks] eqn:Hmh; [done|].
      assert (Hk : k ∈ missing cl order1).
      { unfold missing. apply list_elem_of_filter.
        assert (Hk : k ∈ missing cl hardcoded) by (rewrite Hmh; by left).
        apply list_elem_of_filter in Hk as [Hk1 Hk2]. split; [done|].
        by rewrite Hperm. }
      rewrite Hmk in Hk. by apply elem_of_nil in Hk. }
    exists k. split; [done|]. unfold train.
    unfold bind at 1. unfold model_train, act. cbn beta iota.
    apply bind_raise. rewrite (steps_cons cl Hn). cbn [for_each].
    apply bind_raise. unfold train_step. unfold bind at 1.
    change ["2s"; "3s"; "4s"] with hardcoded.
    rewrite random_shuffle_spec. cbn [entropy rng_pos set_net].
    apply bind_raise.
    apply train_buckets_missing; [done|]. fold order1. by rewrite Hmk.
Qed.


(** ** A log interval of zero *)

Lemma optimizer_steps_app (evs1 evs2 : list Event) :
  optimizer_steps (evs1 ++ evs2) = optimizer_steps evs1 + optimizer_steps evs2.
Proof. unfold optimizer_steps. by rewrite omap_app, length_app. Qed.

Lemma train_bucket_present_zero cb loss_fn n_samples epoch k (b : Batch) tl bn w :
  cb !! k = Some (Some b) →
  ∃ pred w',
    train_bucket cb loss_fn n_samples epoch 0 k (tl, bn) w
    = (if decide (bn = 0) then Ok (fadd tl (loss_fn pred b.2), 1)
       else Raise ZeroDivisionError, w') ∧
    events w' = events w ++
      training_calls (grad_enabled w) b.1 (pred, b.2, loss_fn pred b.2) ∧
    framed w w'.
Proof.
  intros Hk. destruct b as [X y].
  unfold train_bucket. cbn beta iota. unfold bind, getitem. rewrite Hk. simpl.
  unfold call_model. destruct (forward (grad_enabled w) (net w) X) as [pred m] eqn:Hf.
  exists pred. unfold call_loss, optimizer_zero_grad, loss_backward, optimizer_step, act.
  simpl. destruct (opt_step _ _) as [o m'] eqn:Ho.
  unfold training_calls. simpl.
  destruct (decide (bn ≠ 0)) as [Hbn|Hbn].
  - unfold divides. rewrite decide_True by done. unfold raise.
    rewrite decide_False by done.
    eexists. split; [reflexivity|]. split; [|by repeat split].
    simpl. by rewrite <-!app_assoc.
  - assert (bn = 0) as -> by lia. unfold ret. simpl.
    eexists. split; [reflexivity|]. split; [|by repeat split].
    simpl. by rewrite <-!app_assoc.
Qed.

Lemma optimizer_steps_training_calls g (X : list Sample) c :
  optimizer_steps (training_calls g X c) = 1.
Proof. done. Qed.

Lemma train_buckets_zero cl i loss_fn n_samples epoch order :
  (∀ k, k ∈ order → is_Some (cl !! k)) →
  ∀ tl bn w,
    bn ≤ 1 →
    let met := omap (delivered cl i) order in
    let r := for_each order
               (train_bucket (combined_batches_at cl i) loss_fn n_samples epoch 0)
               (tl, bn) w in
    (bn + length met ≤ 1 →
     (∃ tl', r.1 = Ok (tl', bn + length met)) ∧
     optimizer_steps (events r.2) = optimizer_steps (events w) + length met ∧
     framed w r.2) ∧
    (2 ≤ bn + length met →
     r.1 = Raise ZeroDivisionError ∧
     optimizer_steps (events r.2) = optimizer_steps (events w) + (2 - bn)).
Proof.
  induction order as [|k order IH]; intros Hkeys tl bn w Hbn met r.
  - subst met r. simpl. split; [|lia]. intros _.
    split; [exists tl; f_equal; f_equal; lia|]. split; [lia|apply framed_refl].
  - destruct (Hkeys k) as [l Hl]; [by left|].
    assert (Hkeys' : ∀ k', k' ∈ order → is_Some (cl !! k')).
    { intros k' Hk'. apply Hkeys. by right. }
    assert (Hcb : combined_batches_at cl i !! k = Some (batches l !! i)).
    { unfold combined_batches_at. by rewrite lookup_fmap, Hl. }
    assert (Hd : delivered cl i k = batches l !! i).
    { unfold delivered. by rewrite Hl. }
    assert (Hom : met
                  = match delivered cl i k with
                    | Some b => b :: omap (delivered cl i) order
                    | None => omap (delivered cl i) order
                    end) by done.
    rewrite Hd in Hom. subst r. rewrite for_each_cons.
    destruct (batches l !! i) as [b|] eqn:Hb.
    + destruct (train_bucket_present_zero _ loss_fn n_samples epoch k b tl bn w Hcb)
        as (pred & w1 & Hrun & Hev1 & Hfr1).
      rewrite Hom, Hrun. cbn [length].
      destruct (decide (bn = 0)) as [->|Hbn0]; cbn beta iota.
      * specialize (IH Hkeys' (fadd tl (loss_fn pred b.2)) 1 w1 ltac:(lia)).
        cbn zeta in IH. destruct IH as [IH1 IH2]. split.
        -- intros Hle. destruct IH1 as ((tl' & Hr) & Hst & Hfr); [lia|].
           split; [exists tl'; by rewrite Hr|].
           split; [|by eapply framed_trans].
           rewrite Hst, Hev1, optimizer_steps_app, optimizer_steps_training_calls. lia.
        -- intros Hge. destruct IH2 as (Hr & Hst); [lia|]. split; [done|].
           rewrite Hst, Hev1, optimizer_steps_app, optimizer_steps_training_calls. lia.
      * split; [lia|]. intros _. split; [done|]. simpl.
        rewrite Hev1, optimizer_steps_app, optimizer_steps_training_calls. lia.
    + rewrite (train_bucket_absent _ _ _ _ _ _ _ _ Hcb). rewrite Hom.
      by apply IH.
Qed.

Lemma train_steps_zero cl loss_fn n_samples epoch n :
  ∀ a tl bn order w,
    (∀ k, k ∈ order → is_Some (cl !! k)) →
    bn ≤ 1 →
    let met := visited cl a (train_orders (entropy w) (rng_pos w) order n) in
    let r := for_each (combined_batches_at cl <$> seq a n)
               (train_step loss_fn n_samples epoch 0) (tl, order, bn) w in
    (bn + length met ≤ 1 →
     (∃ tl' order', r.1 = Ok (tl', order', bn + length met)) ∧
     optimizer_steps (events r.2) = optimizer_steps (events w) + length met) ∧
    (2 ≤ bn + length met →
     r.1 = Raise ZeroDivisionError ∧
     optimizer_steps (events r.2) = optimizer_steps (events w) + (2 - bn)).
Proof.
  induction n as [|n IH]; intros a tl bn order w Hkeys Hbn met r.
  - subst met r. simpl. split; [|lia]. intros _.
    split; [exists tl, order; do 2 f_equal; lia|lia].
  - subst met r. cbn [seq fmap list_fmap train_orders visited].
    rewrite for_each_cons, train_step_eq.
    set (order1 := shuffled (entropy w) (rng_pos w) order).
    set (w1 := set_rng_pos (rng_pos w + (length order - 1)) w).
    assert (Hperm : order1 ≡ₚ order) by apply shuffled_Permutation.
    assert (Hkeys1 : ∀ k, k ∈ order1 → is_Some (cl !! k)).
    { intros k Hk. apply Hkeys. by rewrite <-Hperm. }
    destruct (train_buckets_zero cl a loss_fn n_samples epoch order1 Hkeys1 tl bn w1 Hbn)
      as [Hb1 Hb2].
    cbn zeta in Hb1, Hb2. rewrite length_app.
    set (met1 := omap (delivered cl a) order1) in *.
    change (list_fmap _ _ (combined_batches_at cl) (seq (S a) n))
      with (combined_batches_at cl <$> seq (S a) n).
    destruct (decide (bn + length met1 ≤ 1)) as [Hle|Hgt].
    + destruct (Hb1 Hle) as ((tl' & Hr1) & Hst1 & Hfr1). clear Hb1 Hb2.
      destruct (for_each order1 _ (tl, bn) w1) as [[[tl1 bn1]|e1] w2]; simpl in Hr1; [|done].
      injection Hr1 as -> ->. simpl in Hst1, Hfr1.
      specialize (IH (S a) tl' (bn + length met1) order1 w2 Hkeys1 Hle).
      cbn zeta in IH.
      destruct Hfr1 as (He1 & Hr1 & _).
      rewrite He1, Hr1 in IH. simpl in IH.
      destruct IH as [IH1 IH2]. split.
      * intros Hle'. destruct IH1 as ((tl'' & order'' & Hr) & Hst); [lia|].
        split; [exists tl'', order''; rewrite Hr; do 2 f_equal; lia|].
        rewrite Hst, Hst1. simpl. lia.
      * intros Hge. destruct IH2 as (Hr & Hst); [lia|]. split; [done|].
        rewrite Hst, Hst1. simpl. lia.
    + destruct Hb2 as (Hr1 & Hst1); [lia|]. clear Hb1.
      destruct (for_each order1 _ (tl, bn) w1) as [[[tl1 bn1]|e1] w2]; simpl in Hr1; [done|].
      injection Hr1 as ->. simpl in Hst1. simpl.
      split; [lia|]. intros _. split; [done|]. rewrite Hst1. simpl. lia.
Qed.

(** X4.  With a log interval of zero, [train] over a combined loader that
    holds the three hardcoded buckets ends in a [ZeroDivisionError]
    exactly when these buckets hold two batches or more, or the static
    batch total is zero.  With two batches or more the error comes from
    the test of line 69 at the second batch: by then the optimiser has
    made its step for the first batch and for the second. *)
Theorem X4_zero_log_interval cl (l2 l3 l4 : Loader) loss_fn epoch w :
  cl !! "2s" = Some l2 → cl !! "3s" = Some l3 → cl !! "4s" = Some l4 →
  let out := train cl loss_fn epoch 0 w in
  let n := loader_len l2 + loader_len l3 + loader_len l4 in
  (out.1 = Raise ZeroDivisionError
   ↔ 2 ≤ n ∨ count_batches_in_combined_loader cl = 0) ∧
  (2 ≤ n → optimizer_steps (new_events w out.2) = 2).
Proof.
  intros H2 H3 H4 out n.
  assert (Hkeys : ∀ k, k ∈ hardcoded → is_Some (cl !! k)).
  { intros k. unfold hardcoded. rewrite !elem_of_cons, elem_of_nil.
    intros [->|[->|[->|[]]]]; eauto. }
  set (w0 := set_net (set_training true (net w)) w).
  set (met := visited cl 0 (train_orders (entropy w0) (rng_pos w0) hardcoded (n_steps cl))).
  assert (Hmet : length met = n).
  { unfold met, n, loader_len.
    rewrite (visited_all cl l2 l3 l4 _ H2 H3 H4 (train_orders_Permutation _ _ _ _)
               (train_orders_length _ _ _ _)).
    by rewrite !length_app, Nat.add_assoc. }
  destruct (train_steps_zero cl loss_fn (count_samples_in_combined_loader cl) epoch
              (n_steps cl) 0 (of_Z 0) 0 hardcoded w0 Hkeys ltac:(lia)) as [Hs1 Hs2].
  cbn zeta in Hs1, Hs2. fold met in Hs1, Hs2. rewrite Hmet in Hs1, Hs2.
  assert (Hout : out
    = bind (for_each (steps cl)
              (train_step loss_fn (count_samples_in_combined_loader cl) epoch 0)
              (of_Z 0, ["2s"; "3s"; "4s"], 0))
           (λ '(total_loss, _, _), pydiv total_loss (count_batches_in_combined_loader cl))
           w0) by done.
  unfold steps, hardcoded in *.
  destruct (decide (n ≤ 1)) as [Hle|Hgt].
  - destruct (Hs1 Hle) as ((tl' & order' & Hr) & _). split; [|lia].
    rewrite Hout. unfold bind.
    destruct (for_each _ _ _ w0) as [[[[tl1 o1] n1]|e1] w1]; simpl in Hr; [|done].
    unfold pydiv. destruct (count_batches_in_combined_loader cl); simpl.
    + split; [by right|done].
    + split; [done|]. intros [?|?]; [lia|done].
  - destruct Hs2 as (Hr & Hst); [lia|]. split.
    + split; [intros _; left; lia|]. intros _. rewrite Hout. by apply bind_raise.
    + intros _.
      destruct (steady_train cl loss_fn epoch 0 w) as [[evs Hevs] _].
      fold out in Hevs. rewrite (new_events_app _ _ _ Hevs).
      assert (Hw : out.2 = (for_each (combined_batches_at cl <$> seq 0 (n_steps cl))
                             (train_step loss_fn (count_samples_in_combined_loader cl) epoch 0)
                             (of_Z 0, ["2s"; "3s"; "4s"], 0) w0).2).
      { rewrite Hout. unfold bind.
        by destruct (for_each _ _ _ w0) as [[[[tl1 o1] n1]|e1] w1]. }
      rewrite <-Hw, Hevs, optimizer_steps_app in Hst. simpl in Hst. lia.
Qed.

(** ** The calls of a training epoch *)

Lemma framework_calls_app (evs1 evs2 : list Event) :
  framework_calls (evs1 ++ evs2) = framework_calls evs1 ++ framework_calls evs2.
Proof. apply omap_app. Qed.

Lemma framework_calls_train_trace g n_samples epoch log_freq tl bn rs :
  framework_calls (train_trace g n_samples epoch log_freq tl bn rs)
  = concat (zip_with (training_calls g) (batch_of <$> rs).*1
              ((λ r : Processed, (r.1.2, (batch_of r).2, r.2)) <$> rs)).
Proof.
  revert tl bn. induction rs as [|[[[X y] pred] v] rs IH]; intros tl bn; [done|].
  cbn [train_trace train_batch_events]. rewrite !framework_calls_app, IH.
  by destruct (logs_at log_freq bn).
Qed.

(** X5.  In a training epoch over a combined loader that holds the three
    hardcoded buckets, with a non-zero log interval, the calls into the
    framework are, batch after batch: the forward pass, the loss of its
    scores against the labels of the batch, [optimizer.zero_grad()],
    [loss.backward()] and [optimizer.step()], in this order and nothing
    else; the forward passes run in the gradient mode in which [train] was
    entered. *)
Theorem X5_calls_of_a_training_epoch cl loss_fn epoch log_freq w :
  (∀ k, k ∈ hardcoded → is_Some (cl !! k)) →
  log_freq ≠ 0%Z →
  let new := new_events w (train cl loss_fn epoch log_freq w).2 in
  framework_calls new
  = concat (zip_with (training_calls (grad_enabled w)) (fwd_inputs new) (loss_calls new)) ∧
  length (fwd_inputs new) = length (loss_calls new) ∧
  optimizer_steps new = length (fwd_inputs new).
Proof.
  intros Hkeys Hlf new.
  destruct (train_world cl loss_fn epoch log_freq w Hlf Hkeys) as (rs & _ & Hnew & _).
  unfold new. rewrite Hnew.
  rewrite fwd_inputs_train_trace, loss_calls_train_trace, optimizer_steps_train_trace.
  split; [apply framework_calls_train_trace|].
  by rewrite !length_fmap.
Qed.

(** ** What the log interval and the epoch number do not touch *)

Lemma alike_ret {A} (a : A) : alike (ret a) (ret a).
Proof. by intros w1 w2 Hw. Qed.

Lemma alike_bind {A B} (m1 m2 : M A) (k1 k2 : A → M B) :
  alike m1 m2 → (∀ a, alike (k1 a) (k2 a)) → alike (bind m1 k1) (bind m2 k2).
Proof.
  intros Hm Hk w1 w2 Hw. unfold bind. destruct (Hm w1 w2 Hw) as [Hr Hw'].
  destruct (m1 w1) as [[a1|e1] w1'], (m2 w2) as [[a2|e2] w2']; simpl in *;
    simplify_eq; [by apply Hk|done].
Qed.

Lemma alike_for_each {A S} (xs : list A) (b1 b2 : A → S → M S) (s : S) :
  (∀ x s, alike (b1 x s) (b2 x s)) → alike (for_each xs b1 s) (for_each xs b2 s).
Proof.
  intros Hb. revert s. induction xs as [|x xs IH]; intros s; simpl.
  - apply alike_ret.
  - apply alike_bind; [apply Hb|apply IH].
Qed.

Lemma alike_random_shuffle {A} (x : list A) : alike (random_shuffle x) (random_shuffle x).
Proof.
  intros w1 w2 [Hs Hc]. rewrite !random_shuffle_spec.
  destruct Hs as (Hn & Ho & Hg & He & Hr & Hcl & Ht & Hf). simpl. rewrite He, Hr.
  split; [done|]. split; [|done]. repeat split; simpl; congruence.
Qed.

Lemma alike_pydiv (x : F) n : alike (pydiv x n) (pydiv x n).
Proof. intros w1 w2 Hw. unfold pydiv. by destruct n. Qed.

Lemma alike_getitem {V} (d : gmap string V) k : alike (getitem d k) (getitem d k).
Proof. intros w1 w2 Hw. unfold getitem. by destruct (d !! k). Qed.

Lemma alike_call_model X : alike (call_model X) (call_model X).
Proof.
  intros w1 w2 [(Hn & Ho & Hg & He & Hr & Hcl & Ht & Hf) Hc]. unfold call_model.
  rewrite Hn, Hg. destruct (forward (grad_enabled w2) (net w2) X) as [pred m].
  split; [done|]. split; [by repeat split|].
  cbn [fst snd events emit set_net]. by rewrite !framework_calls_app, Hc.
Qed.

Lemma alike_call_loss loss_fn pred y :
  alike (call_loss loss_fn pred y) (call_loss loss_fn pred y).
Proof.
  intros w1 w2 [(Hn & Ho & Hg & He & Hr & Hcl & Ht & Hf) Hc]. unfold call_loss.
  split; [done|]. split; [by repeat split|].
  cbn [fst snd events emit]. by rewrite !framework_calls_app, Hc.
Qed.

Lemma alike_optimizer_zero_grad : alike optimizer_zero_grad optimizer_zero_grad.
Proof.
  intros w1 w2 [(Hn & Ho & Hg & He & Hr & Hcl & Ht & Hf) Hc].
  unfold optimizer_zero_grad, act. split; [done|].
  split; [repeat split; simpl; congruence|].
  cbn [fst snd events emit set_net]. by rewrite !framework_calls_app, Hc.
Qed.

Lemma alike_loss_backward X pred y : alike (loss_backward X pred y) (loss_backward X pred y).
Proof.
  intros w1 w2 [(Hn & Ho & Hg & He & Hr & Hcl & Ht & Hf) Hc].
  unfold loss_backward, act. split; [done|].
  split; [repeat split; simpl; congruence|].
  cbn [fst snd events emit set_net]. by rewrite !framework_calls_app, Hc.
Qed.

Lemma alike_optimizer_step : alike optimizer_step optimizer_step.
Proof.
  intros w1 w2 [(Hn & Ho & Hg & He & Hr & Hcl & Ht & Hf) Hc].
  unfold optimizer_step, act. rewrite Hn, Ho.
  destruct (opt_step (optimizer w2) (net w2)) as [o m].
  split; [done|]. split; [by repeat split|].
  cbn [fst snd events emit set_net set_optimizer].
  by rewrite !framework_calls_app, Hc.
Qed.

(** A computation that returns [a] and adds nothing but progress records. *)
Lemma alike_quiet {A} (m1 m2 : M A) (a : A) :
  (∀ w, ∃ w', m1 w = (Ok a, w') ∧ same_run w w') →
  (∀ w, ∃ w', m2 w = (Ok a, w') ∧ same_run w w') →
  alike m1 m2.
Proof.
  intros H1 H2 w1 w2 [Hs Hc].
  destruct (H1 w1) as (w1' & -> & Hs1 & Hc1), (H2 w2) as (w2' & -> & Hs2 & Hc2).
  simpl. split; [done|]. split; [|congruence].
  destruct Hs as (?&?&?&?&?&?&?&?), Hs1 as (?&?&?&?&?&?&?&?), Hs2 as (?&?&?&?&?&?&?&?).
  repeat split; congruence.
Qed.

Lemma progress_quiet (total_loss : F) (batch_n n_samples : nat) (X : list Sample)
    epoch log_freq w :
  log_freq ≠ 0%Z →
  ∃ w',
    bind (if decide (batch_n ≠ 0) then divides log_freq batch_n else ret false)
      (λ log : bool,
         bind (if log then
                 bind (pydiv total_loss batch_n)
                   (λ avg_loss,
                      bind (act (emit (EProgress avg_loss (batch_n * length X) n_samples)))
                        (λ _, add_scalar "training loss" avg_loss
                                (epoch * Z.of_nat n_samples
                                 + Z.of_nat (batch_n * length X))%Z))
               else ret tt)
           (λ _, ret (total_loss, batch_n + 1))) w
    = (Ok (total_loss, batch_n + 1), w') ∧
    same_run w w'.
Proof.
  intros Hlf. destruct (decide (batch_n ≠ 0)) as [Hbn|Hbn].
  - unfold divides. rewrite decide_False by done.
    erewrite bind_ok by reflexivity.
    case_bool_decide.
    + rewrite (bind_ok _ _ tt w
                 (emit (EAddScalar "training loss"
                          (fdiv total_loss (of_Z (Z.of_nat batch_n)))
                          (epoch * Z.of_nat n_samples + Z.of_nat (batch_n * length X))%Z)
                    (emit (EProgress (fdiv total_loss (of_Z (Z.of_nat batch_n)))
                             (batch_n * length X) n_samples) w))).
      * eexists. split; [reflexivity|]. split; [by repeat split|].
        cbn [events emit]. by rewrite !framework_calls_app, !app_nil_r.
      * erewrite bind_ok by (by apply pydiv_nonzero). reflexivity.
    + erewrite bind_ok by reflexivity. eexists. split; [reflexivity|].
      by repeat split.
  - erewrite bind_ok by reflexivity. erewrite bind_ok by reflexivity.
    eexists. split; [reflexivity|]. by repeat split.
Qed.

Lemma alike_train_bucket cb loss_fn n_samples e1 e2 lf1 lf2 k st :
  lf1 ≠ 0%Z → lf2 ≠ 0%Z →
  alike (train_bucket cb loss_fn n_samples e1 lf1 k st)
        (train_bucket cb loss_fn n_samples e2 lf2 k st).
Proof.
  intros Hlf1 Hlf2. destruct st as [tl bn]. unfold train_bucket.
  apply alike_bind; [apply alike_getitem|]. intros [[X y]|]; [|apply alike_ret].
  apply alike_bind; [apply alike_call_model|]. intros pred.
  apply alike_bind; [apply alike_call_loss|]. intros loss.
  apply alike_bind; [apply alike_optimizer_zero_grad|]. intros _.
  apply alike_bind; [apply alike_loss_backward|]. intros _.
  apply alike_bind; [apply alike_optimizer_step|]. intros _.
  apply (alike_quiet _ _ (fadd tl loss, bn + 1)); intros w.
  - by apply (progress_quiet (fadd tl loss) bn n_samples X e1 lf1 w).
  - by apply (progress_quiet (fadd tl loss) bn n_samples X e2 lf2 w).
Qed.

Lemma alike_train cl loss_fn e1 e2 lf1 lf2 :
  lf1 ≠ 0%Z → lf2 ≠ 0%Z →
  alike (train cl loss_fn e1 lf1) (train cl loss_fn e2 lf2).
Proof.
  intros Hlf1 Hlf2. unfold train.
  apply alike_bind.
  { intros w1 w2 [Hs Hc]. unfold model_train, act. simpl. split; [done|].
    destruct Hs as (Hn & Ho & Hg & He & Hr & Hcl & Ht & Hf).
    split; [|done]. repeat split; simpl; congruence. }
  intros _. apply alike_bind.
  - apply alike_for_each. intros cb [[tl order] bn]. unfold train_step.
    apply alike_bind; [apply alike_random_shuffle|]. intros order'.
    apply alike_bind.
    + apply alike_for_each. intros k st. by apply alike_train_bucket.
    + intros [tl' bn']. apply alike_ret.
  - intros [[tl order] bn]. apply alike_pydiv.
Qed.

(** X6.  The value that [train] returns, the network, the optimiser and
    the random generator it leaves, and the calls it makes into the
    framework do not depend on the epoch number or on the log interval,
    as long as the interval is not zero: they only decide which progress
    records are written. *)
Theorem X6_logging_does_not_touch_training cl loss_fn e1 e2 lf1 lf2 w :
  lf1 ≠ 0%Z → lf2 ≠ 0%Z →
  let out1 := train cl loss_fn e1 lf1 w in
  let out2 := train cl loss_fn e2 lf2 w in
  out1.1 = out2.1 ∧
  same_state out1.2 out2.2 ∧
  framework_calls (new_events w out1.2) = framework_calls (new_events w out2.2).
Proof.
  intros Hlf1 Hlf2 out1 out2.
  destruct (alike_train cl loss_fn e1 e2 lf1 lf2 Hlf1 Hlf2 w w) as (Hr & Hs & Hc).
  { split; [by repeat split|done]. }
  split; [done|]. split; [done|].
  destruct (steady_train cl loss_fn e1 lf1 w) as [[evs1 Hevs1] _].
  destruct (steady_train cl loss_fn e2 lf2 w) as [[evs2 Hevs2] _].
  unfold out1, out2. rewrite (new_events_app _ _ _ Hevs1), (new_events_app _ _ _ Hevs2).
  rewrite Hevs1, Hevs2, !framework_calls_app in Hc. by apply app_inv_head in Hc.
Qed.

End Edges.

(** ** The run of [main] *)

Section Run.
Context `{Fw : Framework}.
Implicit Types (w : World) (cl : gmap string Loader) (rs : list Processed).

Lemma write_scalars_run (metrics : list (string * F)) epoch w :
  ∃ w',
    write_scalars metrics epoch w = (Ok tt, w') ∧
    events w' = events w ++ ((λ mv, EAddScalar mv.1 mv.2 epoch) <$> metrics) ∧
    same_state w w'.
Proof.
  unfold write_scalars. revert w.
  induction metrics as [|[tag v] metrics IH]; intros w.
  - exists w. rewrite app_nil_r. by repeat split.
  - rewrite for_each_cons. unfold add_scalar, act. cbn beta iota.
    destruct (IH (emit (EAddScalar tag v epoch) w)) as (w' & Hrun & Hev & Hs).
    exists w'. split; [done|]. split; [rewrite Hev; simpl; by rewrite <-app_assoc|].
    destruct Hs as (?&?&?&?&?&?&?&?). by repeat split.
Qed.

Lemma scalars_app tag (evs1 evs2 : list Event) :
  scalars tag (evs1 ++ evs2) = scalars tag evs1 ++ scalars tag evs2.
Proof. apply omap_app. Qed.

Lemma saved_paths_app (evs1 evs2 : list Event) :
  saved_paths (evs1 ++ evs2) = saved_paths evs1 ++ saved_paths evs2.
Proof. apply omap_app. Qed.

Lemma scalars_other_train_trace tag g n_samples epoch log_freq tl bn rs :
  tag ≠ "training loss" →
  scalars tag (train_trace g n_samples epoch log_freq tl bn rs) = [].
Proof.
  intros Htag. revert tl bn.
  induction rs as [|[[[X y] pred] v] rs IH]; intros tl bn; [done|].
  cbn [train_trace train_batch_events]. rewrite !scalars_app, IH.
  destruct (logs_at log_freq bn); [|done].
  unfold scalars. simpl. by rewrite decide_False by done.
Qed.

Lemma saved_paths_train_trace g n_samples epoch log_freq tl bn rs :
  saved_paths (train_trace g n_samples epoch log_freq tl bn rs) = [].
Proof.
  revert tl bn. induction rs as [|[[[X y] pred] v] rs IH]; intros tl bn; [done|].
  cbn [train_trace train_batch_events]. rewrite !saved_paths_app, IH.
  by destruct (logs_at log_freq bn).
Qed.

Lemma scalars_validate_trace tag rs : scalars tag (validate_trace rs) = [].
Proof.
  induction rs as [|r rs IH]; [done|].
  rewrite validate_trace_cons. done.
Qed.

Lemma saved_paths_validate_trace rs : saved_paths (validate_trace rs) = [].
Proof.
  induction rs as [|r rs IH]; [done|].
  rewrite validate_trace_cons. done.
Qed.

Lemma validate_result_nonzero cl rs w :
  count_batches_in_combined_loader cl ≠ 0 →
  count_samples_in_combined_loader cl ≠ 0 →
  validate_result cl rs w
  = (Ok (fdiv (fsum (of_Z 0) rs.*2)
              (of_Z (Z.of_nat (count_batches_in_combined_loader cl))),
         fmul (fdiv (fsum (of_Z 0) (correct_of <$> rs))
                    (of_Z (Z.of_nat (count_samples_in_combined_loader cl))))
              (of_Z 100)), w).
Proof. intros Hb Hs. unfold validate_result, bind. by rewrite !pydiv_nonzero. Qed.

Lemma save_checkpoints_files exp_dir exp_id start_epoch t val_acc st w :
  files (save_checkpoints exp_dir exp_id start_epoch t val_acc st w).2
    !! latest_path exp_dir exp_id
  = Some (state_dict (net w)).
Proof.
  destruct st as [best_acc best_epoch].
  unfold save_checkpoints, bind, ask, torch_save, act, ret, latest_path.
  destruct (fgt val_acc best_acc); cbn [snd files emit set_files net];
    by rewrite lookup_insert_eq.
Qed.

Lemma epoch_run (train_loader val_loader : gmap string Loader) loss_fn
    exp_dir exp_id start_epoch t st w :
  (∀ k, k ∈ hardcoded → is_Some (train_loader !! k)) →
  (∀ k, k ∈ hardcoded → is_Some (val_loader !! k)) →
  count_batches_in_combined_loader train_loader ≠ 0 →
  count_batches_in_combined_loader val_loader ≠ 0 →
  count_samples_in_combined_loader val_loader ≠ 0 →
  ∃ st' w' evs,
    epoch train_loader val_loader loss_fn exp_dir exp_id start_epoch t st w
    = (Ok st', w') ∧
    events w' = events w ++ evs ∧
    (scalars "val_acc" evs).*2 = [t] ∧
    last (saved_paths evs) = Some (latest_path exp_dir exp_id) ∧
    files w' !! latest_path exp_dir exp_id = Some (state_dict (net w')).
Proof.
  intros Hkt Hkv Hbt Hbv Hsv. unfold epoch.
  erewrite bind_ok by reflexivity.
  set (w0 := set_ticks (S (ticks w)) w).
  destruct (train_run train_loader loss_fn t 100 w0 ltac:(lia) Hkt)
    as (rs & w1 & Hrun1 & _ & _ & Hev1 & _).
  erewrite bind_ok by (rewrite Hrun1; by apply pydiv_nonzero).
  erewrite bind_ok by reflexivity.
  set (w1' := set_ticks (S (ticks w1)) w1).
  destruct (validate_run val_loader loss_fn w1' Hkv)
    as (rs' & w2 & Hrun2 & _ & _ & Hev2 & _).
  erewrite bind_ok by (rewrite Hrun2; by apply validate_result_nonzero).
  cbn beta iota.
  erewrite bind_ok by reflexivity.
  set (w2' := set_ticks (S (ticks w2)) w2).
  match goal with
  | |- context [write_scalars ?ms t] =>
      destruct (write_scalars_run ms t w2') as (w3 & Hrun3 & Hev3 & Hs3)
  end.
  erewrite bind_ok by exact Hrun3.
  destruct st as [best_acc best_epoch].
  match goal with
  | |- context [save_checkpoints _ _ _ _ ?acc _ w3] =>
      destruct (save_checkpoints_run exp_dir exp_id start_epoch t acc
                  best_acc best_epoch w3) as (w4 & Hrun4 & Hev4 & Hnet4);
      pose proof (save_checkpoints_files exp_dir exp_id start_epoch t acc
                    (best_acc, best_epoch) w3) as Hfiles
  end.
  rewrite Hrun4 in Hfiles |- *. simpl in Hfiles.
  eexists _, w4, _. split; [reflexivity|].
  split.
  { rewrite Hev4, Hev3. unfold w2'. cbn [events set_ticks]. rewrite Hev2.
    unfold w1'. cbn [events set_ticks]. rewrite Hev1. unfold w0.
    cbn [events set_ticks]. rewrite <-!app_assoc. reflexivity. }
  split; [|split].
  - rewrite !scalars_app, scalars_other_train_trace, scalars_validate_trace by done.
    destruct (fgt _ best_acc); reflexivity.
  - rewrite !saved_paths_app, saved_paths_train_trace, saved_paths_validate_trace.
    destruct (fgt _ best_acc); reflexivity.
  - by rewrite Hfiles, Hnet4.
Qed.


Lemma epochs_run (train_loader val_loader : gmap string Loader) loss_fn
    exp_dir exp_id start_epoch ts :
  (∀ k, k ∈ hardcoded → is_Some (train_loader !! k)) →
  (∀ k, k ∈ hardcoded → is_Some (val_loader !! k)) →
  count_batches_in_combined_loader train_loader ≠ 0 →
  count_batches_in_combined_loader val_loader ≠ 0 →
  count_samples_in_combined_loader val_loader ≠ 0 →
  ∀ st w,
    ∃ st' w' evs,
      for_each ts (epoch train_loader val_loader loss_fn exp_dir exp_id start_epoch) st w
      = (Ok st', w') ∧
      events w' = events w ++ evs ∧
      (scalars "val_acc" evs).*2 = ts ∧
      (ts = [] → evs = [] ∧ w' = w) ∧
      (ts ≠ [] →
       last (saved_paths evs) = Some (latest_path exp_dir exp_id) ∧
       files w' !! latest_path exp_dir exp_id = Some (state_dict (net w'))).
Proof.
  intros Hkt Hkv Hbt Hbv Hsv. induction ts as [|t ts IH]; intros st w.
  - exists st, w, []. rewrite app_nil_r. by repeat split.
  - destruct (epoch_run train_loader val_loader loss_fn exp_dir exp_id start_epoch
                t st w Hkt Hkv Hbt Hbv Hsv)
      as (st1 & w1 & evs1 & Hrun1 & Hev1 & Hsc1 & Hlast1 & Hf1).
    destruct (IH st1 w1) as (st' & w' & evs2 & Hrun2 & Hev2 & Hsc2 & Hnil & Hcons).
    exists st', w', (evs1 ++ evs2). rewrite for_each_cons, Hrun1.
    split; [done|]. split; [by rewrite Hev2, Hev1, app_assoc|].
    split; [by rewrite scalars_app, fmap_app, Hsc1, Hsc2|].
    split; [done|]. intros _. destruct ts as [|t' ts].
    + destruct Hnil as [-> ->]; [done|]. by rewrite app_nil_r.
    + destruct Hcons as [Hl Hf]; [done|]. split; [|done].
      by rewrite saved_paths_app, last_app, Hl.
Qed.

Lemma py_range_nil a b : (b ≤ a)%Z → py_range a b = [].
Proof. intros Hab. unfold py_range. by replace (Z.to_nat (b - a)) with 0 by lia. Qed.

Lemma py_range_not_nil a b : (a < b)%Z → py_range a b ≠ [].
Proof.
  intros Hab. unfold py_range.
  destruct (Z.to_nat (b - a)) as [|n] eqn:Hn; [lia|done].
Qed.

(** X7.  Let the configured model kind be one that [main] knows, let the
    snapshot file exist when one is named, let the starting epoch be
    consistent with it, and let the training loaders hold a batch and the
    validation loaders a batch and a sample.  Then [main] runs to its end:
    it writes the metrics of the epochs [start_epoch], ...,
    [n_epochs - 1], one after the other; if there is such an epoch, the
    last file it writes is the latest snapshot, and that file holds the
    parameters of the network as [main] leaves it; if there is none, no
    call to the model, no scalar and no file follows the summary of the
    model. *)
Theorem X7_main_runs_to_its_end site exp_dir data_dir argv3 config_file start_epoch w :
  let config := get_config site config_file in
  let train_loader := combined_loader site data_dir "train" config true in
  let val_loader := combined_loader site data_dir "val" config false in
  let latest := latest_path exp_dir (last_segment exp_dir) in
  model_kind config ∈ supported →
  (argv3 ≠ "None" → is_Some (files w !! (exp_dir +:+ "/" +:+ argv3))) →
  consistent argv3 start_epoch →
  count_batches_in_combined_loader train_loader ≠ 0 →
  count_batches_in_combined_loader val_loader ≠ 0 →
  count_samples_in_combined_loader val_loader ≠ 0 →
  let out := main site exp_dir data_dir argv3 config_file start_epoch w in
  let new := new_events w out.2 in
  out.1 = Ok tt ∧
  (scalars "val_acc" new).*2 = py_range start_epoch (n_epochs config) ∧
  ((start_epoch < n_epochs config)%Z →
   last (saved_paths new) = Some latest ∧
   files out.2 !! latest = Some (state_dict (net out.2))) ∧
  ((n_epochs config ≤ start_epoch)%Z → new = [ESummary]).
Proof.
  intros config train_loader val_loader latest Hkind Hfile Hc Hbt Hbv Hsv out new.
  destruct (define_model_supported site config w Hkind) as [m Hdef].
  destruct (restore_checkpoint_run exp_dir argv3 start_epoch (set_net m w) Hfile)
    as (w1 & Hev1 & Hres).
  destruct (consistent_dec argv3 start_epoch) as [_|]; [|done].
  set (w2 := set_optimizer (new_adam (net (emit ESummary w1)) (learning_rate config))
               (emit ESummary w1)).
  destruct (epochs_run train_loader val_loader cross_entropy_loss exp_dir
              (last_segment exp_dir) start_epoch
              (py_range start_epoch (n_epochs config))
              (three_keys _ _ _) (three_keys _ _ _) Hbt Hbv Hsv (of_Z 0, 0%Z) w2)
    as ([best_acc best_epoch] & w' & evs & Hrun & Hev & Hsc & Hnil & Hcons).
  assert (Hout : out = (Ok tt, w')).
  { unfold out, main. fold config.
    erewrite bind_ok by exact Hdef.
    erewrite bind_ok by exact Hres.
    erewrite bind_ok by reflexivity.
    erewrite bind_ok by reflexivity.
    erewrite bind_ok by reflexivity.
    erewrite bind_ok by reflexivity.
    erewrite bind_ok by exact Hrun. reflexivity. }
  assert (Hnew : new = ESummary :: evs).
  { unfold new. rewrite Hout. apply new_events_app. simpl.
    rewrite Hev. unfold w2. simpl. by rewrite Hev1, <-app_assoc. }
  rewrite Hnew, Hout. cbn [fst snd]. split; [done|]. split; [done|]. split.
  - intros Hlt. destruct Hcons as [Hl Hf]; [by apply py_range_not_nil|].
    split; [|done]. change (ESummary :: evs) with ([ESummary] ++ evs).
    by rewrite saved_paths_app, last_app, Hl.
  - intros Hle. destruct Hnil as [-> _]; [by apply py_range_nil|]. done.
Qed.

(** *** Checkpoints along the run *)

Lemma epoch_checkpoints (train_loader val_loader : gmap string Loader) loss_fn
    exp_dir exp_id start_epoch t best_acc best_epoch w :
  (∀ k, k ∈ hardcoded → is_Some (train_loader !! k)) →
  (∀ k, k ∈ hardcoded → is_Some (val_loader !! k)) →
  count_batches_in_combined_loader train_loader ≠ 0 →
  count_batches_in_combined_loader val_loader ≠ 0 →
  count_samples_in_combined_loader val_loader ≠ 0 →
  let trained := (train train_loader loss_fn t 100 (set_ticks (S (ticks w)) w)).2 in
  let validated := validate val_loader loss_fn (set_ticks (S (ticks trained)) trained) in
  ∃ val_loss val_acc w' before,
    validated.1 = Ok (val_loss, val_acc) ∧
    epoch train_loader val_loader loss_fn exp_dir exp_id start_epoch t
      (best_acc, best_epoch) w
    = (Ok (if fgt val_acc best_acc then (val_acc, t) else (best_acc, best_epoch)), w') ∧
    events w' = events w ++ before ++
      (if fgt val_acc best_acc
       then [ESave (best_path exp_dir exp_id start_epoch) (state_dict (net validated.2))]
       else []) ++
      [ESave (latest_path exp_dir exp_id) (state_dict (net validated.2))] ∧
    saved_paths before = [] ∧
    scalars "val_acc" before = [(val_acc, t)].
Proof.
  intros Hkt Hkv Hbt Hbv Hsv trained validated. unfold epoch.
  erewrite bind_ok by reflexivity.
  set (w0 := set_ticks (S (ticks w)) w) in *.
  destruct (train_run train_loader loss_fn t 100 w0 ltac:(lia) Hkt)
    as (rs & w1 & Hrun1 & _ & _ & Hev1 & _).
  rewrite pydiv_nonzero in Hrun1 by done.
  erewrite bind_ok by exact Hrun1.
  erewrite bind_ok by reflexivity.
  assert (Htr : trained = w1) by (unfold trained; by rewrite Hrun1).
  set (w1' := set_ticks (S (ticks w1)) w1).
  destruct (validate_run val_loader loss_fn w1' Hkv)
    as (rs' & w2 & Hrun2 & _ & _ & Hev2 & _).
  rewrite validate_result_nonzero in Hrun2 by done.
  erewrite bind_ok by exact Hrun2.
  assert (Hva : validated = (Ok (fdiv (fsum (of_Z 0) rs'.*2)
              (of_Z (Z.of_nat (count_batches_in_combined_loader val_loader))),
         fmul (fdiv (fsum (of_Z 0) (correct_of <$> rs'))
                    (of_Z (Z.of_nat (count_samples_in_combined_loader val_loader))))
              (of_Z 100)), w2)).
  { unfold validated. rewrite Htr. exact Hrun2. }
  rewrite Hva. clear Hva Htr. clearbody trained. clear validated trained.
  cbn beta iota. cbn [fst snd].
  erewrite bind_ok by reflexivity.
  set (w2' := set_ticks (S (ticks w2)) w2).
  match goal with
  | |- context [write_scalars ?ms t] =>
      set (metrics := ms);
      destruct (write_scalars_run metrics t w2') as (w3 & Hrun3 & Hev3 & Hs3)
  end.
  erewrite bind_ok by exact Hrun3.
  assert (Hnet3 : net w3 = net w2).
  { destruct Hs3 as (Hn & _). rewrite <-Hn. reflexivity. }
  match goal with
  | |- context [save_checkpoints _ _ _ _ ?acc _ w3] =>
      destruct (save_checkpoints_run exp_dir exp_id start_epoch t acc
                  best_acc best_epoch w3) as (w4 & Hrun4 & Hev4 & _)
  end.
  rewrite Hnet3 in Hev4.
  eexists _, _, w4,
    (train_trace (grad_enabled w0) (count_samples_in_combined_loader train_loader)
       t 100 (of_Z 0) 0 rs ++
     validate_trace rs' ++
     ((λ mv : string * F, EAddScalar mv.1 mv.2 t) <$> metrics)).
  split; [reflexivity|]. split; [exact Hrun4|].
  split.
  { rewrite Hev4, Hev3. unfold w2'. cbn [events set_ticks]. rewrite Hev2.
    unfold w1'. cbn [events set_ticks]. rewrite Hev1. unfold w0.
    cbn [events set_ticks]. rewrite <-!app_assoc. reflexivity. }
  split.
  - rewrite !saved_paths_app, saved_paths_train_trace, saved_paths_validate_trace.
    reflexivity.
  - rewrite !scalars_app, scalars_other_train_trace, scalars_validate_trace by done.
    reflexivity.
Qed.

Lemma epochs_checkpoints (train_loader val_loader : gmap string Loader) loss_fn
    exp_dir exp_id start_epoch ts :
  (∀ k, k ∈ hardcoded → is_Some (train_loader !! k)) →
  (∀ k, k ∈ hardcoded → is_Some (val_loader !! k)) →
  count_batches_in_combined_loader train_loader ≠ 0 →
  count_batches_in_combined_loader val_loader ≠ 0 →
  count_samples_in_combined_loader val_loader ≠ 0 →
  ∀ best_acc best_epoch w,
    ∃ st' w' evs,
      for_each ts (epoch train_loader val_loader loss_fn exp_dir exp_id start_epoch)
        (best_acc, best_epoch) w
      = (Ok st', w') ∧
      events w' = events w ++ evs ∧
      (scalars "val_acc" evs).*2 = ts ∧
      saved_paths evs
      = improvements best_acc (scalars "val_acc" evs).*1 ≫= λ improved : bool,
          (if improved then [best_path exp_dir exp_id start_epoch] else []) ++
          [latest_path exp_dir exp_id].
Proof.
  intros Hkt Hkv Hbt Hbv Hsv.
  induction ts as [|t ts IH]; intros best_acc best_epoch w.
  - exists (best_acc, best_epoch), w, []. rewrite app_nil_r. by repeat split.
  - destruct (epoch_checkpoints train_loader val_loader loss_fn exp_dir exp_id
                start_epoch t best_acc best_epoch w Hkt Hkv Hbt Hbv Hsv)
      as (val_loss & val_acc & w1 & before & _ & Hrun1 & Hev1 & Hsaved1 & Hsc1).
    set (st1 := if fgt val_acc best_acc then (val_acc, t) else (best_acc, best_epoch))
      in *.
    destruct (IH st1.1 st1.2 w1) as (st' & w' & evs2 & Hrun2 & Hev2 & Hsc2 & Hsaved2).
    rewrite <-surjective_pairing in Hrun2.
    match type of Hev1 with
    | _ = _ ++ _ ++ ?cp =>
        assert (Hcp : scalars "val_acc" cp = [] ∧
                      saved_paths cp
                      = (if fgt val_acc best_acc
                         then [best_path exp_dir exp_id start_epoch] else []) ++
                        [latest_path exp_dir exp_id])
          by (by destruct (fgt val_acc best_acc));
        generalize dependent cp
    end.
    intros cp Hev1 [Hcp1 Hcp2].
    exists st', w', (before ++ cp ++ evs2). rewrite for_each_cons, Hrun1.
    split; [exact Hrun2|]. split; [by rewrite Hev2, Hev1, <-!app_assoc|].
    rewrite !scalars_app, Hsc1, Hcp1. cbn [app fmap list_fmap fst snd].
    split; [by rewrite Hsc2|].
    rewrite !saved_paths_app, Hsaved1, Hcp2, Hsaved2.
    cbn [improvements mbind list_bind app].
    replace st1.1 with (if fgt val_acc best_acc then val_acc else best_acc)
      by (unfold st1; by destruct (fgt val_acc best_acc)).
    by destruct (fgt val_acc best_acc).
Qed.

Lemma best_records_grow (best_acc b : F) (accs : list F) :
  (∀ x y z : F, fgt x y = true → fgt y z = true → fgt x z = true) →
  b ∈ best_records best_acc accs → b = best_acc ∨ fgt b best_acc = true.
Proof.
  intros Htrans. revert best_acc.
  induction accs as [|acc accs IH]; intros best_acc Hb; [by apply elem_of_nil in Hb|].
  cbn [best_records] in Hb. apply elem_of_cons in Hb as [->|Hb].
  - destruct (fgt acc best_acc) eqn:Hgt; auto.
  - apply IH in Hb. destruct (fgt acc best_acc) eqn:Hgt; [|done].
    destruct Hb as [->|Hb]; [by right|]. right. by apply Htrans with acc.
Qed.

Lemma best_records_drop (best_acc b : F) (accs : list F) j :
  (best_acc :: best_records best_acc accs) !! j = Some b →
  drop (S j) (best_acc :: best_records best_acc accs) = best_records b (drop j accs).
Proof.
  revert best_acc accs. induction j as [|j IH]; intros best_acc accs Hj.
  - injection Hj as <-. by rewrite drop_0.
  - destruct accs as [|acc accs]; [done|]. cbn [best_records] in Hj |- *.
    apply (IH _ accs) in Hj. exact Hj.
Qed.

(** C2.  Let the configured model kind be one that [main] knows, let the
    snapshot file exist when one is named, let the starting epoch be
    consistent with it, and let the training loaders hold a batch and the
    validation loaders a batch and a sample.  Then, first, every epoch of
    the loop of [main] checkpoints on its own validation accuracy: with
    [val_acc] the accuracy that the call to [validate] of this epoch
    returns, the epoch logs it as the scalar [val_acc] of the epoch, writes
    no file before it has it, then writes the best snapshot exactly when
    [val_acc] is greater than the best recorded so far, in which case
    [val_acc] and the epoch become the record, and then, in either case,
    the latest snapshot; both files hold the parameters of the network as
    validation left it.  Second, [main] runs the epochs [start_epoch], ...,
    [n_epochs - 1] from the record 0, and the files it writes are, epoch by
    epoch, the best file at the epochs whose accuracy is greater than every
    record before, and the latest file at every epoch.  Third, the record
    never decreases across the run: where the comparison of the scalars is
    transitive, the record after a later epoch is the record after an
    earlier one, or a greater value. *)
Theorem C2_checkpoint_selection site exp_dir data_dir argv3 config_file start_epoch w :
  let config := get_config site config_file in
  let train_loader := combined_loader site data_dir "train" config true in
  let val_loader := combined_loader site data_dir "val" config false in
  let exp_id := last_segment exp_dir in
  let best := best_path exp_dir exp_id start_epoch in
  let latest := latest_path exp_dir exp_id in
  model_kind config ∈ supported →
  (argv3 ≠ "None" → is_Some (files w !! (exp_dir +:+ "/" +:+ argv3))) →
  consistent argv3 start_epoch →
  count_batches_in_combined_loader train_loader ≠ 0 →
  count_batches_in_combined_loader val_loader ≠ 0 →
  count_samples_in_combined_loader val_loader ≠ 0 →
  (∀ t best_acc best_epoch w0,
     let trained :=
       (train train_loader cross_entropy_loss t 100 (set_ticks (S (ticks w0)) w0)).2 in
     let validated :=
       validate val_loader cross_entropy_loss (set_ticks (S (ticks trained)) trained) in
     let out :=
       epoch train_loader val_loader cross_entropy_loss exp_dir exp_id start_epoch t
         (best_acc, best_epoch) w0 in
     ∃ val_loss val_acc before,
       validated.1 = Ok (val_loss, val_acc) ∧
       out.1 = Ok (if fgt val_acc best_acc then (val_acc, t) else (best_acc, best_epoch)) ∧
       new_events w0 out.2
       = before ++
         (if fgt val_acc best_acc
          then [ESave best (state_dict (net validated.2))] else []) ++
         [ESave latest (state_dict (net validated.2))] ∧
       saved_paths before = [] ∧
       scalars "val_acc" before = [(val_acc, t)]) ∧
  let out := main site exp_dir data_dir argv3 config_file start_epoch w in
  let new := new_events w out.2 in
  let accs := (scalars "val_acc" new).*1 in
  let records := of_Z 0 :: best_records (of_Z 0) accs in
  out.1 = Ok tt ∧
  (scalars "val_acc" new).*2 = py_range start_epoch (n_epochs config) ∧
  saved_paths new
  = (improvements (of_Z 0) accs ≫= λ improved : bool,
       (if improved then [best] else []) ++ [latest]) ∧
  ((∀ x y z : F, fgt x y = true → fgt y z = true → fgt x z = true) →
   ∀ j k b_j b_k,
     j ≤ k → records !! j = Some b_j → records !! k = Some b_k →
     b_k = b_j ∨ fgt b_k b_j = true).
Proof.
  intros config train_loader val_loader exp_id best latest Hkind Hfile Hc Hbt Hbv Hsv.
  split.
  { intros t best_acc best_epoch w0 trained validated out.
    destruct (epoch_checkpoints train_loader val_loader cross_entropy_loss exp_dir
                exp_id start_epoch t best_acc best_epoch w0
                (three_keys _ _ _) (three_keys _ _ _) Hbt Hbv Hsv)
      as (val_loss & val_acc & w' & before & Hval & Hrun & Hev & Hsaved & Hsc).
    exists val_loss, val_acc, before. unfold out. rewrite Hrun. cbn [fst snd].
    split; [exact Hval|]. split; [done|]. split; [|done].
    by apply new_events_app. }
  intros out new accs records.
  destruct (define_model_supported site config w Hkind) as [m Hdef].
  destruct (restore_checkpoint_run exp_dir argv3 start_epoch (set_net m w) Hfile)
    as (w1 & Hev1 & Hres).
  destruct (consistent_dec argv3 start_epoch) as [_|]; [|done].
  set (w2 := set_optimizer (new_adam (net (emit ESummary w1)) (learning_rate config))
               (emit ESummary w1)).
  destruct (epochs_checkpoints train_loader val_loader cross_entropy_loss exp_dir
              exp_id start_epoch (py_range start_epoch (n_epochs config))
              (three_keys _ _ _) (three_keys _ _ _) Hbt Hbv Hsv (of_Z 0) 0%Z w2)
    as ([best_acc best_epoch] & w' & evs & Hrun & Hev & Hsc & Hsaved).
  assert (Hout : out = (Ok tt, w')).
  { unfold out, main. fold config.
    erewrite bind_ok by exact Hdef.
    erewrite bind_ok by exact Hres.
    erewrite bind_ok by reflexivity.
    erewrite bind_ok by reflexivity.
    erewrite bind_ok by reflexivity.
    erewrite bind_ok by reflexivity.
    erewrite bind_ok by exact Hrun. reflexivity. }
  assert (Hnew : new = ESummary :: evs).
  { unfold new. rewrite Hout. apply new_events_app. simpl.
    rewrite Hev. unfold w2. simpl. by rewrite Hev1, <-app_assoc. }
  assert (Haccs : accs = (scalars "val_acc" evs).*1).
  { unfold accs. rewrite Hnew. reflexivity. }
  split; [by rewrite Hout|]. split; [by rewrite Hnew|]. split.
  - rewrite Haccs, Hnew. exact Hsaved.
  - intros Htrans j k b_j b_k Hjk Hj Hk.
    destruct (decide (j = k)) as [->|Hne]; [left; congruence|].
    apply (best_records_grow _ _ (drop j accs) Htrans).
    rewrite <-(best_records_drop _ _ _ _ Hj).
    apply list_elem_of_lookup. exists (k - S j). rewrite lookup_drop.
    by replace (S j + (k - S j)) with k by lia.
Qed.

End Run.

(** ** The scalars of an epoch, the experiment identifier *)

Section Small.
Context `{Fw : Framework}.
Implicit Types (w : World).

Lemma scalars_absent tag (metrics : list (string * F)) epoch :
  tag ∉ metrics.*1 →
  scalars tag ((λ mv, EAddScalar mv.1 mv.2 epoch) <$> metrics) = [].
Proof.
  induction metrics as [|[t0 v0] metrics IH]; [done|].
  rewrite fmap_cons, not_elem_of_cons. intros [Hne Hnot].
  rewrite fmap_cons. unfold scalars in *. cbn [omap list_omap fst snd].
  rewrite decide_False by done. by apply IH.
Qed.

Lemma scalars_present tag v (metrics : list (string * F)) epoch :
  NoDup metrics.*1 → (tag, v) ∈ metrics →
  scalars tag ((λ mv, EAddScalar mv.1 mv.2 epoch) <$> metrics) = [(v, epoch)].
Proof.
  induction metrics as [|[t0 v0] metrics IH]; intros Hnd Hin.
  - by apply elem_of_nil in Hin.
  - rewrite fmap_cons in Hnd. apply NoDup_cons in Hnd as [Hnot Hnd].
    rewrite fmap_cons. unfold scalars in *. cbn [omap list_omap fst snd].
    apply elem_of_cons in Hin as [Heq|Hin].
    + injection Heq as -> ->. rewrite decide_True by done.
      f_equal. by apply scalars_absent.
    + assert (t0 ≠ tag).
      { intros ->. apply Hnot. apply list_elem_of_fmap. by exists (tag, v). }
      rewrite decide_False by done. by apply IH.
Qed.

(** X8.  [write_scalars] returns normally for every dictionary of metrics;
    it adds to the trace one scalar for each metric, in the order of the
    dictionary, all at the step [epoch], and changes nothing else.  As the
    keys of a dictionary are distinct, every metric is found under its
    own tag, once, with its value. *)
Theorem X8_write_scalars (metrics : list (string * F)) epoch w :
  let out := write_scalars metrics epoch w in
  out.1 = Ok tt ∧
  same_state w out.2 ∧
  new_events w out.2 = (λ mv, EAddScalar mv.1 mv.2 epoch) <$> metrics ∧
  (NoDup metrics.*1 →
   ∀ tag v, (tag, v) ∈ metrics → scalars tag (new_events w out.2) = [(v, epoch)]).
Proof.
  intros out. destruct (write_scalars_run metrics epoch w) as (w' & Hrun & Hev & Hs).
  unfold out. rewrite Hrun. cbn [fst snd]. rewrite (new_events_app _ _ _ Hev).
  split; [done|]. split; [done|]. split; [done|].
  intros Hnd tag v Hin. by apply scalars_present.
Qed.

Lemma string_app_cons c (s t : string) : String c s +:+ t = String c (s +:+ t).
Proof. reflexivity. Qed.

Lemma string_app_nil_r (s : string) : s +:+ "" = s.
Proof. induction s as [|c s IH]; [done|]. by rewrite string_app_cons, IH. Qed.

Lemma string_app_assoc (s t u : string) : (s +:+ t) +:+ u = s +:+ t +:+ u.
Proof. induction s as [|c s IH]; [done|]. by rewrite !string_app_cons, IH. Qed.

Lemma contains_app c (s t : string) : contains c (s +:+ t) = contains c s || contains c t.
Proof.
  induction s as [|c' s IH]; [done|].
  rewrite string_app_cons. cbn [contains]. by rewrite IH, orb_assoc.
Qed.

Lemma last_segment_from_no_slash (s acc : string) :
  contains "/" acc = false → contains "/" (last_segment_from acc s) = false.
Proof.
  revert acc. induction s as [|c s IH]; intros acc Hacc; [done|].
  cbn [last_segment_from]. case_decide as Hc; apply IH; [done|].
  rewrite contains_app, Hacc. cbn [contains].
  by rewrite bool_decide_eq_false_2.
Qed.

Lemma last_segment_from_suffix (s acc : string) :
  ∃ p, acc +:+ s = p +:+ last_segment_from acc s ∧
       (p = "" ∨ ∃ p', p = p' +:+ "/").
Proof.
  revert acc. induction s as [|c s IH]; intros acc.
  - exists "". split; [by rewrite string_app_nil_r|by left].
  - cbn [last_segment_from]. case_decide as Hc.
    + subst c. destruct (IH "") as (p & Heq & Hp).
      change ("" +:+ s) with s in Heq.
      exists (acc +:+ "/" +:+ p). split.
      * rewrite !string_app_assoc. f_equal.
        change (String "/" s = "/" +:+ p +:+ last_segment_from "" s).
        by rewrite <-Heq.
      * right. destruct Hp as [->|[p' ->]].
        -- exists acc. done.
        -- exists (acc +:+ "/" +:+ p'). by rewrite !string_app_assoc.
    + destruct (IH (acc +:+ String c "")) as (p & Heq & Hp).
      exists p. split; [|done]. rewrite <-Heq. by rewrite string_app_assoc.
Qed.

Lemma last_segment_from_trailing (s acc : string) :
  last_segment_from acc (s +:+ "/") = "".
Proof.
  revert acc. induction s as [|c s IH]; intros acc; [done|].
  rewrite string_app_cons. cbn [last_segment_from]. case_decide; apply IH.
Qed.

Lemma last_segment_from_plain (s acc : string) :
  contains "/" s = false → last_segment_from acc s = acc +:+ s.
Proof.
  revert acc. induction s as [|c s IH]; intros acc Hs.
  - by rewrite string_app_nil_r.
  - cbn [contains] in Hs. apply orb_false_iff in Hs as [Hc Hs].
    apply bool_decide_eq_false in Hc.
    cbn [last_segment_from]. rewrite decide_False by done.
    rewrite IH by done. by rewrite string_app_assoc.
Qed.

(** X9.  The experiment identifier, [exp_dir.split('/')[-1]], holds no
    ['/']; the experiment directory is the identifier itself or ends with
    a ['/'] followed by the identifier; a directory written with a trailing
    ['/'] has the empty identifier, and a directory without any ['/'] is
    its own identifier. *)
Theorem X9_experiment_identifier (exp_dir : string) :
  contains "/" (last_segment exp_dir) = false ∧
  (∃ p, exp_dir = p +:+ last_segment exp_dir ∧ (p = "" ∨ ∃ p', p = p' +:+ "/")) ∧
  last_segment (exp_dir +:+ "/") = "" ∧
  (contains "/" exp_dir = false → last_segment exp_dir = exp_dir).
Proof.
  unfold last_segment. split; [by apply last_segment_from_no_slash|].
  split; [apply (last_segment_from_suffix exp_dir "")|].
  split; [apply last_segment_from_trailing|].
  apply (last_segment_from_plain exp_dir "").
Qed.

End Small.

(** ** [test] of [evaluate.py] *)

Section Evaluate.
Context `{Fw : Framework}.
Implicit Types (w : World) (l : Loader) (bs : list Batch).

Lemma test_batch_eq (X : list Sample) (y : list nat) (nc : F) w :
  test_batch (X, y) nc w
  = (Ok (fadd nc (of_Z (Z.of_nat (n_match (forward (grad_enabled w) (net w) X).1 y)))),
     emit (EForward (grad_enabled w) X (forward (grad_enabled w) (net w) X).1)
          (set_net (forward (grad_enabled w) (net w) X).2 w)).
Proof.
  unfold test_batch, bind, call_model, ret.
  by destruct (forward (grad_enabled w) (net w) X) as [pred m].
Qed.

Lemma test_batches bs :
  ∀ (nc : F) w,
    grad_enabled w = false →
    ∃ preds w',
      for_each bs test_batch nc w
      = (Ok (fsum nc ((λ py, of_Z (Z.of_nat (n_match py.1 py.2))) <$> zip preds bs.*2)),
         w') ∧
      length preds = length bs ∧
      events w' = events w ++ zip_with (EForward false) bs.*1 preds ∧
      framed w w' ∧
      optimizer w' = optimizer w.
Proof.
  induction bs as [|[X y] bs IH]; intros nc w Hg.
  - exists [], w. rewrite app_nil_r. split; [done|]. split; [done|].
    split; [done|]. split; [apply framed_refl|done].
  - rewrite for_each_cons, test_batch_eq, Hg.
    destruct (forward false (net w) X) as [pred m] eqn:Hf. cbn [fst snd].
    destruct (IH (fadd nc (of_Z (Z.of_nat (n_match pred y))))
                (emit (EForward false X pred) (set_net m w)) Hg)
      as (preds & w' & Hrun & Hlen & Hev & Hfr & Hopt).
    exists (pred :: preds), w'. rewrite Hrun.
    split; [done|]. split; [by rewrite !length_cons, Hlen|].
    split; [rewrite Hev; cbn [events emit set_net]; by rewrite <-app_assoc|].
    split; [|done]. destruct Hfr as (?&?&?&?&?&?). by repeat split.
Qed.

Lemma fwd_preds_forwards g (Xs : list (list Sample)) (preds : list (list Scores)) :
  length preds = length Xs →
  fwd_preds (zip_with (EForward g) Xs preds) = preds.
Proof.
  revert preds. induction Xs as [|X Xs IH]; intros [|pred preds] Hlen;
    simplify_eq/=; [done|]. f_equal. by apply IH.
Qed.

(** X10.  [test] calls the model once on the input of every batch of the
    loader, in the order of the loader and with gradients disabled, and
    makes no other call.  It returns [n_correct / n_samples * 100], where
    [n_correct] adds up, batch by batch, the number of rows whose [argmax]
    class equals the label and [n_samples] is [len(dataloader.dataset)];
    it ends in a [ZeroDivisionError], after these calls, exactly when that
    length is zero.  It leaves the gradient mode and the optimiser as they
    were. *)
Theorem X10_test_accuracy l w :
  let out := test l w in
  let new := new_events w out.2 in
  new = zip_with (EForward false) (batches l).*1 (fwd_preds new) ∧
  length (fwd_preds new) = loader_len l ∧
  out.1 = (if decide (dataset_len l = 0) then Raise ZeroDivisionError
           else Ok (fmul (fdiv (fsum (of_Z 0)
                                  ((λ py, of_Z (Z.of_nat (n_match py.1 py.2)))
                                   <$> zip (fwd_preds new) (batches l).*2))
                               (of_Z (Z.of_nat (dataset_len l))))
                         (of_Z 100))) ∧
  grad_enabled out.2 = grad_enabled w ∧
  optimizer out.2 = optimizer w.
Proof.
  intros out new.
  set (w0 := set_grad_enabled false (set_net (set_training false (net w)) w)).
  destruct (test_batches (batches l) (of_Z 0) w0 eq_refl)
    as (preds & w1 & Hrun & Hlen & Hev & Hfr & Hopt).
  assert (Hout : out
    = bind (pydiv (fsum (of_Z 0)
                     ((λ py, of_Z (Z.of_nat (n_match py.1 py.2)))
                      <$> zip preds (batches l).*2))
                  (dataset_len l))
           (λ ratio, ret (fmul ratio (of_Z 100)))
           (set_grad_enabled (grad_enabled w) w1)).
  { unfold out, test. erewrite bind_ok by reflexivity.
    unfold bind at 1. unfold no_grad. fold w0. by rewrite Hrun. }
  assert (Hw : out.2 = set_grad_enabled (grad_enabled w) w1).
  { rewrite Hout. unfold bind, pydiv. by destruct (dataset_len l). }
  assert (Hnew : new = zip_with (EForward false) (batches l).*1 preds).
  { unfold new. rewrite Hw. apply new_events_app.
    cbn [events set_grad_enabled]. by rewrite Hev. }
  assert (Hpreds : fwd_preds new = preds).
  { rewrite Hnew. apply fwd_preds_forwards. by rewrite length_fmap. }
  rewrite Hpreds. split; [done|]. split; [by rewrite Hlen|]. split.
  - rewrite Hout. unfold bind, pydiv.
    destruct (dataset_len l) as [|n]; [done|]. by rewrite decide_False by done.
  - rewrite Hw. by split.
Qed.

Lemma keeps_frozen_test_batch w0 (b : Batch) (nc : F) :
  (∀ m X, (forward false (set_training false m) X).2 = set_training false m) →
  keeps (frozen w0) (test_batch b nc).
Proof.
  intros Hpure. destruct b as [X y]. unfold test_batch.
  apply keeps_bind; [|intros pred; apply keeps_ret].
  intros w (Hnet & Hopt & Hg & evs & Hev & Hinf). unfold call_model.
  rewrite Hg, Hnet. specialize (Hpure (net w0) X).
  destruct (forward false (set_training false (net w0)) X) as [pred m].
  simpl in *. subst m. split; [done|]. split; [done|]. split; [done|].
  exists (evs ++ [EForward false X pred]). simpl.
  rewrite Hev, <-app_assoc. split; [done|].
  apply Forall_app. split; [done|]. by constructor.
Qed.

(** X11.  Let the framework keep its word on evaluation mode: switching to
    it does not change the parameter snapshot, and a forward pass in it
    with gradients disabled leaves the module as it is.  Then the
    parameter snapshot after [test] is the snapshot before it, however the
    call ends. *)
Theorem X11_test_keeps_parameters l w :
  (∀ m, state_dict (set_training false m) = state_dict m) →
  (∀ m X, (forward false (set_training false m) X).2 = set_training false m) →
  state_dict (net (test l w).2) = state_dict (net w).
Proof.
  intros Hsd Hpure.
  assert (Hloop : keeps (frozen w) (for_each (batches l) test_batch (of_Z 0))).
  { apply keeps_for_each. intros b nc. by apply keeps_frozen_test_batch. }
  set (w1 := set_grad_enabled false (set_net (set_training false (net w)) w)).
  assert (Hw1 : frozen w w1).
  { repeat split; try done. exists []. by rewrite app_nil_r. }
  specialize (Hloop w1 Hw1).
  unfold test. erewrite bind_ok by reflexivity. unfold bind at 1, no_grad. fold w1.
  destruct (for_each _ _ _ w1) as [[nc|e] w2]; simpl in *.
  - destruct Hloop as (Hnet & _). unfold bind, pydiv.
    destruct (dataset_len l); simpl; by rewrite Hnet, Hsd.
  - destruct Hloop as (Hnet & _). by rewrite Hnet, Hsd.
Qed.


Lemma validate_bucket_eq (cb : gmap string (option Batch)) loss_fn k
    (X : list Sample) (y : list nat) (tl nc : F) w :
  cb !! k = Some (Some ((X, y) : Batch)) →
  validate_bucket cb loss_fn k (tl, nc) w
  = (Ok (fadd tl (loss_fn (forward (grad_enabled w) (net w) X).1 y),
         fadd nc (of_Z (Z.of_nat (n_match (forward (grad_enabled w) (net w) X).1 y)))),
     emit (ELoss (forward (grad_enabled w) (net w) X).1 y
                 (loss_fn (forward (grad_enabled w) (net w) X).1 y))
       (emit (EForward (grad_enabled w) X (forward (grad_enabled w) (net w) X).1)
          (set_net (forward (grad_enabled w) (net w) X).2 w))).
Proof.
  intros Hk. unfold validate_bucket. cbn beta iota. unfold bind, getitem. rewrite Hk.
  unfold ret, call_model, call_loss.
  by destruct (forward (grad_enabled w) (net w) X) as [pred m].
Qed.

Lemma validate_step_one_bucket (l e3 e4 : Loader) loss_fn i st w :
  batches e3 = [] → batches e4 = [] →
  validate_step loss_fn (combined_batches_at (three l e3 e4) i) st w
  = match batches l !! i with
    | Some b => validate_bucket (combined_batches_at (three l e3 e4) i) loss_fn "2s" st w
    | None => (Ok st, w)
    end.
Proof.
  intros H3 H4. destruct (three_lookup l e3 e4) as (Hl2 & Hl3 & Hl4).
  set (cb := combined_batches_at (three l e3 e4) i).
  assert (Hc2 : cb !! "2s" = Some (batches l !! i)).
  { unfold cb, combined_batches_at. by rewrite lookup_fmap, Hl2. }
  assert (Hc3 : cb !! "3s" = Some None).
  { unfold cb, combined_batches_at. rewrite lookup_fmap, Hl3. simpl. by rewrite H3. }
  assert (Hc4 : cb !! "4s" = Some None).
  { unfold cb, combined_batches_at. rewrite lookup_fmap, Hl4. simpl. by rewrite H4. }
  unfold validate_step. rewrite for_each_cons.
  destruct (batches l !! i) as [[X y]|] eqn:Hb.
  - destruct st as [tl nc].
    rewrite (validate_bucket_eq cb loss_fn "2s" X y tl nc w) by done.
    rewrite for_each_cons, validate_bucket_absent by done.
    by rewrite for_each_cons, validate_bucket_absent by done.
  - rewrite validate_bucket_absent by done.
    rewrite for_each_cons, validate_bucket_absent by done.
    by rewrite for_each_cons, validate_bucket_absent by done.
Qed.

Lemma validate_like_test (l e3 e4 : Loader) loss_fn n :
  batches e3 = [] → batches e4 = [] →
  ∀ a (tl nc : F) w1 w2,
    same_state w1 w2 →
    ∃ tl' nc' w1' w2',
      for_each (combined_batches_at (three l e3 e4) <$> seq a n)
        (validate_step loss_fn) (tl, nc) w1
      = (Ok (tl', nc'), w1') ∧
      for_each (take n (drop a (batches l))) test_batch nc w2 = (Ok nc', w2') ∧
      same_state w1' w2'.
Proof.
  intros H3 H4. induction n as [|n IH]; intros a tl nc w1 w2 Hs.
  - exists tl, nc, w1, w2. by rewrite take_0.
  - cbn [seq fmap list_fmap]. rewrite for_each_cons, take_drop_step.
    rewrite (validate_step_one_bucket l e3 e4 loss_fn a (tl, nc) w1 H3 H4).
    change (list_fmap _ _ (combined_batches_at (three l e3 e4)) (seq (S a) n))
      with (combined_batches_at (three l e3 e4) <$> seq (S a) n).
    destruct (batches l !! a) as [[X y]|] eqn:Hb; cbn [option_list app].
    + destruct (three_lookup l e3 e4) as (Hl2 & _).
      rewrite (validate_bucket_eq _ loss_fn "2s" X y tl nc w1).
      2:{ unfold combined_batches_at. rewrite lookup_fmap, Hl2. simpl. by rewrite Hb. }
      unfold option_list. cbn [option_rect app]. rewrite for_each_cons, test_batch_eq.
      destruct Hs as (Hn & Ho & Hg & He & Hr & Hc & Ht & Hf).
      rewrite Hn, Hg. apply IH. by repeat split.
    + unfold option_list. cbn [option_rect app]. by apply IH.
Qed.

(** X12.  On a combined loader whose only batches and samples are those
    of the bucket ['2s'], [validate] returns as accuracy the value that
    [test] returns on the loader of that bucket, and both leave the
    network, the optimiser and the gradient mode in the same state. *)
Theorem X12_validate_agrees_with_test (l e3 e4 : Loader) loss_fn w :
  batches e3 = [] → batches e4 = [] →
  dataset_len e3 = 0 → dataset_len e4 = 0 →
  loader_len l ≠ 0 → dataset_len l ≠ 0 →
  ∃ avg_loss acc,
    (validate (three l e3 e4) loss_fn w).1 = Ok (avg_loss, acc) ∧
    (test l w).1 = Ok acc ∧
    same_state (validate (three l e3 e4) loss_fn w).2 (test l w).2.
Proof.
  intros H3 H4 Hd3 Hd4 Hl Hd.
  set (cl := three l e3 e4).
  set (w0 := set_grad_enabled false (set_net (set_training false (net w)) w)).
  destruct (validate_like_test l e3 e4 loss_fn (n_steps cl) H3 H4 0 (of_Z 0) (of_Z 0)
              w0 w0) as (tl' & nc' & w1 & w2 & Hv & Ht & Hs); [by repeat split|].
  rewrite drop_0, take_ge in Ht.
  2:{ apply (n_steps_ge cl "2s"). apply three_lookup. }
  assert (Hcb : count_batches_in_combined_loader cl ≠ 0).
  { unfold cl. rewrite three_count_batches. lia. }
  assert (Hcs : count_samples_in_combined_loader cl = dataset_len l).
  { unfold cl. rewrite three_count_samples. lia. }
  assert (Hval : validate cl loss_fn w
    = (Ok (fdiv tl' (of_Z (Z.of_nat (count_batches_in_combined_loader cl))),
           fmul (fdiv nc' (of_Z (Z.of_nat (dataset_len l)))) (of_Z 100)),
       set_grad_enabled (grad_enabled w) w1)).
  { unfold validate. erewrite bind_ok by reflexivity.
    unfold bind at 1, no_grad. fold w0. unfold steps. fold cl in Hv. rewrite Hv.
    rewrite Hcs. erewrite bind_ok by (by apply pydiv_nonzero).
    erewrite bind_ok by (by apply pydiv_nonzero). reflexivity. }
  assert (Htest : test l w
    = (Ok (fmul (fdiv nc' (of_Z (Z.of_nat (dataset_len l)))) (of_Z 100)),
       set_grad_enabled (grad_enabled w) w2)).
  { unfold test. erewrite bind_ok by reflexivity.
    unfold bind at 1, no_grad. fold w0. rewrite Ht.
    erewrite bind_ok by (by apply pydiv_nonzero). reflexivity. }
  rewrite Hval, Htest. eexists _, _. split; [reflexivity|]. split; [reflexivity|].
  destruct Hs as (?&?&?&?&?&?&?&?). by repeat split.
Qed.

End Evaluate.

(** ** The networks *)

Section Nets.

Lemma foldl_snoc_const {A B} (x : A) (l : list B) (acc : list A) :
  foldl (λ acc _, acc ++ [x]) acc l = acc ++ replicate (length l) x.
Proof.
  revert acc. induction l as [|y l IH]; intros acc; simpl.
  - by rewrite app_nil_r.
  - by rewrite IH, <-app_assoc.
Qed.

Lemma foldl_snoc_fmap {A B} (f : B → A) (l : list B) (acc : list A) :
  foldl (λ acc y, acc ++ [f y]) acc l = acc ++ (f <$> l).
Proof.
  revert acc. induction l as [|y l IH]; intros acc; simpl.
  - by rewrite app_nil_r.
  - by rewrite IH, <-app_assoc.
Qed.

Lemma py_range_length a b : length (py_range a b) = Z.to_nat (b - a).
Proof. unfold py_range. by rewrite length_fmap, length_seq. Qed.

Lemma make_layer_eq block out_channels n_blocks stride in0 :
  resnet._make_layer block out_channels n_blocks stride in0
  = (block in0 out_channels stride
       :: replicate (Z.to_nat (n_blocks - 1)) (block out_channels out_channels 1%Z),
     out_channels).
Proof.
  unfold resnet._make_layer. by rewrite foldl_snoc_const, py_range_length.
Qed.

(** X13.  A layer of the residual network always holds a block, also for a
    block count of one, zero or less, and it holds [n_blocks] of them
    otherwise.  Only its first block gets the channels that come in and
    the stride; every other block takes and gives [out_channels] at stride
    one.  After the call [self.in_channels] is [out_channels]. *)
Theorem X13_blocks_of_a_layer block out_channels n_blocks stride in0 :
  let r := resnet._make_layer block out_channels n_blocks stride in0 in
  r.2 = out_channels ∧
  length r.1 = Z.to_nat (Z.max 1 n_blocks) ∧
  r.1 !! 0 = Some (block in0 out_channels stride) ∧
  (∀ j, 0 < j < length r.1 → r.1 !! j = Some (block out_channels out_channels 1%Z)).
Proof.
  intros r. unfold r. rewrite make_layer_eq. cbn [fst snd].
  split; [done|]. split; [rewrite length_cons, length_replicate; lia|].
  split; [done|]. intros j. rewrite length_cons, length_replicate. intros Hj.
  destruct j as [|j]; [lia|]. cbn [lookup list_lookup].
  apply lookup_replicate_2. lia.
Qed.

Lemma foldl_add_layer_none c block (l : list nat) :
  foldl (λ st i, st ≫= λ st, resnet.add_layer c block st i) None l = None.
Proof. by induction l. Qed.

Lemma foldl_add_layer c block n :
  ∀ a layers0 in0 st,
    resnet.c_channels c !! (a - 1) = Some in0 →
    foldl (λ st i, st ≫= λ st, resnet.add_layer c block st i)
          (Some (layers0, in0)) (seq a n) = Some st →
    ∃ new,
      st.1 = layers0 ++ new ∧ length new = n ∧
      ∀ k, k < n → new !! k = resnet.layer_at c block (a + k).
Proof.
  induction n as [|n IH]; intros a layers0 in0 st Hin Hst.
  - simpl in Hst. injection Hst as <-. exists []. rewrite app_nil_r.
    split; [done|]. split; [done|]. lia.
  - cbn [seq foldl] in Hst. cbn [mbind option_bind] in Hst.
    unfold resnet.add_layer at 2 in Hst.
    destruct (resnet.c_channels c !! a) as [out|] eqn:Hout;
      [|by rewrite foldl_add_layer_none in Hst].
    destruct (resnet.c_blocks c !! a) as [nb|] eqn:Hnb;
      [|by rewrite foldl_add_layer_none in Hst].
    cbn [mbind option_bind] in Hst. rewrite make_layer_eq in Hst.
    apply IH in Hst as (new & Hst & Hlen & Hnew).
    2:{ by replace (S a - 1) with a by lia. }
    eexists (_ :: new). split; [by rewrite Hst, <-app_assoc|].
    split; [by rewrite length_cons, Hlen|].
    intros [|k] Hk.
    + rewrite Nat.add_0_r. unfold resnet.layer_at. rewrite Hout, Hnb, Hin.
      cbn [mbind option_bind]. by rewrite make_layer_eq.
    + cbn [lookup list_lookup]. rewrite Hnew by lia. f_equal. lia.
Qed.

Lemma resnet_layers c net :
  resnet.ResNet_init c = Some net →
  length (resnet.layers net) = Z.to_nat (resnet.c_n_layers c) ∧
  ∀ i, i < Z.to_nat (resnet.c_n_layers c) →
       resnet.layers net !! i
       = resnet.layer_at c
           (if decide (resnet.c_block c = "bottleneck") then resnet.BottleneckBlock
            else resnet.BasicBlock) i.
Proof.
  unfold resnet.ResNet_init. intros Hnet.
  destruct (resnet.c_channels c !! 0) as [in0|] eqn:Hin; [|done].
  cbn [mbind option_bind] in Hnet.
  destruct (foldl _ _ _) as [st|] eqn:Hst; [|done].
  cbn [mbind option_bind] in Hnet.
  destruct (last (resnet.c_channels c)) as [last_channels|]; [|done].
  cbn [mbind option_bind] in Hnet. injection Hnet as <-. cbn [resnet.layers].
  apply foldl_add_layer in Hst as (new & -> & Hlen & Hnew); [|done].
  rewrite app_nil_l. split; [done|]. intros i Hi. by rewrite Hnew.
Qed.

Lemma block_fields (bottleneck : bool) a b s :
  let block := if bottleneck then resnet.BottleneckBlock else resnet.BasicBlock in
  resnet.in_channels (block a b s) = a ∧
  resnet.out_channels (block a b s) = b ∧
  resnet.stride (block a b s) = s.
Proof. by destruct bottleneck. Qed.

(** X14.  Let the constructor of the residual network succeed.  Then the
    network has [n_layers] layers (none if that number is negative), and
    the block at position [j] of layer [i] gives [channels[i]] channels;
    it takes the channels of the layer before, [channels[i-1]], or of the
    feature extractor, [channels[0]], if it is the first block of its
    layer, and [channels[i]] if not; its stride is two if it is the first
    block of a layer other than the first, and one if not; and it applies
    the shortcut convolution exactly when it is the first block of a
    layer other than the first. *)
Theorem X14_blocks_of_the_residual_network c net :
  resnet.ResNet_init c = Some net →
  length (resnet.layers net) = Z.to_nat (resnet.c_n_layers c) ∧
  ∀ i j layer b,
    resnet.layers net !! i = Some layer → layer !! j = Some b →
    resnet.c_channels c !! i = Some (resnet.out_channels b) ∧
    resnet.c_channels c !! (if decide (j = 0) then i - 1 else i)
    = Some (resnet.in_channels b) ∧
    resnet.stride b = (if decide (j = 0 ∧ i ≠ 0) then 2%Z else 1%Z) ∧
    resnet.should_apply_shortcut b = bool_decide (j = 0 ∧ i ≠ 0).
Proof.
  intros Hnet. destruct (resnet_layers c net Hnet) as [Hlen Hlayers].
  split; [done|]. intros i j layer b Hi Hj.
  assert (Hlt : i < Z.to_nat (resnet.c_n_layers c)).
  { rewrite <-Hlen. by eapply lookup_lt_Some. }
  rewrite Hlayers in Hi by done. unfold resnet.layer_at in Hi.
  destruct (resnet.c_channels c !! i) as [out|] eqn:Hout; [|done].
  destruct (resnet.c_blocks c !! i) as [nb|] eqn:Hnb; [|done].
  destruct (resnet.c_channels c !! (i - 1)) as [before|] eqn:Hbefore; [|done].
  cbn [mbind option_bind] in Hi. rewrite make_layer_eq in Hi.
  injection Hi as <-.
  pose proof (block_fields (bool_decide (resnet.c_block c = "bottleneck"))) as Hf.
  cbn zeta in Hf.
  assert (Hblock : (if bool_decide (resnet.c_block c = "bottleneck")
                    then resnet.BottleneckBlock else resnet.BasicBlock)
                   = (if decide (resnet.c_block c = "bottleneck")
                      then resnet.BottleneckBlock else resnet.BasicBlock)).
  { by case_bool_decide; case_decide. }
  rewrite Hblock in Hf. clear Hblock.
  destruct j as [|j].
  - injection Hj as <-. destruct (Hf before out (if decide (i = 0) then 1%Z else 2%Z))
      as (Hfi & Hfo & Hfs).
    unfold resnet.should_apply_shortcut. rewrite Hfi, Hfo, Hfs.
    split; [done|]. split; [by rewrite decide_True by done|].
    destruct (decide (i = 0)) as [->|Hi0].
    + replace (0 - 1) with 0 in Hbefore by lia.
      assert (before = out) as -> by congruence.
      split; [by rewrite decide_False by tauto|].
      repeat case_bool_decide; cbn; try done; try tauto; lia.
    + split; [by rewrite decide_True by done|].
      repeat case_bool_decide; cbn; try done; try tauto; lia.
  - cbn [lookup list_lookup] in Hj. apply lookup_replicate in Hj as [-> _].
    destruct (Hf out out 1%Z) as (Hfi & Hfo & Hfs).
    unfold resnet.should_apply_shortcut. rewrite Hfi, Hfo, Hfs.
    split; [done|]. split; [by rewrite decide_False by done|].
    split; [by rewrite decide_False by (intros [? _]; done)|].
    repeat case_bool_decide; cbn; try done; try tauto; lia.
Qed.

Lemma foldl_add_layer_some c block n :
  ∀ a layers0 in0,
    a + n ≤ length (resnet.c_channels c) →
    a + n ≤ length (resnet.c_blocks c) →
    is_Some (foldl (λ st i, st ≫= λ st, resnet.add_layer c block st i)
               (Some (layers0, in0)) (seq a n)).
Proof.
  induction n as [|n IH]; intros a layers0 in0 Hc Hb; [by eexists|].
  cbn [seq foldl]. cbn [mbind option_bind]. unfold resnet.add_layer at 2.
  destruct (lookup_lt_is_Some_2 (resnet.c_channels c) a) as [out Hout]; [lia|].
  destruct (lookup_lt_is_Some_2 (resnet.c_blocks c) a) as [nb Hnb]; [lia|].
  rewrite Hout, Hnb. cbn [mbind option_bind]. rewrite make_layer_eq.
  apply IH; lia.
Qed.

(** X15.  The constructor of the residual network fails on an index, with
    torch accepting what it is given, exactly when the list of channels
    is empty or [n_layers] is greater than the length of the list of
    channels or of the list of block counts. *)
Theorem X15_resnet_index_errors c :
  resnet.ResNet_init c = None
  ↔ resnet.c_channels c = [] ∨
    length (resnet.c_channels c) < Z.to_nat (resnet.c_n_layers c) ∨
    length (resnet.c_blocks c) < Z.to_nat (resnet.c_n_layers c).
Proof.
  split.
  - intros Hnone.
    destruct (resnet.c_channels c) as [|ch0 chs] eqn:Hch; [by left|]. right.
    destruct (decide (length (ch0 :: chs) < Z.to_nat (resnet.c_n_layers c)));
      [by left|]. right.
    destruct (decide (length (resnet.c_blocks c) < Z.to_nat (resnet.c_n_layers c)));
      [done|]. exfalso.
    unfold resnet.ResNet_init in Hnone. rewrite Hch in Hnone.
    cbn [lookup list_lookup mbind option_bind] in Hnone.
    rewrite <-Hch in Hnone.
    match type of Hnone with
    | context [foldl ?f (Some (?l0, ?i0)) (seq 0 ?n)] =>
        destruct (foldl_add_layer_some c
                    (if decide (resnet.c_block c = "bottleneck")
                     then resnet.BottleneckBlock else resnet.BasicBlock)
                    n 0 l0 i0) as [st Hst]; [rewrite Hch; lia|lia|]
    end.
    rewrite Hst in Hnone. cbn [mbind option_bind] in Hnone.
    rewrite Hch in Hnone. by rewrite last_cons in Hnone; destruct (last chs).
  - intros Herr. destruct (resnet.ResNet_init c) as [net|] eqn:Hnet; [|done].
    exfalso. destruct (resnet_layers c net Hnet) as [Hlen Hlayers].
    assert (Hch : resnet.c_channels c ≠ []).
    { intros Hch. unfold resnet.ResNet_init in Hnet. by rewrite Hch in Hnet. }
    destruct Herr as [?|Herr]; [done|].
    assert (Hpos : 0 < Z.to_nat (resnet.c_n_layers c)) by (destruct Herr; lia).
    set (i := Z.to_nat (resnet.c_n_layers c) - 1).
    assert (Hi : is_Some (resnet.layers net !! i)).
    { apply lookup_lt_is_Some_2. lia. }
    rewrite Hlayers in Hi by lia. destruct Hi as [layer Hi].
    unfold resnet.layer_at in Hi.
    destruct (resnet.c_channels c !! i) as [out|] eqn:Hout; [|done].
    destruct (resnet.c_blocks c !! i) as [nb|] eqn:Hnb; [|done].
    apply lookup_lt_Some in Hout, Hnb. lia.
Qed.

End Nets.

Section TCNBot.
Context `{Scalar}.

Lemma foldl_Zadd (a : Z) (l : list Z) :
  foldl Z.add a l = (a + foldl Z.add 0 l)%Z.
Proof.
  revert a. induction l as [|x l IH]; intros a; cbn [foldl]; [lia|].
  rewrite (IH (a + x)%Z), (IH (0 + x)%Z). lia.
Qed.

Lemma sum_of_dilations (kernel : Z) (m : nat) :
  foldl Z.add 0%Z
    ((λ i, 2 ^ i * (kernel - 1))%Z <$> ((λ i, (0 + Z.of_nat i)%Z) <$> seq 0 m))
  = ((kernel - 1) * (2 ^ Z.of_nat m - 1))%Z.
Proof.
  induction m as [|m IH]; [simpl; lia|].
  rewrite seq_S, !fmap_app, foldl_app, IH. cbn [fmap list_fmap foldl].
  rewrite Nat2Z.inj_succ, Z.pow_succ_r by lia.
  replace (0 + Z.of_nat (0 + m))%Z with (Z.of_nat m) by lia. ring.
Qed.

(** X16.  The receptive field that [TCNBot] reports for a kernel size and
    a number of layers is [1 + 2 * (kernel - 1) * (2 ** n_layers - 1)];
    without layers, or with a negative number of them, it is one. *)
Theorem X16_receptive_field (kernel n_layers : Z) :
  tcn_bot.get_receptive_field kernel n_layers
  = (1 + 2 * (kernel - 1) * (2 ^ Z.max 0 n_layers - 1))%Z.
Proof.
  unfold tcn_bot.get_receptive_field, py_range.
  rewrite sum_of_dilations.
  replace (Z.of_nat (Z.to_nat (n_layers - 0))) with (Z.max 0 n_layers) by lia. ring.
Qed.

Lemma tcn_layers_eq (c : tcn_bot.Config) :
  tcn_bot.layers (tcn_bot.TCNBot_init c)
  = (λ i, tcn_bot.TemporalBlock_init
            (if decide (i = 0%Z) then tcn_bot.c_in_channels c else tcn_bot.c_n_filters c)
            (tcn_bot.c_n_filters c) (tcn_bot.c_kernel c) (2 ^ i)%Z
            ((tcn_bot.c_kernel c - 1) * 2 ^ i)%Z (tcn_bot.c_dropout c))
    <$> py_range 0 (tcn_bot.c_n_layers c).
Proof.
  unfold tcn_bot.TCNBot_init. cbn [tcn_bot.layers].
  unfold tcn_bot.add_layer. by rewrite foldl_snoc_fmap.
Qed.

Lemma sum_of_pairs {A} (p : A → Z) (l : list A) :
  foldl Z.add 0%Z (l ≫= λ i, [p i; p i]) = (2 * foldl Z.add 0%Z (p <$> l))%Z.
Proof.
  induction l as [|x l IH]; [done|].
  cbn [mbind list_bind fmap list_fmap foldl app].
  rewrite (foldl_Zadd (0 + p x + p x)), (foldl_Zadd (0 + p x)).
  change (mjoin ((λ i, [p i; p i]) <$> l)) with (l ≫= λ i, [p i; p i]) in *.
  lia.
Qed.

(** X17.  The receptive field that [TCNBot] reports for its configuration
    is one more than the sum of the chomp sizes of the network that the
    constructor builds: every temporal block holds two dilated
    convolutions, each chomped by its padding [(kernel - 1) * 2 ** i]. *)
Theorem X17_receptive_field_of_the_network (c : tcn_bot.Config) :
  tcn_bot.get_receptive_field (tcn_bot.c_kernel c) (tcn_bot.c_n_layers c)
  = (1 + foldl Z.add 0 (tcn_bot.all_chomps (tcn_bot.TCNBot_init c)))%Z.
Proof.
  unfold tcn_bot.all_chomps. rewrite tcn_layers_eq.
  unfold tcn_bot.get_receptive_field.
  set (l := py_range 0 (tcn_bot.c_n_layers c)).
  assert (Hch : ((λ i, tcn_bot.TemporalBlock_init
                    (if decide (i = 0%Z) then tcn_bot.c_in_channels c
                     else tcn_bot.c_n_filters c)
                    (tcn_bot.c_n_filters c) (tcn_bot.c_kernel c) (2 ^ i)%Z
                    ((tcn_bot.c_kernel c - 1) * 2 ^ i)%Z (tcn_bot.c_dropout c)) <$> l)
                ≫= tcn_bot.block_chomps
                = l ≫= λ i, [((tcn_bot.c_kernel c - 1) * 2 ^ i)%Z;
                             ((tcn_bot.c_kernel c - 1) * 2 ^ i)%Z]).
  { induction l as [|i l IH]; [done|].
    rewrite fmap_cons. cbn [mbind list_bind fmap list_fmap mjoin list_join] in *.
    by rewrite IH. }
  rewrite Hch, sum_of_pairs. do 2 f_equal.
  f_equal. apply list_fmap_ext. intros _ i _. lia.
Qed.

(** X18.  The network that the constructor of [TCNBot] builds has
    [n_layers] temporal blocks.  The block at index [i] gives [n_filters]
    channels and takes [n_filters] of them, or [in_channels] if it is the
    first; its bottleneck has [n_filters // 4] channels; its two dilated
    convolutions are chomped by [(kernel - 1) * 2 ** i], which is zero for
    a kernel of one; and it applies the shortcut convolution exactly when
    it is the first block and [in_channels] differs from [n_filters]. *)
Theorem X18_blocks_of_the_temporal_network (c : tcn_bot.Config) :
  let net := tcn_bot.TCNBot_init c in
  length (tcn_bot.layers net) = Z.to_nat (tcn_bot.c_n_layers c) ∧
  ∀ i b,
    tcn_bot.layers net !! i = Some b →
    tcn_bot.out_channels b = tcn_bot.c_n_filters c ∧
    tcn_bot.in_channels b
    = (if decide (i = 0) then tcn_bot.c_in_channels c else tcn_bot.c_n_filters c) ∧
    tcn_bot.channels b = (tcn_bot.c_n_filters c / 4)%Z ∧
    tcn_bot.block_chomps b
    = [((tcn_bot.c_kernel c - 1) * 2 ^ Z.of_nat i)%Z;
       ((tcn_bot.c_kernel c - 1) * 2 ^ Z.of_nat i)%Z] ∧
    tcn_bot.should_apply_shortcut b
    = bool_decide (i = 0 ∧ tcn_bot.c_in_channels c ≠ tcn_bot.c_n_filters c).
Proof.
  intros net. unfold net. rewrite tcn_layers_eq. unfold py_range.
  split; [by rewrite !length_fmap, length_seq, Z.sub_0_r|].
  intros i b. rewrite !list_lookup_fmap.
  destruct (seq 0 (Z.to_nat (tcn_bot.c_n_layers c - 0)) !! i) as [i'|] eqn:Hi; [|done].
  apply lookup_seq in Hi as [-> _]. cbn [fmap option_fmap option_map].
  intros [= <-]. cbn [tcn_bot.out_channels tcn_bot.in_channels tcn_bot.channels
                      tcn_bot.TemporalBlock_init].
  replace (0 + Z.of_nat (0 + i))%Z with (Z.of_nat i) by lia.
  split; [done|]. split; [by repeat case_decide; try done; lia|].
  split; [done|]. split; [done|].
  unfold tcn_bot.should_apply_shortcut.
  cbn [tcn_bot.out_channels tcn_bot.in_channels].
  repeat case_decide; repeat case_bool_decide; try done; try tauto; lia.
Qed.

(** X19.  [Chomp1d.forward] keeps the samples and the channels of its
    input and cuts every channel at its end: with a positive chomp size it
    keeps all but the last [chomp_size] entries, which is nothing when the
    channel is no longer than that; with a chomp size of zero it keeps
    nothing at all, as [x[:, :, :-0]] is [x[:, :, :0]]; with a negative
    one it keeps the first [-chomp_size] entries. *)
Theorem X19_chomp {A} (chomp_size : Z) (x : list (list (list A))) :
  length (tcn_bot.Chomp1d_forward chomp_size x) = length x ∧
  ∀ i j sample channel,
    x !! i = Some sample → sample !! j = Some channel →
    ∃ sample',
      tcn_bot.Chomp1d_forward chomp_size x !! i = Some sample' ∧
      length sample' = length sample ∧
      sample' !! j
      = Some (if decide (0 < chomp_size)%Z
              then take (length channel - Z.to_nat chomp_size) channel
              else if decide (chomp_size = 0%Z) then []
                   else take (Z.to_nat (- chomp_size)) channel).
Proof.
  unfold tcn_bot.Chomp1d_forward. split; [by rewrite length_fmap|].
  intros i j sample channel Hi Hj. rewrite list_lookup_fmap, Hi.
  eexists. split; [reflexivity|]. split; [by rewrite length_fmap|].
  rewrite list_lookup_fmap, Hj. cbn [fmap option_fmap option_map]. f_equal.
  unfold tcn_bot.slice_to. repeat case_decide; try lia.
  - f_equal. lia.
  - subst chomp_size. done.
  - done.
Qed.

End TCNBot.

(** ** How [main] fails before the first epoch *)

Section Startup.
Context `{Fw : Framework}.
Implicit Types (w : World).

Lemma define_model_unsupported site config w :
  model_kind config ∉ supported →
  define_model site config w
  = (Ok false,
     emit (ENote (model_kind config +:+ " model is not supported - typo in config?")) w).
Proof.
  unfold supported. rewrite !not_elem_of_cons. intros (H1 & H2 & H3 & H4 & _).
  unfold define_model. by rewrite !decide_False by done.
Qed.

(** X20.  If the configured model kind is none of those that [main]
    knows, [main] notes that the model is not supported and goes on; it
    then ends in an [UnboundLocalError] at its first use of [model],
    or, when no snapshot is named and the starting epoch is not zero, in
    the [AssertionError] that comes before that use.  It loads no file,
    and leaves the network, the optimiser and the files as they were. *)
Theorem X20_unsupported_model site exp_dir data_dir argv3 config_file start_epoch w :
  model_kind (get_config site config_file) ∉ supported →
  let out := main site exp_dir data_dir argv3 config_file start_epoch w in
  out.1 = (if decide (argv3 = "None" ∧ start_epoch ≠ 0%Z) then Raise AssertionError
           else Raise (UnboundLocalError "model")) ∧
  new_events w out.2
  = [ENote (model_kind (get_config site config_file)
            +:+ " model is not supported - typo in config?")] ∧
  same_state w out.2.
Proof.
  intros Hkind out. unfold out, main.
  erewrite bind_ok by (by apply define_model_unsupported).
  unfold restore_checkpoint, new_events.
  destruct (decide (argv3 ≠ "None")) as [Hs|Hs].
  - rewrite decide_False by tauto. unfold the_model, bind, raise.
    cbn [fst snd events emit]. rewrite drop_app_length.
    split; [done|]. split; [done|]. by repeat split.
  - apply dec_stable in Hs. unfold py_assert. case_bool_decide as He.
    + rewrite decide_False by tauto. unfold the_model, bind, ret, raise.
      cbn [fst snd events emit]. rewrite drop_app_length.
      split; [done|]. split; [done|]. by repeat split.
    + rewrite decide_True by done. unfold bind, raise.
      cbn [fst snd events emit]. rewrite drop_app_length.
      split; [done|]. split; [done|]. by repeat split.
Qed.

(** X21.  If a snapshot is named and its file does not exist, [main] with
    a model kind that it knows ends in a [FileNotFoundError] for
    [exp_dir/checkpt], whatever the starting epoch is: the file is loaded
    before the starting epoch is checked.  Nothing has been recorded by
    then. *)
Theorem X21_missing_snapshot_file site exp_dir data_dir argv3 config_file start_epoch w :
  model_kind (get_config site config_file) ∈ supported →
  argv3 ≠ "None" →
  files w !! (exp_dir +:+ "/" +:+ argv3) = None →
  let out := main site exp_dir data_dir argv3 config_file start_epoch w in
  out.1 = Raise (FileNotFoundError (exp_dir +:+ "/" +:+ argv3)) ∧
  events out.2 = events w.
Proof.
  intros Hkind Hs Hfile out. unfold out.
  destruct (define_model_supported site (get_config site config_file) w Hkind)
    as [m Hdef].
  assert (Hres : restore_checkpoint true exp_dir (Some argv3) start_epoch (set_net m w)
                 = (Raise (FileNotFoundError (exp_dir +:+ "/" +:+ argv3)), set_net m w)).
  { unfold restore_checkpoint, the_model, torch_load, ask, bind, ret, raise.
    cbn [files set_net]. by rewrite Hfile. }
  assert (Hout : main site exp_dir data_dir argv3 config_file start_epoch w
                 = (Raise (FileNotFoundError (exp_dir +:+ "/" +:+ argv3)), set_net m w)).
  { unfold main. erewrite bind_ok by exact Hdef.
    rewrite decide_True by done. unfold bind at 1. by rewrite Hres. }
  by rewrite Hout.
Qed.

End Startup.
(** * The claims at concrete inputs

    The small framework of [Toy], three buckets of two, one and three
    batches, and the default log interval. *)

#[local] Existing Instance Toy.scalar.
#[local] Existing Instance Toy.framework.

Lemma toy_keys (cl : gmap string Loader) :
  is_Some (cl !! "2s") → is_Some (cl !! "3s") → is_Some (cl !! "4s") →
  ∀ k, k ∈ hardcoded → is_Some (cl !! k).
Proof.
  intros H2 H3 H4 k. unfold hardcoded. rewrite !elem_of_cons, elem_of_nil.
  by intros [-> | [-> | [-> | []]]].
Qed.

Lemma toy_cl_keys : ∀ k, k ∈ hardcoded → is_Some (Toy.cl !! k).
Proof. apply toy_keys; eexists; reflexivity. Qed.

(** C1 at the three buckets: six forward passes. *)
Lemma C1_each_batch_once_witness :
  (100 ≠ 0)%Z ∧
  consumed (new_events Toy.world (train Toy.cl cross_entropy_loss 0 100 Toy.world).2)
  ≡ₚ batches Toy.l2 ++ batches Toy.l3 ++ batches Toy.l4 ∧
  length (fwd_inputs
            (new_events Toy.world (validate Toy.cl cross_entropy_loss Toy.world).2))
  = 6.
Proof.
  split; [lia|].
  destruct (C1_each_batch_once Toy.l2 Toy.l3 Toy.l4 cross_entropy_loss 0 100 Toy.world)
    as (Ht & _ & _ & Hv & _); [lia|].
  split; [exact Ht|exact Hv].
Defined.

(** C3 at the three buckets: two of the six batches miss a label when they
    are processed, and the average is a third. *)
Lemma C3_train_returns_average_witness :
  (∀ k, k ∈ hardcoded → is_Some (Toy.cl !! k)) ∧
  (100 ≠ 0)%Z ∧
  count_batches_in_combined_loader Toy.cl ≠ 0 ∧
  (train Toy.cl cross_entropy_loss 0 100 Toy.world).1 = Ok (1 # 3)%Q.
Proof.
  assert (Hn : count_batches_in_combined_loader Toy.cl ≠ 0) by (vm_compute; lia).
  split; [exact toy_cl_keys|]. split; [lia|]. split; [exact Hn|].
  destruct (C3_train_returns_average Toy.cl cross_entropy_loss 0 100 Toy.world
              toy_cl_keys ltac:(lia) Hn) as (w' & Hrun & _).
  assert (Hw' : w' = (train Toy.cl cross_entropy_loss 0 100 Toy.world).2)
    by (rewrite Hrun; reflexivity).
  rewrite Hrun. cbn [fst]. rewrite Hw'. reflexivity.
Defined.


(** C5 on resuming at epoch 3 from an existing snapshot: the check
    passes. *)
Lemma C5_resume_precondition_witness :
  (model_kind (get_config Toy.site "config.yaml") ∈ supported) ∧
  ("saved.pth" ≠ "None" →
   is_Some (files Toy.world_with_file !! ("exp/run1" +:+ "/" +:+ "saved.pth"))) ∧
  (ESummary ∉ events Toy.world_with_file) ∧
  ESummary ∈ events (main Toy.site "exp/run1" "data" "saved.pth" "config.yaml" 3
                          Toy.world_with_file).2.
Proof.
  assert (Hkind : model_kind (get_config Toy.site "config.yaml") ∈ supported).
  { change ("resnet" ∈ supported). unfold supported. rewrite !elem_of_cons. auto. }
  assert (Hfile : "saved.pth" ≠ "None" →
            is_Some (files Toy.world_with_file !! ("exp/run1" +:+ "/" +:+ "saved.pth"))).
  { intros _. eexists. reflexivity. }
  assert (Hfresh : ESummary ∉ events Toy.world_with_file) by apply not_elem_of_nil.
  split; [exact Hkind|]. split; [exact Hfile|]. split; [exact Hfresh|].
  destruct (C5_resume_precondition Toy.site "exp/run1" "data" "saved.pth" "config.yaml" 3
              Toy.world_with_file Hkind Hfile Hfresh) as [_ Hs].
  apply Hs. unfold consistent. case_decide as Hd; [lia|]. discriminate Hd.
Defined.



(** The loss of that record is the sum of three losses divided by two. *)
Example progress_loss_at_uneven :
  progress_losses
    (new_events Toy.world (train Toy.uneven cross_entropy_loss 0 2 Toy.world).2)
  = [(1 # 1)%Q] ∧
  loss_values
    (new_events Toy.world (train Toy.uneven cross_entropy_loss 0 2 Toy.world).2)
  = [0%Q; (1 # 1)%Q; (1 # 1)%Q].
Proof. split; reflexivity. Qed.

(** C7 at the third step of the three buckets, where the bucket of two
    batches is exhausted. *)
Lemma C7_absent_bucket_is_skipped_witness :
  combined_batches_at Toy.cl 2 !! "2s" = Some None ∧
  train_bucket (combined_batches_at Toy.cl 2) cross_entropy_loss 10 0 100 "2s"
    ((5 # 1)%Q, 4) Toy.world
  = (Ok ((5 # 1)%Q, 4), Toy.world) ∧
  validate_bucket (combined_batches_at Toy.cl 2) cross_entropy_loss "2s"
    ((5 # 1)%Q, (3 # 1)%Q) Toy.world
  = (Ok ((5 # 1)%Q, (3 # 1)%Q), Toy.world).
Proof.
  split; [reflexivity|].
  apply (C7_absent_bucket_is_skipped (combined_batches_at Toy.cl 2)). reflexivity.
Defined.

(** C8 at the three buckets: the training epoch meets the batches in the
    shuffled orders and takes six draws, the validation epoch meets them in
    the written order and takes none. *)
Lemma C8_bucket_order_witness :
  (∀ k, k ∈ hardcoded → is_Some (Toy.cl !! k)) ∧
  (100 ≠ 0)%Z ∧
  consumed (new_events Toy.world (train Toy.cl cross_entropy_loss 0 100 Toy.world).2)
  = [([4; 5], [0; 1]); ([6; 7], [0; 1]); ([1; 2], [0; 0]);
     ([8; 9], [1; 1]); ([3], [1]); ([10], [0])] ∧
  rng_pos (train Toy.cl cross_entropy_loss 0 100 Toy.world).2 = 6 ∧
  consumed (new_events Toy.world (validate Toy.cl cross_entropy_loss Toy.world).2)
  = [([1; 2], [0; 0]); ([4; 5], [0; 1]); ([6; 7], [0; 1]);
     ([3], [1]); ([8; 9], [1; 1]); ([10], [0])] ∧
  rng_pos (validate Toy.cl cross_entropy_loss Toy.world).2 = 0.
Proof.
  split; [exact toy_cl_keys|]. split; [lia|].
  destruct (C8_bucket_order Toy.cl cross_entropy_loss 0 100 Toy.world
              toy_cl_keys ltac:(lia)) as (Ht & Hrt & _ & Hv & Hrv).
  rewrite Ht, Hrt, Hv, Hrv. repeat split; reflexivity.
Defined.

(** C9 with a fourth bucket [5s] of two batches: they count in the total of
    eight and are not processed. *)
Lemma C9_only_hardcoded_buckets_witness :
  Toy.cl_extra !! "2s" = Some Toy.l2 ∧
  Toy.cl_extra !! "3s" = Some Toy.l3 ∧
  Toy.cl_extra !! "4s" = Some Toy.l4 ∧
  (100 ≠ 0)%Z ∧
  consumed
    (new_events Toy.world (train Toy.cl_extra cross_entropy_loss 0 100 Toy.world).2)
  ≡ₚ batches Toy.l2 ++ batches Toy.l3 ++ batches Toy.l4 ∧
  count_batches_in_combined_loader Toy.cl_extra = 2 + 1 + 3 + 2.
Proof.
  split; [reflexivity|]. split; [reflexivity|]. split; [reflexivity|]. split; [lia|].
  destruct (C9_only_hardcoded_buckets Toy.cl_extra Toy.l2 Toy.l3 Toy.l4
              cross_entropy_loss 0 100 Toy.world
              eq_refl eq_refl eq_refl ltac:(lia)) as (Ht & _ & Hb & _).
  split; [exact Ht|exact Hb].
Defined.

(** C10 in the small framework, which keeps its word on evaluation mode. *)
Lemma C10_validate_keeps_parameters_witness :
  (∀ m : Net, state_dict (set_training false m) = state_dict m) ∧
  (∀ (m : Net) (X : list Sample),
     (forward false (set_training false m) X).2 = set_training false m) ∧
  state_dict (net (validate Toy.cl cross_entropy_loss Toy.world).2)
  = state_dict (net Toy.world).
Proof.
  assert (H1 : ∀ m : Net, state_dict (set_training false m) = state_dict m)
    by (intros m; reflexivity).
  assert (H2 : ∀ (m : Net) (X : list Sample),
            (forward false (set_training false m) X).2 = set_training false m)
    by (intros m X; reflexivity).
  split; [exact H1|]. split; [exact H2|].
  apply (C10_validate_keeps_parameters Toy.cl cross_entropy_loss Toy.world H1 H2).
Defined.

(** ** The cases of the specification *)

(** Validation accuracies 70, 65, 80, 75, 90: the best file is written at
    the first, third and fifth epoch, the latest file at every epoch. *)
Example checkpoints_70_65_80_75_90 :
  saved_paths
    (for_each [(0, 70 # 1); (1, 65 # 1); (2, 80 # 1); (3, 75 # 1); (4, 90 # 1)]%Z%Q
       (λ ta st, save_checkpoints "exp/run1" "run1" 0 ta.1 ta.2 st)
       (of_Z 0, 0%Z) Toy.world).2.(events)
  = ["exp/run1/run1_0_best_model.pth"; "exp/run1/run1_latest_model.pth";
     "exp/run1/run1_latest_model.pth";
     "exp/run1/run1_0_best_model.pth"; "exp/run1/run1_latest_model.pth";
     "exp/run1/run1_latest_model.pth";
     "exp/run1/run1_0_best_model.pth"; "exp/run1/run1_latest_model.pth"].
Proof. reflexivity. Qed.

(** Starting epoch 0 with a snapshot fails, starting epoch 3 without one
    fails, starting epoch 3 with one runs to the end. *)
Example resume_cases :
  (main Toy.site "exp/run1" "data" "saved.pth" "config.yaml" 0 Toy.world_with_file).1
  = Raise AssertionError ∧
  (main Toy.site "exp/run1" "data" "None" "config.yaml" 3 Toy.world_with_file).1
  = Raise AssertionError ∧
  (main Toy.site "exp/run1" "data" "saved.pth" "config.yaml" 3 Toy.world_with_file).1
  = Ok tt.
Proof. repeat split; reflexivity. Qed.

(** A training epoch changes the parameter snapshot of the small
    network. *)
Example train_changes_parameters :
  state_dict (net (train Toy.cl cross_entropy_loss 0 100 Toy.world).2)
  ≠ state_dict (net Toy.world).
Proof. intros Heq. vm_compute in Heq. discriminate Heq. Qed.

(** * The further properties at concrete inputs *)

(** X1 at three buckets without a batch. *)
Lemma X1_train_fails_without_batches_witness :
  (∀ k, k ∈ hardcoded → is_Some (Toy.empty !! k)) ∧
  (100 ≠ 0)%Z ∧
  (train Toy.empty cross_entropy_loss 0 100 Toy.world).1 = Raise ZeroDivisionError.
Proof.
  assert (Hkeys : ∀ k, k ∈ hardcoded → is_Some (Toy.empty !! k)).
  { apply toy_keys; eexists; reflexivity. }
  split; [exact Hkeys|]. split; [lia|].
  destruct (X1_train_fails_without_batches Toy.empty cross_entropy_loss 0 100 Toy.world
              Hkeys ltac:(lia)) as [Hiff _].
  apply Hiff. reflexivity.
Defined.

(** X2 at three buckets without a batch. *)
Lemma X2_validate_fails_without_batches_or_samples_witness :
  (∀ k, k ∈ hardcoded → is_Some (Toy.empty !! k)) ∧
  (validate Toy.empty cross_entropy_loss Toy.world).1 = Raise ZeroDivisionError.
Proof.
  assert (Hkeys : ∀ k, k ∈ hardcoded → is_Some (Toy.empty !! k)).
  { apply toy_keys; eexists; reflexivity. }
  split; [exact Hkeys|].
  apply (X2_validate_fails_without_batches_or_samples Toy.empty cross_entropy_loss
           Toy.world Hkeys).
  left. reflexivity.
Defined.

(** X3 at a combined loader without the bucket [3s]. *)
Lemma X3_missing_bucket_is_a_key_error_witness :
  0 < n_steps Toy.lacking ∧
  missing Toy.lacking hardcoded ≠ [] ∧
  (validate Toy.lacking cross_entropy_loss Toy.world).1 = Raise (KeyError "3s") ∧
  (train Toy.lacking cross_entropy_loss 0 100 Toy.world).1 = Raise (KeyError "3s").
Proof.
  assert (Hn : 0 < n_steps Toy.lacking) by (vm_compute; lia).
  assert (Hm : missing Toy.lacking hardcoded ≠ []) by (vm_compute; discriminate).
  split; [exact Hn|]. split; [exact Hm|].
  destruct (X3_missing_bucket_is_a_key_error Toy.lacking cross_entropy_loss 0 100
              Toy.world Hn Hm) as [(k & Hk & Hv) Ht].
  destruct (Ht ltac:(lia)) as (k' & Hk' & Htr).
  vm_compute in Hk, Hk'. injection Hk as <-. injection Hk' as <-.
  split; [exact Hv|exact Htr].
Defined.

(** X4 at the three buckets of two, one and three batches. *)
Lemma X4_zero_log_interval_witness :
  Toy.cl !! "2s" = Some Toy.l2 ∧
  Toy.cl !! "3s" = Some Toy.l3 ∧
  Toy.cl !! "4s" = Some Toy.l4 ∧
  (train Toy.cl cross_entropy_loss 0 0 Toy.world).1 = Raise ZeroDivisionError ∧
  optimizer_steps
    (new_events Toy.world (train Toy.cl cross_entropy_loss 0 0 Toy.world).2) = 2.
Proof.
  split; [reflexivity|]. split; [reflexivity|]. split; [reflexivity|].
  destruct (X4_zero_log_interval Toy.cl Toy.l2 Toy.l3 Toy.l4 cross_entropy_loss 0
              Toy.world eq_refl eq_refl eq_refl) as [Hiff Hst].
  split.
  - apply Hiff. left. vm_compute. lia.
  - apply Hst. vm_compute. lia.
Defined.

(** X5 at the three buckets: six batches, six steps of the optimiser. *)
Lemma X5_calls_of_a_training_epoch_witness :
  (∀ k, k ∈ hardcoded → is_Some (Toy.cl !! k)) ∧
  (100 ≠ 0)%Z ∧
  optimizer_steps
    (new_events Toy.world (train Toy.cl cross_entropy_loss 0 100 Toy.world).2) = 6.
Proof.
  split; [exact toy_cl_keys|]. split; [lia|].
  destruct (X5_calls_of_a_training_epoch Toy.cl cross_entropy_loss 0 100 Toy.world
              toy_cl_keys ltac:(lia)) as (_ & _ & Hst).
  rewrite Hst. reflexivity.
Defined.

(** X6 at the three buckets, for the log intervals 1 and 100 and the
    epochs 0 and 5. *)
Lemma X6_logging_does_not_touch_training_witness :
  (1 ≠ 0)%Z ∧ (100 ≠ 0)%Z ∧
  (train Toy.cl cross_entropy_loss 0 1 Toy.world).1
  = (train Toy.cl cross_entropy_loss 5 100 Toy.world).1.
Proof.
  split; [lia|]. split; [lia|].
  apply (X6_logging_does_not_touch_training Toy.cl cross_entropy_loss 0 5 1 100
           Toy.world); lia.
Defined.

Lemma toy_fgt_transitive (x y z : Q) :
  fgt x y = true → fgt y z = true → fgt x z = true.
Proof.
  unfold fgt. cbn. rewrite !negb_true_iff, <-!not_true_iff_false, !Qle_bool_iff.
  intros Hxy Hyz Hxz. apply Hxy, Qlt_le_weak.
  apply Qle_lt_trans with z; [done|]. by apply Qnot_le_lt.
Qed.

(** C2 on resuming at epoch 1 of 2 from an existing snapshot: the one epoch
    that runs writes the best file, its accuracy being greater than the
    record 0, and then the latest file. *)
Lemma C2_checkpoint_selection_witness :
  (model_kind (Toy.site.(get_config) "config.yaml") ∈ supported) ∧
  ("saved.pth" ≠ "None" →
   is_Some (files Toy.world_with_file !! ("exp/run1" +:+ "/" +:+ "saved.pth"))) ∧
  consistent "saved.pth" 1 ∧
  count_batches_in_combined_loader
    (combined_loader Toy.site "data" "train" (Toy.site.(get_config) "config.yaml") true)
  ≠ 0 ∧
  count_batches_in_combined_loader
    (combined_loader Toy.site "data" "val" (Toy.site.(get_config) "config.yaml") false)
  ≠ 0 ∧
  count_samples_in_combined_loader
    (combined_loader Toy.site "data" "val" (Toy.site.(get_config) "config.yaml") false)
  ≠ 0 ∧
  saved_paths
    (new_events Toy.world_with_file
       (main Toy.site "exp/run1" "data" "saved.pth" "config.yaml" 1
          Toy.world_with_file).2)
  = ["exp/run1/run1_1_best_model.pth"; "exp/run1/run1_latest_model.pth"].
Proof.
  assert (Hkind : model_kind (Toy.site.(get_config) "config.yaml") ∈ supported).
  { change ("resnet" ∈ supported). unfold supported. rewrite !elem_of_cons. auto. }
  assert (Hfile : "saved.pth" ≠ "None" →
            is_Some (files Toy.world_with_file !! ("exp/run1" +:+ "/" +:+ "saved.pth"))).
  { intros _. eexists. reflexivity. }
  assert (Hc : consistent "saved.pth" 1).
  { unfold consistent. case_decide as Hd; [lia|]. discriminate Hd. }
  assert (Hbt : count_batches_in_combined_loader
                  (combined_loader Toy.site "data" "train"
                     (Toy.site.(get_config) "config.yaml") true) ≠ 0)
    by (vm_compute; lia).
  assert (Hbv : count_batches_in_combined_loader
                  (combined_loader Toy.site "data" "val"
                     (Toy.site.(get_config) "config.yaml") false) ≠ 0)
    by (vm_compute; lia).
  assert (Hsv : count_samples_in_combined_loader
                  (combined_loader Toy.site "data" "val"
                     (Toy.site.(get_config) "config.yaml") false) ≠ 0)
    by (vm_compute; lia).
  split; [exact Hkind|]. split; [exact Hfile|]. split; [exact Hc|].
  split; [exact Hbt|]. split; [exact Hbv|]. split; [exact Hsv|].
  destruct (C2_checkpoint_selection Toy.site "exp/run1" "data" "saved.pth"
              "config.yaml" 1 Toy.world_with_file Hkind Hfile Hc Hbt Hbv Hsv)
    as (_ & _ & _ & Hsaved & _).
  rewrite Hsaved. reflexivity.
Defined.

(** X7 on resuming at epoch 1 of 2 from an existing snapshot. *)
Lemma X7_main_runs_to_its_end_witness :
  (model_kind (Toy.site.(get_config) "config.yaml") ∈ supported) ∧
  ("saved.pth" ≠ "None" →
   is_Some (files Toy.world_with_file !! ("exp/run1" +:+ "/" +:+ "saved.pth"))) ∧
  consistent "saved.pth" 1 ∧
  count_batches_in_combined_loader
    (combined_loader Toy.site "data" "train" (Toy.site.(get_config) "config.yaml") true)
  ≠ 0 ∧
  count_batches_in_combined_loader
    (combined_loader Toy.site "data" "val" (Toy.site.(get_config) "config.yaml") false)
  ≠ 0 ∧
  count_samples_in_combined_loader
    (combined_loader Toy.site "data" "val" (Toy.site.(get_config) "config.yaml") false)
  ≠ 0 ∧
  (main Toy.site "exp/run1" "data" "saved.pth" "config.yaml" 1 Toy.world_with_file).1
  = Ok tt.
Proof.
  assert (Hkind : model_kind (Toy.site.(get_config) "config.yaml") ∈ supported).
  { change ("resnet" ∈ supported). unfold supported. rewrite !elem_of_cons. auto. }
  assert (Hfile : "saved.pth" ≠ "None" →
            is_Some (files Toy.world_with_file !! ("exp/run1" +:+ "/" +:+ "saved.pth"))).
  { intros _. eexists. reflexivity. }
  assert (Hc : consistent "saved.pth" 1).
  { unfold consistent. case_decide as Hd; [lia|]. discriminate Hd. }
  assert (Hbt : count_batches_in_combined_loader
                  (combined_loader Toy.site "data" "train"
                     (Toy.site.(get_config) "config.yaml") true) ≠ 0)
    by (vm_compute; lia).
  assert (Hbv : count_batches_in_combined_loader
                  (combined_loader Toy.site "data" "val"
                     (Toy.site.(get_config) "config.yaml") false) ≠ 0)
    by (vm_compute; lia).
  assert (Hsv : count_samples_in_combined_loader
                  (combined_loader Toy.site "data" "val"
                     (Toy.site.(get_config) "config.yaml") false) ≠ 0)
    by (vm_compute; lia).
  split; [exact Hkind|]. split; [exact Hfile|]. split; [exact Hc|].
  split; [exact Hbt|]. split; [exact Hbv|]. split; [exact Hsv|].
  apply (X7_main_runs_to_its_end Toy.site "exp/run1" "data" "saved.pth" "config.yaml" 1
           Toy.world_with_file Hkind Hfile Hc Hbt Hbv Hsv).
Defined.

(** X11 in the small framework, which keeps its word on evaluation
    mode. *)
Lemma X11_test_keeps_parameters_witness :
  (∀ m : Net, state_dict (set_training false m) = state_dict m) ∧
  (∀ (m : Net) (X : list Sample),
     (forward false (set_training false m) X).2 = set_training false m) ∧
  state_dict (net (test Toy.l4 Toy.world).2) = state_dict (net Toy.world).
Proof.
  assert (H1 : ∀ m : Net, state_dict (set_training false m) = state_dict m)
    by (intros m; reflexivity).
  assert (H2 : ∀ (m : Net) (X : list Sample),
            (forward false (set_training false m) X).2 = set_training false m)
    by (intros m X; reflexivity).
  split; [exact H1|]. split; [exact H2|].
  apply (X11_test_keeps_parameters Toy.l4 Toy.world H1 H2).
Defined.

(** X12 at the bucket of three batches beside two buckets without any:
    four of its five rows are classified correctly. *)
Lemma X12_validate_agrees_with_test_witness :
  batches (Toy.loader []) = [] ∧
  dataset_len (Toy.loader []) = 0 ∧
  loader_len Toy.l4 ≠ 0 ∧
  dataset_len Toy.l4 ≠ 0 ∧
  ∃ avg_loss acc,
    (validate (three Toy.l4 (Toy.loader []) (Toy.loader [])) cross_entropy_loss
       Toy.world).1 = Ok (avg_loss, acc) ∧
    (test Toy.l4 Toy.world).1 = Ok acc.
Proof.
  split; [reflexivity|]. split; [reflexivity|].
  assert (Hl : loader_len Toy.l4 ≠ 0) by (vm_compute; lia).
  assert (Hd : dataset_len Toy.l4 ≠ 0) by (vm_compute; lia).
  split; [exact Hl|]. split; [exact Hd|].
  destruct (X12_validate_agrees_with_test Toy.l4 (Toy.loader []) (Toy.loader [])
              cross_entropy_loss Toy.world eq_refl eq_refl eq_refl eq_refl Hl Hd)
    as (avg_loss & acc & Hv & Ht & _).
  exists avg_loss, acc. split; [exact Hv|exact Ht].
Defined.

(** X14 at a bottleneck network of three layers of two blocks. *)
Lemma X14_blocks_of_the_residual_network_witness :
  ∃ net,
    resnet.ResNet_init
      (resnet.mkConfig [8; 16; 32]%Z 7 3 2 "bottleneck" 3 [2; 2; 2]%Z 2) = Some net ∧
    length (resnet.layers net) = 3.
Proof.
  destruct (resnet.ResNet_init
              (resnet.mkConfig [8; 16; 32]%Z 7 3 2 "bottleneck" 3 [2; 2; 2]%Z 2))
    as [net|] eqn:Hnet; [|vm_compute in Hnet; discriminate Hnet].
  exists net. split; [reflexivity|].
  destruct (X14_blocks_of_the_residual_network _ net Hnet) as [Hlen _].
  rewrite Hlen. reflexivity.
Defined.

(** X20 at a configuration that asks for the model kind [lstm]. *)
Lemma X20_unsupported_model_witness :
  (model_kind (Toy.other_site.(get_config) "config.yaml") ∉ supported) ∧
  (main Toy.other_site "exp/run1" "data" "None" "config.yaml" 0 Toy.world).1
  = Raise (UnboundLocalError "model").
Proof.
  assert (Hkind : model_kind (Toy.other_site.(get_config) "config.yaml") ∉ supported).
  { change ("lstm" ∉ supported). unfold supported.
    rewrite !not_elem_of_cons. repeat split; try discriminate. apply not_elem_of_nil. }
  split; [exact Hkind|].
  destruct (X20_unsupported_model Toy.other_site "exp/run1" "data" "None" "config.yaml" 0
              Toy.world Hkind) as [Hr _].
  rewrite Hr. reflexivity.
Defined.

(** X21 on resuming at epoch 3 from a snapshot that is not there. *)
Lemma X21_missing_snapshot_file_witness :
  (model_kind (Toy.site.(get_config) "config.yaml") ∈ supported) ∧
  "saved.pth" ≠ "None" ∧
  files Toy.world !! ("exp/run1" +:+ "/" +:+ "saved.pth") = None ∧
  (main Toy.site "exp/run1" "data" "saved.pth" "config.yaml" 3 Toy.world).1
  = Raise (FileNotFoundError "exp/run1/saved.pth").
Proof.
  assert (Hkind : model_kind (Toy.site.(get_config) "config.yaml") ∈ supported).
  { change ("resnet" ∈ supported). unfold supported. rewrite !elem_of_cons. auto. }
  assert (Hs : "saved.pth" ≠ "None") by discriminate.
  split; [exact Hkind|]. split; [exact Hs|]. split; [reflexivity|].
  apply (X21_missing_snapshot_file Toy.site "exp/run1" "data" "saved.pth" "config.yaml" 3
           Toy.world Hkind Hs eq_refl).
Defined.

(** ** More cases *)

(** The accuracy of the small network on the bucket of three batches. *)
Example test_at_l4 : (test Toy.l4 Toy.world).1 = Ok (80 # 1)%Q.
Proof. reflexivity. Qed.

(** An experiment directory with and without a trailing ['/']. *)
Example experiment_identifiers :
  last_segment "experiments/train-1" = "train-1" ∧
  last_segment "experiments/train-1/" = "" ∧
  last_segment "train-1" = "train-1".
Proof. repeat split; reflexivity. Qed.

(** A kernel of three over four layers sees 61 values; a chomp of two
    leaves three of five values, a chomp of zero none. *)
Example receptive_field_3_4 : tcn_bot.get_receptive_field 3 4 = 61%Z.
Proof. reflexivity. Qed.

Example chomp_cases :
  tcn_bot.Chomp1d_forward 2 [[[1; 2; 3; 4; 5]]] = [[[1; 2; 3]]] ∧
  tcn_bot.Chomp1d_forward 0 [[[1; 2; 3; 4; 5]]] = [[[]]].
Proof. split; reflexivity. Qed.

(** The layers of a residual network of three layers with block counts
    two, one and zero: the strides and the blocks that apply the
    shortcut. *)
Example resnet_2_1_0 :
  (λ net : resnet.ResNet,
     (λ layer : list resnet.ResidualBlock,
        (λ b : resnet.ResidualBlock,
           (resnet.in_channels b, resnet.out_channels b,
            resnet.stride b, resnet.should_apply_shortcut b))
        <$> layer) <$> resnet.layers net)
  <$> resnet.ResNet_init (resnet.mkConfig [8; 16; 32]%Z 7 3 2 "basic" 3 [2; 1; 0]%Z 2)
  = Some [[(8, 8, 1, false); (8, 8, 1, false)];
          [(8, 16, 2, true)];
          [(16, 32, 2, true)]]%Z.
Proof. reflexivity. Qed.
